(** * ZipDir cache factory: the archive directory reader of
    Code/Framework/AzFramework/AzFramework/Archive/ZipDirCacheFactory.cpp

    A shallow embedding of [CacheFactory]: the backwards scan for the
    End-of-Central-Directory record ([FindCDREnd]), the decoding of the vendor
    trailer and the sanity checks of [Prepare], the walk over the Central
    Directory ([BuildFileEntryMap]), the per-entry checks ([AddFileEntry],
    [InitDataOffset], [Validate]) and the driver ([ReadCache], [New]).

    The factory is stateful C++.  Its member variables are the fields of the
    record [CacheFactory]; every member function is a function in the monad
    [M], which threads that record and can stop in [Fatal] (AZ_Fatal) or in
    [Overrun] (an access past the end of a buffer, after which C++ gives the
    run no meaning).
    Unsigned 16 and 32 bit arithmetic is written on [Z] with the wrap-around
    spelled out where the operands can leave the type's range. *)

From Stdlib Require Import ZArith Lia List Bool Strings.Byte.
From stdpp Require Import base list gmap.

Local Open Scope Z_scope.

(** ** Bytes, buffers and little-endian fields *)

#[global] Instance byte_eq_dec : EqDecision byte := Byte.byte_eq_dec.

#[global] Program Instance byte_countable : Countable byte :=
  inj_countable Byte.to_N Byte.of_N _.
Next Obligation. intros x. apply Byte.of_to_N. Qed.

Definition byte_to_Z (b : byte) : Z := Z.of_N (Byte.to_N b).

Definition byte_of_Z (z : Z) : byte :=
  match Byte.of_N (Z.to_N (z mod 256)) with
  | Some b => b
  | None => x00
  end.

(** A [char] buffer (AZStd::vector<char>); [buf_get] is [buf[i]]. Indices the
    code never forms (outside the vector) read as 0. *)
Definition buf_get (buf : list byte) (i : Z) : byte :=
  if i <? 0 then x00 else default x00 (buf !! Z.to_nat i).

(** [memcpy(&buf[i], src, length src)] *)
Definition buf_write (buf : list byte) (i : Z) (src : list byte) : list byte :=
  list_inserts (Z.to_nat i) src buf.

(** The [n] bytes of [buf] from index [i] on. *)
Definition buf_slice (buf : list byte) (i n : Z) : list byte :=
  map (fun k => buf_get buf (i + Z.of_nat k)) (seq 0 (Z.to_nat n)).

(** A [uint16_t] and a [uint32_t] field at byte offset [i] (the structures are
    packed and the platform is little-endian). *)
Definition read_u16 (buf : list byte) (i : Z) : Z :=
  byte_to_Z (buf_get buf i) + 256 * byte_to_Z (buf_get buf (i + 1)).

Definition read_u32 (buf : list byte) (i : Z) : Z :=
  read_u16 buf i + 65536 * read_u16 buf (i + 2).

Definition read_u64 (buf : list byte) (i : Z) : Z :=
  read_u32 buf i + 4294967296 * read_u32 buf (i + 4).

Definition u16 (z : Z) : Z := z mod 65536.
Definition u32 (z : Z) : Z := z mod 4294967296.

(** ** The on-disk structures (ZipFileFormat.h) *)

(** Modelled from the spec: ZipFileFormat.h is not among the sources.  Section
    6.1 fixes the layout as the standard PKZIP one with EOCD signature
    0x06054B50; section 3.1 lists the fields. *)
Module CDREnd.
Record t := mk {
  lSignature : Z;
  nDisk : Z;
  nCDRStartDisk : Z;
  numEntriesOnDisk : Z;
  numEntriesTotal : Z;
  lCDRSize : Z;
  lCDROffset : Z;
  nCommentLength : Z
}.
Definition SIGNATURE : Z := 0x06054b50.
Definition sizeof : Z := 22.
Definition read (buf : list byte) (p : Z) : t :=
  {| lSignature := read_u32 buf p;
     nDisk := read_u16 buf (p + 4);
     nCDRStartDisk := read_u16 buf (p + 6);
     numEntriesOnDisk := read_u16 buf (p + 8);
     numEntriesTotal := read_u16 buf (p + 10);
     lCDRSize := read_u32 buf (p + 12);
     lCDROffset := read_u32 buf (p + 16);
     nCommentLength := read_u16 buf (p + 20) |}.
(** [p->lSignature] and [p->nCommentLength] for a record at index [p]. *)
Definition lSignature_at (buf : list byte) (p : Z) : Z := read_u32 buf p.
Definition nCommentLength_at (buf : list byte) (p : Z) : Z := read_u16 buf (p + 20).
Definition zero : t := mk 0 0 0 0 0 0 0 0.
Definition set_lSignature (v : Z) (e : t) : t :=
  mk v (nDisk e) (nCDRStartDisk e) (numEntriesOnDisk e) (numEntriesTotal e)
     (lCDRSize e) (lCDROffset e) (nCommentLength e).
Definition set_nDisk (v : Z) (e : t) : t :=
  mk (lSignature e) v (nCDRStartDisk e) (numEntriesOnDisk e) (numEntriesTotal e)
     (lCDRSize e) (lCDROffset e) (nCommentLength e).
End CDREnd.

(** Modelled from the spec: the size descriptor "sizes + CRC" of section 4.5;
    two descriptors are unequal when one of the three fields differs. *)
Module DataDescriptor.
Record t := mk {
  lCRC32 : Z;
  lSizeCompressed : Z;
  lSizeUncompressed : Z
}.
Definition read (buf : list byte) (p : Z) : t :=
  {| lCRC32 := read_u32 buf p;
     lSizeCompressed := read_u32 buf (p + 4);
     lSizeUncompressed := read_u32 buf (p + 8) |}.
Definition neq (a b : t) : bool :=
  negb ((lCRC32 a =? lCRC32 b) && (lSizeCompressed a =? lSizeCompressed b)
        && (lSizeUncompressed a =? lSizeUncompressed b)).
End DataDescriptor.

(** Modelled from the spec: the PKZIP central directory file header (46 bytes
    before the file name), fields as in section 3.1. *)
Module CDRFileHeader.
Record t := mk {
  lSignature : Z;
  nVersionMadeBy : Z;
  nVersionNeeded : Z;
  nFlags : Z;
  nMethod : Z;
  nLastModTime : Z;
  nLastModDate : Z;
  desc : DataDescriptor.t;
  nFileNameLength : Z;
  nExtraFieldLength : Z;
  nFileCommentLength : Z;
  nDiskNumberStart : Z;
  nAttrInternal : Z;
  lAttrExternal : Z;
  lLocalHeaderOffset : Z
}.
Definition sizeof : Z := 46.
Definition read (buf : list byte) (p : Z) : t :=
  {| lSignature := read_u32 buf p;
     nVersionMadeBy := read_u16 buf (p + 4);
     nVersionNeeded := read_u16 buf (p + 6);
     nFlags := read_u16 buf (p + 8);
     nMethod := read_u16 buf (p + 10);
     nLastModTime := read_u16 buf (p + 12);
     nLastModDate := read_u16 buf (p + 14);
     desc := DataDescriptor.read buf (p + 16);
     nFileNameLength := read_u16 buf (p + 28);
     nExtraFieldLength := read_u16 buf (p + 30);
     nFileCommentLength := read_u16 buf (p + 32);
     nDiskNumberStart := read_u16 buf (p + 34);
     nAttrInternal := read_u16 buf (p + 36);
     lAttrExternal := read_u32 buf (p + 38);
     lLocalHeaderOffset := read_u32 buf (p + 42) |}.
End CDRFileHeader.

(** Modelled from the spec: the PKZIP local file header (30 bytes before the
    file name). *)
Module LocalFileHeader.
Record t := mk {
  lSignature : Z;
  nVersionNeeded : Z;
  nFlags : Z;
  nMethod : Z;
  nLastModTime : Z;
  nLastModDate : Z;
  desc : DataDescriptor.t;
  nFileNameLength : Z;
  nExtraFieldLength : Z
}.
Definition sizeof : Z := 30.
Definition read (buf : list byte) (p : Z) : t :=
  {| lSignature := read_u32 buf p;
     nVersionNeeded := read_u16 buf (p + 4);
     nFlags := read_u16 buf (p + 6);
     nMethod := read_u16 buf (p + 8);
     nLastModTime := read_u16 buf (p + 10);
     nLastModDate := read_u16 buf (p + 12);
     desc := DataDescriptor.read buf (p + 14);
     nFileNameLength := read_u16 buf (p + 26);
     nExtraFieldLength := read_u16 buf (p + 28) |}.
End LocalFileHeader.

(** Modelled from the spec: the extra-field TLV header [headerID(u16),
    dataSize(u16)] of section 4.4. *)
Module ExtraFieldHeader.
Definition sizeof : Z := 4.
Definition headerID (buf : list byte) (p : Z) : Z := read_u16 buf p.
Definition dataSize (buf : list byte) (p : Z) : Z := read_u16 buf (p + 2).
End ExtraFieldHeader.

(** Modelled from the spec: the vendor ExtendedTrailer of section 6.2,
    [{ u16 header_size; u16 encryption_kind; u16 signing_kind; }]. *)
Module CryCustomExtendedHeader.
Record t := mk {
  nHeaderSize : Z;
  nEncryption : Z;
  nSigning : Z
}.
Definition sizeof : Z := 6.
Definition read (buf : list byte) (p : Z) : t :=
  {| nHeaderSize := read_u16 buf p;
     nEncryption := read_u16 buf (p + 2);
     nSigning := read_u16 buf (p + 4) |}.
End CryCustomExtendedHeader.

(** Modelled from the spec: the SignatureTrailer [{ u16 header_size; ... }] of
    section 6.2; the bytes after the self-length stay raw. *)
Module CrySignedCDRHeader.
Definition nHeaderSize (raw : list byte) : Z := read_u16 raw 0.
End CrySignedCDRHeader.

(** ** Directory entries, errors and the environment of the factory *)

(** Modelled from the spec: the FileEntry of section 3.1 (ZipDirStructures.h is
    not among the sources): method, sizes and CRC32, local-header offset, data
    offset, end-of-file offset, last-modify time. *)
Module FileEntryBase.
Record t := mk {
  desc : DataDescriptor.t;
  nMethod : Z;
  nFileHeaderOffset : Z;
  nFileDataOffset : Z;
  nEOFOffset : Z;
  nNTFS_LastModifyTime : Z
}.
Definition set_nFileDataOffset (v : Z) (e : t) : t :=
  mk (desc e) (nMethod e) (nFileHeaderOffset e) v (nEOFOffset e)
     (nNTFS_LastModifyTime e).
Definition set_nEOFOffset (v : Z) (e : t) : t :=
  mk (desc e) (nMethod e) (nFileHeaderOffset e) (nFileDataOffset e) v
     (nNTFS_LastModifyTime e).
End FileEntryBase.

(** The directory tree and the file-entry map, both keyed by the entry's
    path (a C string: the bytes before the first NUL).

    Modelled from the spec: ZipDirTree.h is not among the sources.  Section 3.1
    describes the tree as a hierarchical map from path segments to subtrees or
    file entries, and section 4.7 says an insertion stores the entry at the leaf
    its path names.  A leaf is identified by its whole path, so the tree is kept
    as the finite map from whole paths to leaves. *)
Abbreviation FileEntryTree := (gmap (list byte) FileEntryBase.t).

(** The error codes handed to THROW_ZIPDIR_ERROR in the file. *)
Inductive ErrorEnum :=
| ZD_ERROR_IO_FAILED
| ZD_ERROR_NO_CDR
| ZD_ERROR_DATA_IS_CORRUPT
| ZD_ERROR_UNSUPPORTED
| ZD_ERROR_CDR_IS_CORRUPT
| ZD_ERROR_NO_MEMORY
| ZD_ERROR_CORRUPTED_DATA
| ZD_ERROR_VALIDATION_FAILED
| ZD_ERROR_ZLIB_NO_MEMORY
| ZD_ERROR_ZLIB_CORRUPTED_DATA
| ZD_ERROR_ZLIB_FAILED
| ZD_ERROR_CRC32_CHECK
| ZD_ERROR_UNEXPECTED.

#[global] Instance ErrorEnum_eq_dec : EqDecision ErrorEnum.
Proof. solve_decision. Defined.

(** The AZ_Warning calls of the file that are not THROW_ZIPDIR_ERROR. *)
Inductive Warning :=
| WarnFileTooSmall
| WarnEncryptedPak
| WarnCdrSignedNotSupported
| WarnUnsupportedSignature.

(** Modelled from the spec: [init_method] is one of default, full, validate
    (section 6.3), in increasing order of checking; the code compares with
    [>= ZD_INIT_FULL] and [>= ZD_INIT_VALIDATE]. *)
Inductive InitMethodEnum := ZD_INIT_DEFAULT | ZD_INIT_FULL | ZD_INIT_VALIDATE.

Definition InitMethod_rank (m : InitMethodEnum) : Z :=
  match m with ZD_INIT_DEFAULT => 0 | ZD_INIT_FULL => 1 | ZD_INIT_VALIDATE => 2 end.

Definition InitMethod_geb (a b : InitMethodEnum) : bool :=
  InitMethod_rank b <=? InitMethod_rank a.

(** Modelled from the spec: the flags of section 4.8, one boolean per bit of
    [m_nFlags] (the bit values are declared in a header that is not among the
    sources). *)
Record FactoryFlags := {
  FLAGS_FILENAMES_AS_CRC32 : bool;
  FLAGS_READ_INSIDE_PAK : bool;
  FLAGS_DONT_MEMORIZE_ZIP_PATH : bool;
  FLAGS_DONT_COMPACT : bool;
  FLAGS_READ_ONLY : bool;
  FLAGS_CREATE_NEW : bool
}.

(** Modelled from the spec: "STORE (0)" of section 6.1. *)
Definition METHOD_STORE : Z := 0.

(** zlib's return codes (zlib.h). *)
Definition Z_OK : Z := 0.
Definition Z_DATA_ERROR : Z := -3.
Definition Z_MEM_ERROR : Z := -4.
Definition Z_BUF_ERROR : Z := -5.

(** What the factory takes from headers and libraries that are not among the
    sources: the numeric values of the encryption and signing kinds, the sizes
    of the encryption and signature trailers, the extra-field constants, the
    data offset of an entry that has none yet, the inflater, the CRC and the
    EOF-offset sweep of ZipDirList.  The laws say what the file relies on: the
    kinds the code switches over are distinct, the trailer sizes fit the 16-bit
    comment length, and the sweep rewrites end-of-file offsets only. *)
Class ZipDirEnv := {
  HEADERS_NOT_ENCRYPTED : Z;
  HEADERS_ENCRYPTED_STREAMCIPHER : Z;
  HEADERS_ENCRYPTED_TEA : Z;
  HEADERS_ENCRYPTED_STREAMCIPHER_KEYTABLE : Z;
  HEADERS_NOT_SIGNED : Z;
  HEADERS_CDR_SIGNED : Z;
  sizeof_CryCustomEncryptionHeader : Z;
  sizeof_CrySignedCDRHeader : Z;
  METHOD_STORE_AND_STREAMCIPHER_KEYTABLE : Z;
  EXTRA_NTFS : Z;
  sizeof_ExtraNTFSHeader : Z;
  INVALID_DATA_OFFSET : Z;
  initial_EOFOffset : CDRFileHeader.t -> Z;
  ZipRawUncompress : list byte -> Z -> Z * list byte;
  Crc32 : list byte -> Z;
  RefreshEOFOffsets : FileEntryTree -> Z -> FileEntryTree;
  encryption_kinds_distinct :
    HEADERS_ENCRYPTED_STREAMCIPHER <> HEADERS_NOT_ENCRYPTED /\
    HEADERS_ENCRYPTED_TEA <> HEADERS_NOT_ENCRYPTED /\
    HEADERS_ENCRYPTED_STREAMCIPHER_KEYTABLE <> HEADERS_NOT_ENCRYPTED;
  signing_kinds_distinct : HEADERS_CDR_SIGNED <> HEADERS_NOT_SIGNED;
  trailer_sizes_fit :
    0 < sizeof_CryCustomEncryptionHeader /\ 2 <= sizeof_CrySignedCDRHeader /\
    CryCustomExtendedHeader.sizeof + sizeof_CryCustomEncryptionHeader
      + sizeof_CrySignedCDRHeader < 65536;
  RefreshEOFOffsets_lookup : forall (t : FileEntryTree) (off : Z) (p : list byte),
    FileEntryBase.set_nEOFOffset 0 <$> (RefreshEOFOffsets t off !! p)
    = FileEntryBase.set_nEOFOffset 0 <$> (t !! p)
}.

(** ** The archive file and the factory's state *)

(** Modelled from the spec: the random-access byte stream of section 4.1, a
    size and the byte at each offset below it. *)
Record File := {
  file_size : Z;
  file_byte : Z -> byte
}.

(** The [n] bytes of the file from offset [pos] on. *)
Definition file_read (f : File) (pos n : Z) : list byte :=
  map (fun k => file_byte f (pos + Z.of_nat k)) (seq 0 (Z.to_nat n)).

(** The calls the factory makes on its byte stream, in order. *)
Inductive IoEvent :=
| IoSeekEnd
| IoSeek (nPos : Z)
| IoRead (nPos nSize : Z) (ok : bool).

(** The member variables of [CacheFactory], followed by what the model
    observes of a run: the errors thrown, the warnings and the I/O calls. *)
Record CacheFactory := mkFactory {
  m_nInitMethod : InitMethodEnum;
  m_nFlags : FactoryFlags;
  m_bBuildFileEntryMap : bool;
  m_bBuildFileEntryTree : bool;
  m_bBuildOptimizedFileEntry : bool;
  m_fileHandle : option File;
  m_filePos : Z;
  m_nZipFileSize : Z;
  m_nCDREndPos : Z;
  m_CDREnd : CDREnd.t;
  m_encryptedHeaders : Z;
  m_signedHeaders : Z;
  m_headerExtended : CryCustomExtendedHeader.t;
  m_headerSignature : list byte;
  m_headerEncryption : list byte;
  m_CDR_buffer : list byte;
  m_mapFileEntries : FileEntryTree;
  m_treeFileEntries : FileEntryTree;
  m_errors : list ErrorEnum;
  m_warnings : list Warning;
  m_io : list IoEvent
}.

(** Assignments to single members. *)
Definition set_bBuildFileEntryTree (v : bool) (s : CacheFactory) : CacheFactory :=
  mkFactory (m_nInitMethod s) (m_nFlags s) (m_bBuildFileEntryMap s) v
    (m_bBuildOptimizedFileEntry s) (m_fileHandle s) (m_filePos s)
    (m_nZipFileSize s) (m_nCDREndPos s) (m_CDREnd s) (m_encryptedHeaders s)
    (m_signedHeaders s) (m_headerExtended s) (m_headerSignature s)
    (m_headerEncryption s) (m_CDR_buffer s) (m_mapFileEntries s)
    (m_treeFileEntries s) (m_errors s) (m_warnings s) (m_io s).
Definition set_fileHandle (v : option File) (s : CacheFactory) : CacheFactory :=
  mkFactory (m_nInitMethod s) (m_nFlags s) (m_bBuildFileEntryMap s)
    (m_bBuildFileEntryTree s) (m_bBuildOptimizedFileEntry s) v (m_filePos s)
    (m_nZipFileSize s) (m_nCDREndPos s) (m_CDREnd s) (m_encryptedHeaders s)
    (m_signedHeaders s) (m_headerExtended s) (m_headerSignature s)
    (m_headerEncryption s) (m_CDR_buffer s) (m_mapFileEntries s)
    (m_treeFileEntries s) (m_errors s) (m_warnings s) (m_io s).
Definition set_filePos (v : Z) (s : CacheFactory) : CacheFactory :=
  mkFactory (m_nInitMethod s) (m_nFlags s) (m_bBuildFileEntryMap s)
    (m_bBuildFileEntryTree s) (m_bBuildOptimizedFileEntry s) (m_fileHandle s)
    v (m_nZipFileSize s) (m_nCDREndPos s) (m_CDREnd s) (m_encryptedHeaders s)
    (m_signedHeaders s) (m_headerExtended s) (m_headerSignature s)
    (m_headerEncryption s) (m_CDR_buffer s) (m_mapFileEntries s)
    (m_treeFileEntries s) (m_errors s) (m_warnings s) (m_io s).
Definition set_nZipFileSize (v : Z) (s : CacheFactory) : CacheFactory :=
  mkFactory (m_nInitMethod s) (m_nFlags s) (m_bBuildFileEntryMap s)
    (m_bBuildFileEntryTree s) (m_bBuildOptimizedFileEntry s) (m_fileHandle s)
    (m_filePos s) v (m_nCDREndPos s) (m_CDREnd s) (m_encryptedHeaders s)
    (m_signedHeaders s) (m_headerExtended s) (m_headerSignature s)
    (m_headerEncryption s) (m_CDR_buffer s) (m_mapFileEntries s)
    (m_treeFileEntries s) (m_errors s) (m_warnings s) (m_io s).
Definition set_nCDREndPos (v : Z) (s : CacheFactory) : CacheFactory :=
  mkFactory (m_nInitMethod s) (m_nFlags s) (m_bBuildFileEntryMap s)
    (m_bBuildFileEntryTree s) (m_bBuildOptimizedFileEntry s) (m_fileHandle s)
    (m_filePos s) (m_nZipFileSize s) v (m_CDREnd s) (m_encryptedHeaders s)
    (m_signedHeaders s) (m_headerExtended s) (m_headerSignature s)
    (m_headerEncryption s) (m_CDR_buffer s) (m_mapFileEntries s)
    (m_treeFileEntries s) (m_errors s) (m_warnings s) (m_io s).
Definition set_CDREnd (v : CDREnd.t) (s : CacheFactory) : CacheFactory :=
  mkFactory (m_nInitMethod s) (m_nFlags s) (m_bBuildFileEntryMap s)
    (m_bBuildFileEntryTree s) (m_bBuildOptimizedFileEntry s) (m_fileHandle s)
    (m_filePos s) (m_nZipFileSize s) (m_nCDREndPos s) v (m_encryptedHeaders s)
    (m_signedHeaders s) (m_headerExtended s) (m_headerSignature s)
    (m_headerEncryption s) (m_CDR_buffer s) (m_mapFileEntries s)
    (m_treeFileEntries s) (m_errors s) (m_warnings s) (m_io s).
Definition set_encryptedHeaders (v : Z) (s : CacheFactory) : CacheFactory :=
  mkFactory (m_nInitMethod s) (m_nFlags s) (m_bBuildFileEntryMap s)
    (m_bBuildFileEntryTree s) (m_bBuildOptimizedFileEntry s) (m_fileHandle s)
    (m_filePos s) (m_nZipFileSize s) (m_nCDREndPos s) (m_CDREnd s) v
    (m_signedHeaders s) (m_headerExtended s) (m_headerSignature s)
    (m_headerEncryption s) (m_CDR_buffer s) (m_mapFileEntries s)
    (m_treeFileEntries s) (m_errors s) (m_warnings s) (m_io s).
Definition set_signedHeaders (v : Z) (s : CacheFactory) : CacheFactory :=
  mkFactory (m_nInitMethod s) (m_nFlags s) (m_bBuildFileEntryMap s)
    (m_bBuildFileEntryTree s) (m_bBuildOptimizedFileEntry s) (m_fileHandle s)
    (m_filePos s) (m_nZipFileSize s) (m_nCDREndPos s) (m_CDREnd s)
    (m_encryptedHeaders s) v (m_headerExtended s) (m_headerSignature s)
    (m_headerEncryption s) (m_CDR_buffer s) (m_mapFileEntries s)
    (m_treeFileEntries s) (m_errors s) (m_warnings s) (m_io s).
Definition set_headerExtended (v : CryCustomExtendedHeader.t) (s : CacheFactory) : CacheFactory :=
  mkFactory (m_nInitMethod s) (m_nFlags s) (m_bBuildFileEntryMap s)
    (m_bBuildFileEntryTree s) (m_bBuildOptimizedFileEntry s) (m_fileHandle s)
    (m_filePos s) (m_nZipFileSize s) (m_nCDREndPos s) (m_CDREnd s)
    (m_encryptedHeaders s) (m_signedHeaders s) v (m_headerSignature s)
    (m_headerEncryption s) (m_CDR_buffer s) (m_mapFileEntries s)
    (m_treeFileEntries s) (m_errors s) (m_warnings s) (m_io s).
Definition set_headerSignature (v : list byte) (s : CacheFactory) : CacheFactory :=
  mkFactory (m_nInitMethod s) (m_nFlags s) (m_bBuildFileEntryMap s)
    (m_bBuildFileEntryTree s) (m_bBuildOptimizedFileEntry s) (m_fileHandle s)
    (m_filePos s) (m_nZipFileSize s) (m_nCDREndPos s) (m_CDREnd s)
    (m_encryptedHeaders s) (m_signedHeaders s) (m_headerExtended s) v
    (m_headerEncryption s) (m_CDR_buffer s) (m_mapFileEntries s)
    (m_treeFileEntries s) (m_errors s) (m_warnings s) (m_io s).
Definition set_CDR_buffer (v : list byte) (s : CacheFactory) : CacheFactory :=
  mkFactory (m_nInitMethod s) (m_nFlags s) (m_bBuildFileEntryMap s)
    (m_bBuildFileEntryTree s) (m_bBuildOptimizedFileEntry s) (m_fileHandle s)
    (m_filePos s) (m_nZipFileSize s) (m_nCDREndPos s) (m_CDREnd s)
    (m_encryptedHeaders s) (m_signedHeaders s) (m_headerExtended s)
    (m_headerSignature s) (m_headerEncryption s) v (m_mapFileEntries s)
    (m_treeFileEntries s) (m_errors s) (m_warnings s) (m_io s).
Definition set_mapFileEntries (v : FileEntryTree) (s : CacheFactory) : CacheFactory :=
  mkFactory (m_nInitMethod s) (m_nFlags s) (m_bBuildFileEntryMap s)
    (m_bBuildFileEntryTree s) (m_bBuildOptimizedFileEntry s) (m_fileHandle s)
    (m_filePos s) (m_nZipFileSize s) (m_nCDREndPos s) (m_CDREnd s)
    (m_encryptedHeaders s) (m_signedHeaders s) (m_headerExtended s)
    (m_headerSignature s) (m_headerEncryption s) (m_CDR_buffer s) v
    (m_treeFileEntries s) (m_errors s) (m_warnings s) (m_io s).
Definition set_treeFileEntries (v : FileEntryTree) (s : CacheFactory) : CacheFactory :=
  mkFactory (m_nInitMethod s) (m_nFlags s) (m_bBuildFileEntryMap s)
    (m_bBuildFileEntryTree s) (m_bBuildOptimizedFileEntry s) (m_fileHandle s)
    (m_filePos s) (m_nZipFileSize s) (m_nCDREndPos s) (m_CDREnd s)
    (m_encryptedHeaders s) (m_signedHeaders s) (m_headerExtended s)
    (m_headerSignature s) (m_headerEncryption s) (m_CDR_buffer s)
    (m_mapFileEntries s) v (m_errors s) (m_warnings s) (m_io s).
Definition set_errors (v : list ErrorEnum) (s : CacheFactory) : CacheFactory :=
  mkFactory (m_nInitMethod s) (m_nFlags s) (m_bBuildFileEntryMap s)
    (m_bBuildFileEntryTree s) (m_bBuildOptimizedFileEntry s) (m_fileHandle s)
    (m_filePos s) (m_nZipFileSize s) (m_nCDREndPos s) (m_CDREnd s)
    (m_encryptedHeaders s) (m_signedHeaders s) (m_headerExtended s)
    (m_headerSignature s) (m_headerEncryption s) (m_CDR_buffer s)
    (m_mapFileEntries s) (m_treeFileEntries s) v (m_warnings s) (m_io s).
Definition set_warnings (v : list Warning) (s : CacheFactory) : CacheFactory :=
  mkFactory (m_nInitMethod s) (m_nFlags s) (m_bBuildFileEntryMap s)
    (m_bBuildFileEntryTree s) (m_bBuildOptimizedFileEntry s) (m_fileHandle s)
    (m_filePos s) (m_nZipFileSize s) (m_nCDREndPos s) (m_CDREnd s)
    (m_encryptedHeaders s) (m_signedHeaders s) (m_headerExtended s)
    (m_headerSignature s) (m_headerEncryption s) (m_CDR_buffer s)
    (m_mapFileEntries s) (m_treeFileEntries s) (m_errors s) v (m_io s).
Definition set_io (v : list IoEvent) (s : CacheFactory) : CacheFactory :=
  mkFactory (m_nInitMethod s) (m_nFlags s) (m_bBuildFileEntryMap s)
    (m_bBuildFileEntryTree s) (m_bBuildOptimizedFileEntry s) (m_fileHandle s)
    (m_filePos s) (m_nZipFileSize s) (m_nCDREndPos s) (m_CDREnd s)
    (m_encryptedHeaders s) (m_signedHeaders s) (m_headerExtended s)
    (m_headerSignature s) (m_headerEncryption s) (m_CDR_buffer s)
    (m_mapFileEntries s) (m_treeFileEntries s) (m_errors s) (m_warnings s) v.

(** ** The monad of member functions *)

(** A member function either returns (a value and the factory after the
    call), or stops the program in AZ_Fatal, or accesses memory past the end
    of a buffer: the behaviour of the program is undefined from there on, and
    nothing is said about it but the factory at that point. *)
Inductive Result (A : Type) :=
| Ret (a : A) (s : CacheFactory)
| Fatal (s : CacheFactory)
| Overrun (s : CacheFactory).
Arguments Ret {A} a s.
Arguments Fatal {A} s.
Arguments Overrun {A} s.

Definition M (A : Type) : Type := CacheFactory -> Result A.

Definition ret {A} (a : A) : M A := fun s => Ret a s.

Definition bind {A B} (m : M A) (k : A -> M B) : M B :=
  fun s => match m s with
           | Ret a s' => k a s'
           | Fatal s' => Fatal s'
           | Overrun s' => Overrun s'
           end.

Notation "x <- m ;; k" := (bind m (fun x => k))
  (at level 100, m at next level, right associativity).
Notation "m ;; k" := (bind m (fun _ => k))
  (at level 100, right associativity).

Definition get : M CacheFactory := fun s => Ret s s.
Definition modify (f : CacheFactory -> CacheFactory) : M unit := fun s => Ret tt (f s).

(** Modelled from the spec: THROW_ZIPDIR_ERROR is declared in a header that is
    not among the sources.  Section 9.1: it is "an error-return with logging
    side effect, not a real exception", the logging being "a separate
    observable on the factory"; the [return] that follows it in the source
    is the statement after it here. *)
Definition THROW_ZIPDIR_ERROR (e : ErrorEnum) : M unit :=
  modify (fun s => set_errors (m_errors s ++ [e]) s).

Definition AZ_Warning (w : Warning) : M unit :=
  modify (fun s => set_warnings (m_warnings s ++ [w]) s).

(** Modelled from the spec: AZ_Fatal is "fatal" (sections 4.2 and 8.2, S9):
    the call does not return. *)
Definition AZ_Fatal {A} : M A := fun s => Fatal s.

(** An access past the end of a buffer. *)
Definition buffer_overrun {A} : M A := fun s => Overrun s.

Definition log_io (ev : IoEvent) : M unit :=
  modify (fun s => set_io (m_io s ++ [ev]) s).

(** ** The byte-stream adapter: Seek, Tell, Read *)

(** Modelled from the spec: FSeek, FTell and FRead belong to ZipDirStructures,
    which is not among the sources.  Section 4.1: seek, tell and read over a
    random-access stream, a failure becoming IoFailed.  A seek on an open
    stream succeeds; a read succeeds when the whole block lies inside the file
    and then advances the position; a failed read leaves its destination as it
    was.  Positions and sizes are [uint32_t] parameters. *)
Definition Seek (nPos : Z) : M unit :=
  s <- get ;;
  log_io (IoSeek (u32 nPos)) ;;
  match m_fileHandle s with
  | Some _ => modify (set_filePos (u32 nPos))
  | None => THROW_ZIPDIR_ERROR ZD_ERROR_IO_FAILED
  end.

(** [Seek(0, SEEK_END)] *)
Definition Seek_END : M unit :=
  s <- get ;;
  log_io IoSeekEnd ;;
  match m_fileHandle s with
  | Some f => modify (set_filePos (file_size f))
  | None => THROW_ZIPDIR_ERROR ZD_ERROR_IO_FAILED
  end.

Definition Tell : M Z :=
  s <- get ;;
  match m_fileHandle s with
  | Some _ => ret (m_filePos s)
  | None => THROW_ZIPDIR_ERROR ZD_ERROR_IO_FAILED ;; ret 0
  end.

(** [Read(pDest, nSize)]: the bytes for [pDest] when the read succeeds. *)
Definition Read (nSize : Z) : M (option (list byte)) :=
  s <- get ;;
  let n := u32 nSize in
  match m_fileHandle s with
  | Some f =>
      if (0 <? n) && (m_filePos s + n <=? file_size f) then
        log_io (IoRead (m_filePos s) n true) ;;
        modify (set_filePos (m_filePos s + n)) ;;
        ret (Some (file_read f (m_filePos s) n))
      else
        log_io (IoRead (m_filePos s) n false) ;;
        THROW_ZIPDIR_ERROR ZD_ERROR_IO_FAILED ;;
        ret None
  | None =>
      log_io (IoRead (m_filePos s) n false) ;;
      THROW_ZIPDIR_ERROR ZD_ERROR_IO_FAILED ;;
      ret None
  end.

(** ** FindCDREnd: the backwards scan for the CDREnd record *)

Definition CDRSearchWindowSize : Z := 0x100.

(** [constexpr size_t pakSizeLimit{ 1U << 31 }] *)
Definition pakSizeLimit : Z := Z.shiftl 1 31.

(** The inner loop [while (nScanPos >= nNewBufPos)] over one window.  [pWindow]
    is the index in [pReservedBuffer] the window was read to, so [pEnd] is the
    index [pWindow + nScanPos - nNewBufPos].  The result is the value the
    function returns from inside the loop, if it does, and [nScanPos] after the
    loop.  [n] counts the positions left in the window (the caller passes
    [nScanPos - nNewBufPos + 1]): the guard is false when it reaches 0. *)
Fixpoint FindCDREnd_scan (n : nat) (pReservedBuffer : list byte)
    (pWindow nNewBufPos nFileSize nScanPos : Z) : M (option bool * Z) :=
  match n with
  | O => ret (None, nScanPos)
  | S n' =>
      if nScanPos <? nNewBufPos then ret (None, nScanPos) else
      let pEnd := pWindow + nScanPos - nNewBufPos in
      if CDREnd.lSignature_at pReservedBuffer pEnd =? CDREnd.SIGNATURE then
        if CDREnd.nCommentLength_at pReservedBuffer pEnd
           =? nFileSize - nScanPos - CDREnd.sizeof then
          modify (set_CDREnd (CDREnd.read pReservedBuffer pEnd)) ;;
          modify (set_nCDREndPos nScanPos) ;;
          ret (None, nScanPos)
        else
          THROW_ZIPDIR_ERROR ZD_ERROR_DATA_IS_CORRUPT ;;
          ret (Some false, nScanPos)
      else if nScanPos =? 0 then ret (None, nScanPos)
      else FindCDREnd_scan n' pReservedBuffer pWindow nNewBufPos nFileSize
             (nScanPos - 1)
  end.

(** The outer [while (true)], one window per iteration.  The statement after
    the loop in the source ("the program flow may not have possibly lead
    here", ZD_ERROR_UNEXPECTED) is where the model lands if [fuel] windows were
    not enough; [FindCDREnd] passes enough (see [FindCDREnd_fuel]).  All the
    quantities stay between 0 and [nFileSize], so the [uint32_t] arithmetic
    of the source does not wrap. *)
Fixpoint FindCDREnd_windows (fuel : nat) (pReservedBuffer : list byte)
    (nFileSize nOldBufPos nScanPos : Z) : M bool :=
  match fuel with
  | O => THROW_ZIPDIR_ERROR ZD_ERROR_UNEXPECTED ;; ret false
  | S fuel' =>
      let nNewBufPos0 :=
        if nOldBufPos <=? CDRSearchWindowSize then 0
        else nOldBufPos - CDRSearchWindowSize in
      let pWindow :=
        if nOldBufPos <=? CDRSearchWindowSize
        then CDRSearchWindowSize - (nOldBufPos - 0) else 0 in
      let nNewBufPos :=
        if (nFileSize >? CDREnd.sizeof + 0xFFFF)
           && (nNewBufPos0 <? nFileSize - CDREnd.sizeof - 0xFFFF)
        then nFileSize - CDREnd.sizeof - 0xFFFF else nNewBufPos0 in
      if nNewBufPos >=? nOldBufPos then
        THROW_ZIPDIR_ERROR ZD_ERROR_NO_CDR ;; ret false
      else
        Seek nNewBufPos ;;
        r <- Read (nOldBufPos - nNewBufPos) ;;
        let buf := match r with
                   | Some bytes => buf_write pReservedBuffer pWindow bytes
                   | None => pReservedBuffer
                   end in
        x <- FindCDREnd_scan (Z.to_nat (nScanPos - nNewBufPos + 1)) buf pWindow
               nNewBufPos nFileSize nScanPos ;;
        match fst x with
        | Some b => ret b
        | None =>
            s <- get ;;
            if CDREnd.lSignature (m_CDREnd s) =? CDREnd.SIGNATURE then ret true
            else
              FindCDREnd_windows fuel'
                (buf_write buf CDRSearchWindowSize
                   (buf_slice buf pWindow (CDREnd.sizeof - 1)))
                nFileSize nNewBufPos (snd x)
        end
  end.

(** The scan never looks below [nFileSize - sizeof(CDREnd) - 0xFFFF], so it
    reads at most this many windows, and then one more iteration ends it. *)
Definition FindCDREnd_fuel (nFileSize : Z) : nat :=
  Z.to_nat (Z.min nFileSize (CDREnd.sizeof + 0xFFFF) / CDRSearchWindowSize + 2).

Definition FindCDREnd : M bool :=
  let pReservedBuffer :=
    replicate (Z.to_nat (CDRSearchWindowSize + CDREnd.sizeof - 1)) x00 in
  Seek_END ;;
  nFileSize <- Tell ;;
  (if nFileSize >? pakSizeLimit then AZ_Fatal else ret tt) ;;
  modify (set_nZipFileSize nFileSize) ;;
  if nFileSize <? CDREnd.sizeof then
    AZ_Warning WarnFileTooSmall ;; ret false
  else
    let nOldBufPos := nFileSize in
    let nScanPos := nOldBufPos - CDREnd.sizeof in
    modify (fun s => set_CDREnd (CDREnd.set_lSignature 0 (m_CDREnd s)) s) ;;
    FindCDREnd_windows (FindCDREnd_fuel nFileSize) pReservedBuffer nFileSize
      nOldBufPos nScanPos.

(** ** Per-entry checks: Validate, InitDataOffset, AddFileEntry *)

(** [std::tolower(c, std::locale())] in the classic locale: the letters A to Z
    move to a to z, every other byte stays. *)
Definition tolower (c : byte) : byte :=
  let z := byte_to_Z c in
  if (65 <=? z) && (z <=? 90) then byte_of_Z (z + 32) else c.

(** Modelled from the spec: the canonical path separator is the slash and the
    wrong one the backslash (section 4.4: "filename ending in / or \",
    "replace wrong separator with canonical"; S2 lists the leaf [dir/b.bin]). *)
Definition AZ_CORRECT_FILESYSTEM_SEPARATOR : byte := x2f.
Definition AZ_WRONG_FILESYSTEM_SEPARATOR : byte := x5c.

Definition is_filesystem_separator (c : byte) : bool :=
  bool_decide (c = AZ_CORRECT_FILESYSTEM_SEPARATOR)
  || bool_decide (c = AZ_WRONG_FILESYSTEM_SEPARATOR).

(** The C string that starts a list of bytes, and the one at index [p] of a
    buffer: the bytes before the first NUL. *)
Fixpoint c_str (l : list byte) : list byte :=
  match l with
  | [] => []
  | b :: l' => if bool_decide (b = x00) then [] else b :: c_str l'
  end.

Definition c_str_at (buf : list byte) (p : Z) : list byte :=
  c_str (drop (Z.to_nat p) buf).

(** Modelled from the spec: the [Cache] handle the factory fills (ZipDirCache.h
    is not among the sources), with the members [New] and [ReadCache] assign
    and the three cache flags they set (section 4.8). *)
Module Cache.
Record Flags := mkFlags {
  FLAGS_DONT_COMPACT : bool;
  FLAGS_CDR_DIRTY : bool;
  FLAGS_READ_ONLY : bool
}.
Record t := mk {
  m_strFilePath : list byte;
  m_nFlags : Flags;
  m_fileHandle : option File;
  m_treeDir : FileEntryTree;
  m_CDR_buffer : list byte;
  m_lCDROffset : Z;
  m_encryptedHeaders : Z;
  m_signedHeaders : Z;
  m_headerSignature : list byte;
  m_headerEncryption : list byte;
  m_headerExtended : CryCustomExtendedHeader.t
}.
End Cache.

Section Factory.
Context {env : ZipDirEnv}.

(** Modelled from the spec: the constructor [FileEntryBase(header, extra)] is
    declared in ZipDirStructures.h, which is not among the sources.  The entry
    takes the fields of the CDR record that section 3.1 lists; its data offset
    is not known yet ([INVALID_DATA_OFFSET], the name [Validate] asserts
    against) and its end-of-file offset starts from the environment's
    estimate. *)
Definition FileEntryBase_ctor (header : CDRFileHeader.t) (extra : Z)
  : FileEntryBase.t :=
  {| FileEntryBase.desc := CDRFileHeader.desc header;
     FileEntryBase.nMethod := CDRFileHeader.nMethod header;
     FileEntryBase.nFileHeaderOffset := CDRFileHeader.lLocalHeaderOffset header;
     FileEntryBase.nFileDataOffset := INVALID_DATA_OFFSET;
     FileEntryBase.nEOFOffset := initial_EOFOffset header;
     FileEntryBase.nNTFS_LastModifyTime := extra |}.

(** [Validate(fileEntry)]: reads the entry's data, inflates it (or copies it
    when the method is 0) and compares size and CRC32.

    The function works in one buffer, [pBuffer.resize(lSizeCompressed +
    lSizeUncompressed)]: the two sizes are [uint32_t], so the size of the
    buffer is their sum modulo 2^32.  [Read] gets [pCompressed = &pBuffer[0]]
    for [lSizeCompressed] bytes, and the inflater or [memcpy] gets
    [pUncompressed = &pBuffer[lSizeCompressed]] for [lSizeUncompressed] bytes.
    When the sum wraps, the buffer is shorter than [lSizeCompressed]:
    [pUncompressed] points past its end and the bytes [Read] stores do not
    fit.  The model stops there in [Overrun]. *)
Definition Validate (fileEntry : FileEntryBase.t) : M unit :=
  let lSizeCompressed := DataDescriptor.lSizeCompressed (FileEntryBase.desc fileEntry) in
  let lSizeUncompressed := DataDescriptor.lSizeUncompressed (FileEntryBase.desc fileEntry) in
  (* pBuffer.resize(lSizeCompressed + lSizeUncompressed) *)
  let nBufferSize := u32 (lSizeCompressed + lSizeUncompressed) in
  Seek (FileEntryBase.nFileDataOffset fileEntry) ;;
  (* Read(pCompressed, lSizeCompressed) *)
  r <- Read lSizeCompressed ;;
  if nBufferSize <? lSizeCompressed + lSizeUncompressed then buffer_overrun else
  let pCompressed := match r with
                     | Some bytes => bytes
                     | None => replicate (Z.to_nat lSizeCompressed) x00
                     end in
  let '(nError, pUncompressed) :=
    if negb (FileEntryBase.nMethod fileEntry =? 0)
    then ZipRawUncompress pCompressed lSizeUncompressed
    else (Z_OK, buf_slice (pCompressed ++ replicate (Z.to_nat lSizeUncompressed) x00)
                  0 lSizeUncompressed) in
  if nError =? Z_OK then
    let nDestSize := Z.of_nat (length pUncompressed) in
    if negb (nDestSize =? lSizeUncompressed) then
      THROW_ZIPDIR_ERROR ZD_ERROR_CORRUPTED_DATA
    else if negb (Crc32 pUncompressed
                  =? DataDescriptor.lCRC32 (FileEntryBase.desc fileEntry)) then
      THROW_ZIPDIR_ERROR ZD_ERROR_CRC32_CHECK
    else ret tt
  else if nError =? Z_MEM_ERROR then THROW_ZIPDIR_ERROR ZD_ERROR_ZLIB_NO_MEMORY
  else if nError =? Z_BUF_ERROR then THROW_ZIPDIR_ERROR ZD_ERROR_ZLIB_CORRUPTED_DATA
  else if nError =? Z_DATA_ERROR then THROW_ZIPDIR_ERROR ZD_ERROR_ZLIB_CORRUPTED_DATA
  else THROW_ZIPDIR_ERROR ZD_ERROR_ZLIB_FAILED.

(** The end of [InitDataOffset], common to its two branches: the end-of-file
    offset, the bound on the data offset and the optional validation. *)
Definition InitDataOffset_finish (fileEntry : FileEntryBase.t)
  : M FileEntryBase.t :=
  s <- get ;;
  let fileEntry :=
    FileEntryBase.set_nEOFOffset
      (u32 (FileEntryBase.nFileDataOffset fileEntry
            + DataDescriptor.lSizeCompressed (FileEntryBase.desc fileEntry)))
      fileEntry in
  if FileEntryBase.nFileDataOffset fileEntry >=? m_nCDREndPos s then
    THROW_ZIPDIR_ERROR ZD_ERROR_VALIDATION_FAILED ;; ret fileEntry
  else if InitMethod_geb (m_nInitMethod s) ZD_INIT_VALIDATE then
    Validate fileEntry ;; ret fileEntry
  else ret fileEntry.

(** [InitDataOffset(fileEntry, pFileHeader)].  [pFileHeader] points into the
    CDR buffer, so it is an index into [m_CDR_buffer]; the entry is passed by
    reference in the source and returned here. *)
Definition InitDataOffset (fileEntry : FileEntryBase.t) (pFileHeader : Z)
  : M FileEntryBase.t :=
  s <- get ;;
  let header := CDRFileHeader.read (m_CDR_buffer s) pFileHeader in
  if negb (m_encryptedHeaders s =? HEADERS_NOT_ENCRYPTED) then
    InitDataOffset_finish
      (FileEntryBase.set_nFileDataOffset
         (u32 (CDRFileHeader.lLocalHeaderOffset header + LocalFileHeader.sizeof
               + CDRFileHeader.nFileNameLength header))
         fileEntry)
  else
    Seek (CDRFileHeader.lLocalHeaderOffset header) ;;
    let nBufferLength :=
      u32 (LocalFileHeader.sizeof + CDRFileHeader.nFileNameLength header) in
    r <- Read nBufferLength ;;
    let pBuffer := match r with
                   | Some bytes => bytes
                   | None => replicate (Z.to_nat nBufferLength) x00
                   end in
    let pLocalFileHeader := LocalFileHeader.read pBuffer 0 in
    if DataDescriptor.neq (CDRFileHeader.desc header)
         (LocalFileHeader.desc pLocalFileHeader)
       || negb (CDRFileHeader.nMethod header
                =? LocalFileHeader.nMethod pLocalFileHeader)
       || negb (CDRFileHeader.nFileNameLength header
                =? LocalFileHeader.nFileNameLength pLocalFileHeader)
    then
      THROW_ZIPDIR_ERROR ZD_ERROR_VALIDATION_FAILED ;; ret fileEntry
    else if negb (bool_decide
              (map tolower (buf_slice pBuffer LocalFileHeader.sizeof
                              (CDRFileHeader.nFileNameLength header))
               = map tolower (buf_slice (m_CDR_buffer s)
                                (pFileHeader + CDRFileHeader.sizeof)
                                (CDRFileHeader.nFileNameLength header))))
    then
      THROW_ZIPDIR_ERROR ZD_ERROR_VALIDATION_FAILED ;; ret fileEntry
    else
      InitDataOffset_finish
        (FileEntryBase.set_nFileDataOffset
           (u32 (CDRFileHeader.lLocalHeaderOffset header + LocalFileHeader.sizeof
                 + LocalFileHeader.nFileNameLength pLocalFileHeader
                 + LocalFileHeader.nExtraFieldLength pLocalFileHeader))
           fileEntry).

(** [AddFileEntry(strFilePath, pFileHeader, extra)].  [strFilePath] and
    [pFileHeader] are pointers into the CDR buffer. *)
Definition AddFileEntry (strFilePath pFileHeader : Z) (extra : Z) : M unit :=
  s <- get ;;
  let header := CDRFileHeader.read (m_CDR_buffer s) pFileHeader in
  let desc := CDRFileHeader.desc header in
  if CDRFileHeader.lLocalHeaderOffset header >? CDREnd.lCDROffset (m_CDREnd s) then
    THROW_ZIPDIR_ERROR ZD_ERROR_CDR_IS_CORRUPT
  else if ((CDRFileHeader.nMethod header =? METHOD_STORE)
           || (CDRFileHeader.nMethod header =? METHOD_STORE_AND_STREAMCIPHER_KEYTABLE))
          && negb (DataDescriptor.lSizeUncompressed desc
                   =? DataDescriptor.lSizeCompressed desc) then
    THROW_ZIPDIR_ERROR ZD_ERROR_VALIDATION_FAILED
  else
    fileEntry <-
      (if (negb (m_encryptedHeaders s =? HEADERS_NOT_ENCRYPTED)
           || InitMethod_geb (m_nInitMethod s) ZD_INIT_FULL)
          && negb (DataDescriptor.lSizeCompressed desc =? 0)
       then InitDataOffset (FileEntryBase_ctor header extra) pFileHeader
       else ret (FileEntryBase_ctor header extra)) ;;
    s <- get ;;
    let path := c_str_at (m_CDR_buffer s) strFilePath in
    (if m_bBuildFileEntryMap s then
       modify (fun s => set_mapFileEntries
                 (match m_mapFileEntries s !! path with
                  | Some _ => m_mapFileEntries s
                  | None => <[path := fileEntry]> (m_mapFileEntries s)
                  end) s)
     else ret tt) ;;
    (if m_bBuildFileEntryTree s then
       modify (fun s => set_treeFileEntries
                 (<[path := fileEntry]> (m_treeFileEntries s)) s)
     else ret tt).

(** ** BuildFileEntryMap: the walk over the Central Directory *)

(** [ReadHeaderData(pDest, nSize)]: whether the header data is usable, and the
    bytes [Read] stored at [pDest], if it did. *)
Definition ReadHeaderData (nSize : Z) : M (bool * option (list byte)) :=
  r <- Read nSize ;;
  match r with
  | None => ret (false, None)
  | Some bytes =>
      s <- get ;;
      if negb (m_encryptedHeaders s =? HEADERS_NOT_ENCRYPTED) then
        AZ_Warning WarnEncryptedPak ;; ret (false, r)
      else if m_signedHeaders s =? HEADERS_CDR_SIGNED then
        AZ_Warning WarnCdrSignedNotSupported ;; ret (true, r)
      else if m_signedHeaders s =? HEADERS_NOT_SIGNED then ret (true, r)
      else AZ_Warning WarnUnsupportedSignature ;; ret (false, r)
  end.

(** The "advanced section" loop over the extra fields of one record; the
    result is [extra.nLastModifyTime].  Every round moves [pExtraField] by at
    least the 4 bytes of a field header, which bounds the rounds. *)
Fixpoint BuildFileEntryMap_extra (fuel : nat) (buf : list byte)
    (pExtraField pExtraEnd : Z) (nLastModifyTime : Z) : Z :=
  match fuel with
  | O => nLastModifyTime
  | S fuel' =>
      if pExtraField <? pExtraEnd then
        let pAttrData := pExtraField + ExtraFieldHeader.sizeof in
        BuildFileEntryMap_extra fuel' buf
          (pExtraField + ExtraFieldHeader.sizeof
           + ExtraFieldHeader.dataSize buf pExtraField)
          pExtraEnd
          (if ExtraFieldHeader.headerID buf pExtraField =? EXTRA_NTFS
           then read_u64 buf (pAttrData + sizeof_ExtraNTFSHeader)
           else nLastModifyTime)
      else nLastModifyTime
  end.

(** The name of a file entry as the loop rewrites it in place: lower case,
    the wrong separator replaced. *)
Definition normalize_char (c : byte) : byte :=
  let c' := tolower c in
  if bool_decide (c' = AZ_WRONG_FILESYSTEM_SEPARATOR)
  then AZ_CORRECT_FILESYSTEM_SEPARATOR else c'.

(** The loop [while ((pFileName = pFile + 1) <= pEndOfData)] over
    the records of the CDR buffer; [pFile] and [pEndOfData] are indices into
    [m_CDR_buffer].  A record takes at least the 46 bytes of its header, which
    bounds the rounds: the guard is false when [fuel] reaches 0 (the caller
    passes the buffer's size divided by 46, plus one). *)
Fixpoint BuildFileEntryMap_records (fuel : nat) (pFile pEndOfData : Z) : M bool :=
  match fuel with
  | O => ret true
  | S fuel' =>
      let pFileName := pFile + CDRFileHeader.sizeof in
      if pFileName >? pEndOfData then ret true else
      modify (fun s => set_CDR_buffer
                (buf_write (m_CDR_buffer s) pFile [x00; x00; x00; x00]) s) ;;
      s <- get ;;
      let header := CDRFileHeader.read (m_CDR_buffer s) pFile in
      if Z.land (CDRFileHeader.nVersionNeeded header) 0xFF >? 20 then
        THROW_ZIPDIR_ERROR ZD_ERROR_UNSUPPORTED ;; ret false
      else
        let nFileNameLength := CDRFileHeader.nFileNameLength header in
        let pEndOfRecord :=
          pFileName + nFileNameLength + CDRFileHeader.nExtraFieldLength header
          + CDRFileHeader.nFileCommentLength header in
        if pEndOfRecord >? pEndOfData then
          THROW_ZIPDIR_ERROR ZD_ERROR_CDR_IS_CORRUPT ;; ret false
        else
          let pExtraField := pFileName + nFileNameLength in
          let pExtraEnd := pExtraField + CDRFileHeader.nExtraFieldLength header in
          let extra :=
            BuildFileEntryMap_extra
              (Z.to_nat (CDRFileHeader.nExtraFieldLength header
                         / ExtraFieldHeader.sizeof + 1))
              (m_CDR_buffer s) pExtraField pExtraEnd 0 in
          let bDirectory :=
            (nFileNameLength >? 0)
            && is_filesystem_separator
                 (buf_get (m_CDR_buffer s) (pFileName + nFileNameLength - 1)) in
          (if negb bDirectory then
             let str := pFileName in
             modify (fun s => set_CDR_buffer
                       (buf_write
                          (buf_write (m_CDR_buffer s) str
                             (map normalize_char
                                (buf_slice (m_CDR_buffer s) str nFileNameLength)))
                          (str + nFileNameLength) [x00]) s) ;;
             AddFileEntry str pFile extra
           else ret tt) ;;
          BuildFileEntryMap_records fuel' pEndOfRecord pEndOfData
  end.

Definition BuildFileEntryMap : M bool :=
  s <- get ;;
  let lCDRSize := CDREnd.lCDRSize (m_CDREnd s) in
  Seek (CDREnd.lCDROffset (m_CDREnd s)) ;;
  if lCDRSize =? 0 then ret true else
  modify (fun s => set_CDR_buffer
            (resize (Z.to_nat (u32 (lCDRSize + 16))) x00 (m_CDR_buffer s)) s) ;;
  s <- get ;;
  if bool_decide (m_CDR_buffer s = []) then
    THROW_ZIPDIR_ERROR ZD_ERROR_NO_MEMORY ;; ret false
  else
    r <- ReadHeaderData lCDRSize ;;
    (match snd r with
     | Some bytes =>
         modify (fun s => set_CDR_buffer (buf_write (m_CDR_buffer s) 0 bytes) s)
     | None => ret tt
     end) ;;
    if negb (fst r) then
      THROW_ZIPDIR_ERROR ZD_ERROR_CORRUPTED_DATA ;; ret false
    else
      BuildFileEntryMap_records
        (Z.to_nat (lCDRSize / CDRFileHeader.sizeof + 1)) 0 lCDRSize.

(** ** Prepare: trailer decoding and the checks on the CDREnd record *)

(** Lines 196 to 203: the legacy encryption hint in bits 14 and 15 of
    [nDisk], which is then masked. *)
Definition Prepare_legacy_hint : M unit :=
  s <- get ;;
  let headerEnc := Z.shiftr (Z.land (CDREnd.nDisk (m_CDREnd s)) 0xC000) 14 in
  (if (headerEnc =? HEADERS_ENCRYPTED_TEA)
      || (headerEnc =? HEADERS_ENCRYPTED_STREAMCIPHER)
   then modify (set_encryptedHeaders headerEnc) else ret tt) ;;
  modify (fun s => set_CDREnd
            (CDREnd.set_nDisk (Z.land (CDREnd.nDisk (m_CDREnd s)) 0x3fff)
               (m_CDREnd s)) s).

(** Lines 207 to 280: the custom headers in the comment section.  The result
    is [false] when [Prepare] returns [false] from inside the block.
    [expectedCommentLength] is a [uint16_t]. *)
Definition Prepare_trailer : M bool :=
  s <- get ;;
  if CDREnd.nCommentLength (m_CDREnd s) >=? CryCustomExtendedHeader.sizeof then
    Seek (CDREnd.lCDROffset (m_CDREnd s) + CDREnd.lCDRSize (m_CDREnd s)
          + CDREnd.sizeof) ;;
    r <- Read CryCustomExtendedHeader.sizeof ;;
    (match r with
     | Some bytes => modify (set_headerExtended (CryCustomExtendedHeader.read bytes 0))
     | None => ret tt
     end) ;;
    s <- get ;;
    let ext := m_headerExtended s in
    if negb (CryCustomExtendedHeader.nHeaderSize ext =? CryCustomExtendedHeader.sizeof)
    then THROW_ZIPDIR_ERROR ZD_ERROR_DATA_IS_CORRUPT ;; ret false
    else
      modify (set_signedHeaders (CryCustomExtendedHeader.nSigning ext)) ;;
      let expectedCommentLength := CryCustomExtendedHeader.sizeof in
      if negb (CryCustomExtendedHeader.nEncryption ext =? HEADERS_NOT_ENCRYPTED)
         && negb (m_encryptedHeaders s =? HEADERS_NOT_ENCRYPTED)
      then THROW_ZIPDIR_ERROR ZD_ERROR_DATA_IS_CORRUPT ;; ret false
      else
        modify (set_encryptedHeaders (CryCustomExtendedHeader.nEncryption ext)) ;;
        let after_encryption (expectedCommentLength : Z) : M bool :=
          let after_signing (expectedCommentLength : Z) : M bool :=
            if CDREnd.nCommentLength (m_CDREnd s) =? expectedCommentLength then
              if CryCustomExtendedHeader.nSigning ext =? HEADERS_CDR_SIGNED then
                r <- Read sizeof_CrySignedCDRHeader ;;
                (match r with
                 | Some bytes => modify (set_headerSignature bytes)
                 | None => ret tt
                 end) ;;
                s <- get ;;
                if negb (CrySignedCDRHeader.nHeaderSize (m_headerSignature s)
                         =? sizeof_CrySignedCDRHeader)
                then THROW_ZIPDIR_ERROR ZD_ERROR_DATA_IS_CORRUPT ;; ret false
                else ret true
              else ret true
            else THROW_ZIPDIR_ERROR ZD_ERROR_DATA_IS_CORRUPT ;; ret false in
          if CryCustomExtendedHeader.nSigning ext =? HEADERS_NOT_SIGNED then
            after_signing expectedCommentLength
          else if CryCustomExtendedHeader.nSigning ext =? HEADERS_CDR_SIGNED then
            after_signing (u16 (expectedCommentLength + sizeof_CrySignedCDRHeader))
          else THROW_ZIPDIR_ERROR ZD_ERROR_DATA_IS_CORRUPT ;; ret false in
        if CryCustomExtendedHeader.nEncryption ext =? HEADERS_NOT_ENCRYPTED then
          after_encryption expectedCommentLength
        else if CryCustomExtendedHeader.nEncryption ext
                =? HEADERS_ENCRYPTED_STREAMCIPHER_KEYTABLE then
          after_encryption
            (u16 (expectedCommentLength + sizeof_CryCustomEncryptionHeader))
        else THROW_ZIPDIR_ERROR ZD_ERROR_DATA_IS_CORRUPT ;; ret false
  else ret true.

(** Lines 283 to 300: single volume, and the directory inside the file. *)
Definition Prepare_checks : M bool :=
  s <- get ;;
  let e := m_CDREnd s in
  if negb (CDREnd.nDisk e =? 0) || negb (CDREnd.nCDRStartDisk e =? 0)
     || negb (CDREnd.numEntriesOnDisk e =? CDREnd.numEntriesTotal e) then
    THROW_ZIPDIR_ERROR ZD_ERROR_UNSUPPORTED ;; ret false
  else if (CDREnd.lCDROffset e >? m_nCDREndPos s)
          || (CDREnd.lCDRSize e >? m_nCDREndPos s)
          || (u32 (CDREnd.lCDROffset e + CDREnd.lCDRSize e) >? m_nCDREndPos s) then
    THROW_ZIPDIR_ERROR ZD_ERROR_DATA_IS_CORRUPT ;; ret false
  else ret true.

(** [Prepare()].  The value of [BuildFileEntryMap()] is dropped, as in the
    source ("BuildFileEntryMap(); return true;"). *)
Definition Prepare : M bool :=
  found <- FindCDREnd ;;
  if negb found then ret false else
  Prepare_legacy_hint ;;
  ok <- Prepare_trailer ;;
  if negb ok then ret false else
  ok <- Prepare_checks ;;
  if negb ok then ret false else
  BuildFileEntryMap ;;
  ret true.

(** ** The driver: the constructor, ReadCache and New *)

(** [CacheFactory(nInitMethod, nFlags)].  The members the constructor leaves
    unset ([m_CDREnd], the custom headers, the buffers) start zeroed and
    empty, and no file is open. *)
Definition CacheFactory_ctor (nInitMethod : InitMethodEnum) (nFlags : FactoryFlags)
  : CacheFactory :=
  {| m_nInitMethod := nInitMethod;
     m_nFlags := nFlags;
     m_bBuildFileEntryMap := false;
     m_bBuildFileEntryTree := negb (FLAGS_FILENAMES_AS_CRC32 nFlags);
     m_bBuildOptimizedFileEntry := FLAGS_FILENAMES_AS_CRC32 nFlags;
     m_fileHandle := None;
     m_filePos := 0;
     m_nZipFileSize := 0;
     m_nCDREndPos := 0;
     m_CDREnd := CDREnd.zero;
     m_encryptedHeaders := HEADERS_NOT_ENCRYPTED;
     m_signedHeaders := HEADERS_NOT_SIGNED;
     m_headerExtended := CryCustomExtendedHeader.mk 0 0 0;
     m_headerSignature := [];
     m_headerEncryption := [];
     m_CDR_buffer := [];
     m_mapFileEntries := ∅;
     m_treeFileEntries := ∅;
     m_errors := [];
     m_warnings := [];
     m_io := [] |}.

(** Modelled from the spec: a new [Cache] is empty, with no flag set. *)
Definition Cache_ctor : Cache.t :=
  {| Cache.m_strFilePath := [];
     Cache.m_nFlags := Cache.mkFlags false false false;
     Cache.m_fileHandle := None;
     Cache.m_treeDir := ∅;
     Cache.m_CDR_buffer := [];
     Cache.m_lCDROffset := 0;
     Cache.m_encryptedHeaders := HEADERS_NOT_ENCRYPTED;
     Cache.m_signedHeaders := HEADERS_NOT_SIGNED;
     Cache.m_headerSignature := [];
     Cache.m_headerEncryption := [];
     Cache.m_headerExtended := CryCustomExtendedHeader.mk 0 0 0 |}.

(** [ReadCache(rwCache)]: the value returned, and the cache after the call. *)
Definition ReadCache (rwCache : Cache.t) : M (bool * Cache.t) :=
  modify (set_bBuildFileEntryTree true) ;;
  ok <- Prepare ;;
  if negb ok then ret (false, rwCache) else
  modify (fun s => set_treeFileEntries
            (RefreshEOFOffsets (m_treeFileEntries s)
               (CDREnd.lCDROffset (m_CDREnd s))) s) ;;
  s <- get ;;
  modify (set_treeFileEntries (Cache.m_treeDir rwCache)) ;;
  modify (set_CDR_buffer (Cache.m_CDR_buffer rwCache)) ;;
  ret (true,
       {| Cache.m_strFilePath := Cache.m_strFilePath rwCache;
          Cache.m_nFlags := Cache.m_nFlags rwCache;
          Cache.m_fileHandle := Cache.m_fileHandle rwCache;
          Cache.m_treeDir := m_treeFileEntries s;
          Cache.m_CDR_buffer := m_CDR_buffer s;
          Cache.m_lCDROffset := CDREnd.lCDROffset (m_CDREnd s);
          Cache.m_encryptedHeaders := m_encryptedHeaders s;
          Cache.m_signedHeaders := m_signedHeaders s;
          Cache.m_headerSignature := m_headerSignature s;
          Cache.m_headerEncryption := m_headerEncryption s;
          Cache.m_headerExtended := m_headerExtended s |}).

Definition Cache_set_flags (f : Cache.Flags) (c : Cache.t) : Cache.t :=
  Cache.mk (Cache.m_strFilePath c) f (Cache.m_fileHandle c) (Cache.m_treeDir c)
    (Cache.m_CDR_buffer c) (Cache.m_lCDROffset c) (Cache.m_encryptedHeaders c)
    (Cache.m_signedHeaders c) (Cache.m_headerSignature c)
    (Cache.m_headerEncryption c) (Cache.m_headerExtended c).

Definition Cache_set_fileHandle (h : option File) (c : Cache.t) : Cache.t :=
  Cache.mk (Cache.m_strFilePath c) (Cache.m_nFlags c) h (Cache.m_treeDir c)
    (Cache.m_CDR_buffer c) (Cache.m_lCDROffset c) (Cache.m_encryptedHeaders c)
    (Cache.m_signedHeaders c) (Cache.m_headerSignature c)
    (Cache.m_headerEncryption c) (Cache.m_headerExtended c).

Definition Cache_set_lCDROffset (v : Z) (c : Cache.t) : Cache.t :=
  Cache.mk (Cache.m_strFilePath c) (Cache.m_nFlags c) (Cache.m_fileHandle c)
    (Cache.m_treeDir c) (Cache.m_CDR_buffer c) v (Cache.m_encryptedHeaders c)
    (Cache.m_signedHeaders c) (Cache.m_headerSignature c)
    (Cache.m_headerEncryption c) (Cache.m_headerExtended c).

(** Modelled from the spec: the file system [New] opens files in.  Opening
    for reading or updating gives the file named [szFileName] if there is one;
    opening for writing creates an empty file when the place is writable
    (section 4.8). *)
Record FileSystem := {
  fs_file : option File;
  fs_writable : bool
}.

Definition empty_file : File := {| file_size := 0; file_byte := fun _ => x00 |}.

(** [New(szFileName)]: the cache, or nothing ([return {}]). *)
Definition New (szFileName : list byte) (fs : FileSystem) : M (option Cache.t) :=
  s <- get ;;
  let nFlags := m_nFlags s in
  let pCache :=
    Cache.mk (if FLAGS_DONT_MEMORIZE_ZIP_PATH nFlags then [] else szFileName)
      (Cache.mkFlags (FLAGS_DONT_COMPACT nFlags) false false)
      None ∅ [] 0 (Cache.m_encryptedHeaders Cache_ctor)
      (Cache.m_signedHeaders Cache_ctor) [] [] (CryCustomExtendedHeader.mk 0 0 0) in
  let finish (pCache : Cache.t) : M (option Cache.t) :=
    s <- get ;;
    modify (set_fileHandle None) ;;
    ret (Some (Cache_set_fileHandle (m_fileHandle s) pCache)) in
  if FLAGS_READ_ONLY nFlags then
    modify (set_fileHandle (fs_file fs)) ;;
    modify (set_filePos 0) ;;
    let pCache :=
      Cache_set_flags
        (Cache.mkFlags (Cache.FLAGS_DONT_COMPACT (Cache.m_nFlags pCache)) true true)
        pCache in
    match fs_file fs with
    | None => THROW_ZIPDIR_ERROR ZD_ERROR_IO_FAILED ;; ret None
    | Some _ =>
        r <- ReadCache pCache ;;
        if negb (fst r) then THROW_ZIPDIR_ERROR ZD_ERROR_IO_FAILED ;; ret None
        else finish (snd r)
    end
  else
    modify (set_fileHandle
              (if FLAGS_CREATE_NEW nFlags then None else fs_file fs)) ;;
    modify (set_filePos 0) ;;
    let open_for_writing (pCache : Cache.t) : M (option Cache.t) :=
      modify (set_fileHandle None) ;;
      if fs_writable fs then
        modify (set_fileHandle (Some empty_file)) ;;
        modify (set_filePos 0) ;;
        finish
          (Cache_set_flags
             (Cache.mkFlags (Cache.FLAGS_DONT_COMPACT (Cache.m_nFlags pCache))
                true (Cache.FLAGS_READ_ONLY (Cache.m_nFlags pCache)))
             (Cache_set_lCDROffset 0 pCache))
      else THROW_ZIPDIR_ERROR ZD_ERROR_IO_FAILED ;; ret None in
    s <- get ;;
    match m_fileHandle s with
    | Some _ =>
        Seek_END ;;
        nFileSize <- Tell ;;
        Seek 0 ;;
        if negb (nFileSize =? 0) then
          r <- ReadCache pCache ;;
          if negb (fst r) then THROW_ZIPDIR_ERROR ZD_ERROR_IO_FAILED ;; ret None
          else finish (snd r)
        else open_for_writing pCache
    | None => open_for_writing pCache
    end.

End Factory.

(** * Test archives and assertions *)

(** ** A sample environment and archive builders *)

(** One environment to run the factory in: the kinds numbered 0 to 3 and 0 to
    1, trailer sizes that fit, an inflater that copies its input, a constant
    CRC and a sweep that changes nothing.  The theorems hold for every
    environment; this one is for the examples. *)
#[global] Program Instance sample_env : ZipDirEnv := {|
  HEADERS_NOT_ENCRYPTED := 0;
  HEADERS_ENCRYPTED_STREAMCIPHER := 1;
  HEADERS_ENCRYPTED_TEA := 2;
  HEADERS_ENCRYPTED_STREAMCIPHER_KEYTABLE := 3;
  HEADERS_NOT_SIGNED := 0;
  HEADERS_CDR_SIGNED := 1;
  sizeof_CryCustomEncryptionHeader := 2180;
  sizeof_CrySignedCDRHeader := 132;
  METHOD_STORE_AND_STREAMCIPHER_KEYTABLE := 11;
  EXTRA_NTFS := 10;
  sizeof_ExtraNTFSHeader := 8;
  INVALID_DATA_OFFSET := 0xFFFFFFFF;
  initial_EOFOffset := fun _ => 0;
  ZipRawUncompress := fun compressed _ => (Z_OK, compressed);
  Crc32 := fun _ => 0;
  RefreshEOFOffsets := fun t _ => t
|}.
Next Obligation. lia. Qed.
Next Obligation. lia. Qed.
Next Obligation. unfold CryCustomExtendedHeader.sizeof. lia. Qed.
Next Obligation. reflexivity. Qed.

(** A file with the given bytes, and a file given by a base content with a
    block of bytes laid over it. *)
Definition file_of_list (l : list byte) : File :=
  {| file_size := Z.of_nat (length l); file_byte := fun i => buf_get l i |}.

Definition patch (base : Z -> byte) (pos : Z) (l : list byte) : Z -> byte :=
  fun i => if (pos <=? i) && (i <? pos + Z.of_nat (length l))
           then buf_get l (i - pos) else base i.

(** Little-endian encodings and the three PKZIP records. *)
Definition enc16 (z : Z) : list byte := [byte_of_Z z; byte_of_Z (z / 256)].
Definition enc32 (z : Z) : list byte := enc16 z ++ enc16 (z / 65536).

Definition mk_eocd (nDisk nCDRStartDisk numEntriesOnDisk numEntriesTotal
                    lCDRSize lCDROffset nCommentLength : Z) : list byte :=
  enc32 CDREnd.SIGNATURE ++ enc16 nDisk ++ enc16 nCDRStartDisk
  ++ enc16 numEntriesOnDisk ++ enc16 numEntriesTotal ++ enc32 lCDRSize
  ++ enc32 lCDROffset ++ enc16 nCommentLength.

Definition mk_cdr (nVersionNeeded nMethod lCRC32 lSizeCompressed lSizeUncompressed
                   lLocalHeaderOffset : Z) (name extra : list byte) : list byte :=
  enc32 0x02014b50 ++ enc16 20 ++ enc16 nVersionNeeded ++ enc16 0 ++ enc16 nMethod
  ++ enc16 0 ++ enc16 0 ++ enc32 lCRC32 ++ enc32 lSizeCompressed
  ++ enc32 lSizeUncompressed ++ enc16 (Z.of_nat (length name))
  ++ enc16 (Z.of_nat (length extra)) ++ enc16 0 ++ enc16 0 ++ enc16 0 ++ enc32 0
  ++ enc32 lLocalHeaderOffset ++ name ++ extra.

Definition mk_lfh (nVersionNeeded nMethod lCRC32 lSizeCompressed lSizeUncompressed : Z)
    (name extra : list byte) : list byte :=
  enc32 0x04034b50 ++ enc16 nVersionNeeded ++ enc16 0 ++ enc16 nMethod ++ enc16 0
  ++ enc16 0 ++ enc32 lCRC32 ++ enc32 lSizeCompressed ++ enc32 lSizeUncompressed
  ++ enc16 (Z.of_nat (length name)) ++ enc16 (Z.of_nat (length extra))
  ++ name ++ extra.

Definition read_only_flags : FactoryFlags :=
  {| FLAGS_FILENAMES_AS_CRC32 := false; FLAGS_READ_INSIDE_PAK := false;
     FLAGS_DONT_MEMORIZE_ZIP_PATH := false; FLAGS_DONT_COMPACT := false;
     FLAGS_READ_ONLY := true; FLAGS_CREATE_NEW := false |}.

(** The file system that holds the one file [f]. *)
Definition fs_of (f : File) : FileSystem := {| fs_file := Some f; fs_writable := true |}.

(** [Factory::open] of the spec: a factory is made and [New] is called. *)
Definition Factory_open {env : ZipDirEnv} (nInitMethod : InitMethodEnum)
    (nFlags : FactoryFlags) (fs : FileSystem) : Result (option Cache.t) :=
  New [] fs (CacheFactory_ctor nInitMethod nFlags).

(** The factory when [ReadCache] calls [Prepare] on the file [f] that [New]
    has just opened. *)
Definition open_state (f : File) (s : CacheFactory) : CacheFactory :=
  set_bBuildFileEntryTree true (set_filePos 0 (set_fileHandle (Some f) s)).

(** ** Assertions on member functions *)

(** [returns m s Q]: from [s] the call [m] returns, with a value and a state
    that satisfy [Q]. *)
Definition returns {A} (m : M A) (s : CacheFactory)
    (Q : A -> CacheFactory -> Prop) : Prop :=
  match m s with
  | Ret a s' => Q a s'
  | Fatal _ => False
  | Overrun _ => False
  end.

(** [ensures m s Q]: if the call [m] returns from [s], it does so with a
    value and a state that satisfy [Q]. *)
Definition ensures {A} (m : M A) (s : CacheFactory)
    (Q : A -> CacheFactory -> Prop) : Prop :=
  match m s with
  | Ret a s' => Q a s'
  | Fatal _ => True
  | Overrun _ => True
  end.

(** The state after a [Read] that succeeded, and after one that failed. *)
Definition Read_ok_state (n : Z) (s : CacheFactory) : CacheFactory :=
  set_filePos (m_filePos s + u32 n)
    (set_io (m_io s ++ [IoRead (m_filePos s) (u32 n) true]) s).

Definition Read_failed_state (n : Z) (s : CacheFactory) : CacheFactory :=
  set_errors (m_errors s ++ [ZD_ERROR_IO_FAILED])
    (set_io (m_io s ++ [IoRead (m_filePos s) (u32 n) false]) s).

(** What the locator leaves alone: everything but the file position, the
    CDREnd record and its position, the archive size and the three logs. *)
Definition locator_frame (s : CacheFactory) :=
  (m_nInitMethod s, m_nFlags s, m_bBuildFileEntryMap s, m_bBuildFileEntryTree s,
   m_bBuildOptimizedFileEntry s, m_fileHandle s, m_encryptedHeaders s,
   m_signedHeaders s, m_headerExtended s, m_headerSignature s,
   m_headerEncryption s, m_CDR_buffer s, m_mapFileEntries s, m_treeFileEntries s).

(** The comment length the trailer decoder expects for the kinds the
    extended header declares. *)
Definition expected_comment_length {env : ZipDirEnv}
    (ext : CryCustomExtendedHeader.t) : Z :=
  CryCustomExtendedHeader.sizeof
  + (if CryCustomExtendedHeader.nEncryption ext =? HEADERS_ENCRYPTED_STREAMCIPHER_KEYTABLE
     then sizeof_CryCustomEncryptionHeader else 0)
  + (if CryCustomExtendedHeader.nSigning ext =? HEADERS_CDR_SIGNED
     then sizeof_CrySignedCDRHeader else 0).

(** ** What a run is observed by *)

Definition result_value {A} (r : Result A) : option A :=
  match r with Ret a _ => Some a | Fatal _ | Overrun _ => None end.

Definition result_state {A} (r : Result A) : CacheFactory :=
  match r with Ret _ s => s | Fatal s | Overrun s => s end.

(** The legacy encryption hint of a CDREnd record, the offset [Prepare] seeks
    to for the extended header, and the header the file holds there. *)
Definition legacy_encryption_hint (e : CDREnd.t) : Z :=
  Z.shiftr (Z.land (CDREnd.nDisk e) 0xC000) 14.

Definition trailer_pos (e : CDREnd.t) : Z :=
  u32 (CDREnd.lCDROffset e + CDREnd.lCDRSize e + CDREnd.sizeof).

Definition trailer_of (f : File) (e : CDREnd.t) : CryCustomExtendedHeader.t :=
  CryCustomExtendedHeader.read
    (file_read f (trailer_pos e) CryCustomExtendedHeader.sizeof) 0.

(** What the trailer decoder leaves alone. *)
Definition trailer_frame (s : CacheFactory) :=
  (m_nInitMethod s, m_nFlags s, m_bBuildFileEntryMap s, m_bBuildFileEntryTree s,
   m_bBuildOptimizedFileEntry s, m_fileHandle s, m_nZipFileSize s, m_nCDREndPos s,
   m_CDREnd s, m_headerEncryption s, m_CDR_buffer s, m_mapFileEntries s,
   m_treeFileEntries s, m_warnings s).

(** The CDR file header a pointer into the CDR buffer points to. *)
Definition header_at (s : CacheFactory) (pFileHeader : Z) : CDRFileHeader.t :=
  CDRFileHeader.read (m_CDR_buffer s) pFileHeader.

(** What the per-entry checks leave alone: everything but the file position
    and the logs of errors and I/O calls. *)
Definition validator_frame (s : CacheFactory) :=
  (m_nInitMethod s, m_nFlags s, m_bBuildFileEntryMap s, m_bBuildFileEntryTree s,
   m_bBuildOptimizedFileEntry s, m_fileHandle s, m_nZipFileSize s, m_nCDREndPos s,
   m_CDREnd s, m_encryptedHeaders s, m_signedHeaders s, m_headerExtended s,
   m_headerSignature s, m_headerEncryption s, m_CDR_buffer s, m_mapFileEntries s,
   m_treeFileEntries s, m_warnings s).

(** What the walk over the directory leaves alone. *)
Definition walk_frame (s : CacheFactory) :=
  (m_nInitMethod s, m_nFlags s, m_bBuildFileEntryMap s, m_bBuildFileEntryTree s,
   m_bBuildOptimizedFileEntry s, m_fileHandle s, m_nZipFileSize s, m_nCDREndPos s,
   m_CDREnd s, m_encryptedHeaders s, m_signedHeaders s, m_headerExtended s,
   m_headerSignature s, m_headerEncryption s, m_warnings s).

(** The comparison [InitDataOffset] makes between the CDR record at
    [pFileHeader] and the bytes [pBuffer] read at its local header offset:
    descriptor, method, name length, and the names without regard to case. *)
Definition local_header_matches (s : CacheFactory) (pFileHeader : Z)
    (pBuffer : list byte) : bool :=
  let header := header_at s pFileHeader in
  let pLocalFileHeader := LocalFileHeader.read pBuffer 0 in
  negb (DataDescriptor.neq (CDRFileHeader.desc header)
          (LocalFileHeader.desc pLocalFileHeader)
        || negb (CDRFileHeader.nMethod header
                 =? LocalFileHeader.nMethod pLocalFileHeader)
        || negb (CDRFileHeader.nFileNameLength header
                 =? LocalFileHeader.nFileNameLength pLocalFileHeader))
  && bool_decide
       (map tolower (buf_slice pBuffer LocalFileHeader.sizeof
                       (CDRFileHeader.nFileNameLength header))
        = map tolower (buf_slice (m_CDR_buffer s)
                         (pFileHeader + CDRFileHeader.sizeof)
                         (CDRFileHeader.nFileNameLength header))).

(** Whether [AddFileEntry] passes its two checks on a CDR record. *)
Definition entry_accepted {env : ZipDirEnv} (lCDROffset : Z)
    (header : CDRFileHeader.t) : Prop :=
  CDRFileHeader.lLocalHeaderOffset header <= lCDROffset /\
  (CDRFileHeader.nMethod header = METHOD_STORE
   \/ CDRFileHeader.nMethod header = METHOD_STORE_AND_STREAMCIPHER_KEYTABLE ->
   DataDescriptor.lSizeUncompressed (CDRFileHeader.desc header)
   = DataDescriptor.lSizeCompressed (CDRFileHeader.desc header)).

(** Whether [AddFileEntry] calls [InitDataOffset] for a CDR record. *)
Definition validator_invoked {env : ZipDirEnv} (s : CacheFactory)
    (header : CDRFileHeader.t) : bool :=
  (negb (m_encryptedHeaders s =? HEADERS_NOT_ENCRYPTED)
   || InitMethod_geb (m_nInitMethod s) ZD_INIT_FULL)
  && negb (DataDescriptor.lSizeCompressed (CDRFileHeader.desc header) =? 0).

(** The buffer of [Validate] holds the compressed and the uncompressed bytes
    of an entry: the sum of the two sizes does not wrap. *)
Definition Validate_buffer_fits (desc : DataDescriptor.t) : Prop :=
  DataDescriptor.lSizeCompressed desc + DataDescriptor.lSizeUncompressed desc
  < 4294967296.

(** In the init method [nInitMethod] either [Validate] is never called, or
    its buffer holds the entry. *)
Definition validation_in_bounds (nInitMethod : InitMethodEnum)
    (desc : DataDescriptor.t) : Prop :=
  InitMethod_geb nInitMethod ZD_INIT_VALIDATE = false \/ Validate_buffer_fits desc.

(** ** Archives for the examples *)

(** The factory as [ReadCache] hands it to [Prepare], with the file [f] open
    read-only. *)
Definition factory_on {env : ZipDirEnv} (nInitMethod : InitMethodEnum) (f : File)
  : CacheFactory :=
  open_state f (CacheFactory_ctor nInitMethod read_only_flags).

(** A 65558-byte archive, one byte more than a CDREnd record with the longest
    comment: zeros, with a CDREnd record at offset 21 whose comment length is
    [nCommentLength].  With 65515 the record is consistent with the end of the
    file (65558 - 21 - 22 = 65515). *)
Definition clamped_window_archive (nCommentLength : Z) : File :=
  {| file_size := 65558;
     file_byte := patch (fun _ => x00) 21 (mk_eocd 0 0 0 0 0 0 nCommentLength) |}.

(** A 65558-byte archive with a CDREnd record at offset 1 whose comment length
    field holds 0xFEFF (the end of the file would need 0xFFFF), and the byte
    0xFF at offset 277. *)
Definition stale_byte_archive : File :=
  {| file_size := 65558;
     file_byte := patch (patch (fun _ => x00) 1 (mk_eocd 0 0 0 0 0 0 0xFEFF))
                    277 [xff] |}.

(** "A.TXT", "a.txt", "dir/", "dir/B", "dir/b", "a" and five bytes of data. *)
Definition name_A_TXT : list byte := [x41; x2e; x54; x58; x54].
Definition name_a_txt : list byte := [x61; x2e; x74; x78; x74].
Definition name_dir : list byte := [x64; x69; x72; x2f].
Definition name_dir_B : list byte := [x64; x69; x72; x2f; x42].
Definition name_dir_b : list byte := [x64; x69; x72; x2f; x62].
Definition name_a : list byte := [x61].
Definition data_hello : list byte := [x68; x65; x6c; x6c; x6f].

(** Two stored files with their local headers: A.TXT at offset 0 (5 bytes of
    data) and dir/B at offset 40 (3 bytes of data), whose local header has 4
    bytes of extra field that the directory does not mention. *)
Definition sample_local_A : list byte := mk_lfh 20 0 0 5 5 name_A_TXT [] ++ data_hello.
Definition sample_local_B : list byte :=
  mk_lfh 20 0 0 3 3 name_dir_B [x01; x02; x03; x04] ++ [x01; x02; x03].

(** An archive of the two files, with a directory record dir/ between their
    records in the CDR (at offset 82). *)
Definition sample_cdr : list byte :=
  mk_cdr 20 0 0 5 5 0 name_A_TXT [] ++ mk_cdr 20 0 0 0 0 0 name_dir []
  ++ mk_cdr 20 0 0 3 3 40 name_dir_B [].

Definition sample_archive : list byte :=
  sample_local_A ++ sample_local_B ++ sample_cdr
  ++ mk_eocd 0 0 3 3 (Z.of_nat (length sample_cdr)) 82 0.

(** The same two files, the second CDR record asking for version 21. *)
Definition version_21_cdr : list byte :=
  mk_cdr 20 0 0 5 5 0 name_A_TXT [] ++ mk_cdr 21 0 0 3 3 40 name_dir_B [].

Definition version_21_archive : list byte :=
  sample_local_A ++ sample_local_B ++ version_21_cdr
  ++ mk_eocd 0 0 2 2 (Z.of_nat (length version_21_cdr)) 82 0.

(** The same two files, the local header of A.TXT declaring 6 bytes where the
    directory declares 5. *)
Definition mismatch_archive : list byte :=
  (mk_lfh 20 0 0 6 6 name_A_TXT [] ++ data_hello) ++ sample_local_B ++ sample_cdr
  ++ mk_eocd 0 0 3 3 (Z.of_nat (length sample_cdr)) 82 0.

(** An archive that is its directory only: one record, for an empty file "a"
    whose local header offset is 0, which is where the directory starts. *)
Definition directory_only_cdr : list byte := mk_cdr 20 0 0 0 0 0 name_a [].

Definition directory_only_archive : list byte :=
  directory_only_cdr ++ mk_eocd 0 0 1 1 (Z.of_nat (length directory_only_cdr)) 0 0.




(** The cache [Factory::open] returned, if it returned one. *)
Definition opened (r : Result (option Cache.t)) : option Cache.t :=
  match r with Ret (Some c) _ => Some c | _ => None end.

(** Its leaves: the paths of the directory tree with their entries. *)
Definition opened_leaves (r : Result (option Cache.t))
  : option (list (list byte * FileEntryBase.t)) :=
  option_map (fun c => map_to_list (Cache.m_treeDir c)) (opened r).

(** The CDR offset it holds. *)
Definition opened_lCDROffset (r : Result (option Cache.t)) : option Z :=
  option_map Cache.m_lCDROffset (opened r).

(** What a run of the locator is observed by: the value returned, the errors
    thrown and the position of the CDREnd record. *)
Definition locator_outcome (r : Result bool) : option bool * list ErrorEnum * Z :=
  (result_value r, m_errors (result_state r), m_nCDREndPos (result_state r)).

(** ** What the locator and the walk establish *)

(** The CDREnd record the locator leaves when it returns [true], for an
    archive of [nFileSize] bytes: it has the signature, its comment runs to
    the end of the file, and it lies inside the file. *)
Definition CDREnd_located (nFileSize : Z) (s : CacheFactory) : Prop :=
  CDREnd.lSignature (m_CDREnd s) = CDREnd.SIGNATURE
  /\ CDREnd.nCommentLength (m_CDREnd s)
     = nFileSize - m_nCDREndPos s - CDREnd.sizeof
  /\ 0 <= m_nCDREndPos s <= nFileSize - CDREnd.sizeof.

(** Every entry of the tree has its local header at or before [lCDROffset]. *)
Definition entries_within (t : FileEntryTree) (lCDROffset : Z) : Prop :=
  forall path fe, t !! path = Some fe ->
    FileEntryBase.nFileHeaderOffset fe <= lCDROffset.

(** ** The records of a Central Directory *)


Definition record_is_directory (buf : list byte) (p : Z) : bool :=
  (CDRFileHeader.nFileNameLength (CDRFileHeader.read buf p) >? 0)
  && is_filesystem_separator
       (buf_get buf (p + CDRFileHeader.sizeof
                     + CDRFileHeader.nFileNameLength (CDRFileHeader.read buf p) - 1)).

Definition record_path (buf : list byte) (p : Z) : list byte :=
  c_str (map normalize_char
           (buf_slice buf (p + CDRFileHeader.sizeof)
              (CDRFileHeader.nFileNameLength (CDRFileHeader.read buf p)))).


(** Its file records and its directory records. *)
Definition CDR_files (buf : list byte) (records : list Z) : list Z :=
  filter (fun p => record_is_directory buf p = false) records.


(** The two checks of [AddFileEntry] can be decided. *)
#[global] Instance entry_accepted_dec {env : ZipDirEnv} (lCDROffset : Z)
    (header : CDRFileHeader.t) : Decision (entry_accepted lCDROffset header).
Proof. unfold entry_accepted. apply _. Defined.




(** Two buffers of one length that agree from index [q] on. *)
Definition agree_from (q : Z) (b1 b2 : list byte) : Prop :=
  length b1 = length b2 /\ forall i, q <= i -> buf_get b1 i = buf_get b2 i.



(** ** Files and states for the examples *)

(** A file of 2^31 + 1 zero bytes. *)
Definition oversize_file : File :=
  {| file_size := pakSizeLimit + 1; file_byte := fun _ => x00 |}.

(** An empty archive whose comment is an extended header that declares
    neither encryption nor signing. *)
Definition trailer_archive : list byte :=
  mk_eocd 0 0 0 0 0 0 6 ++ enc16 6 ++ enc16 0 ++ enc16 0.

(** The same with TEA in bits 14 and 15 of the disk number and the
    streamcipher-keytable kind in the extended header. *)
Definition conflicting_archive : list byte :=
  mk_eocd 0x8000 0 0 0 0 0 6 ++ enc16 6 ++ enc16 3 ++ enc16 0.

(** An empty archive that says it is disk 1. *)
Definition multivolume_archive : list byte := mk_eocd 1 0 0 0 0 0 0.

(** The factory after the locator has run on an archive, and the same with
    the bytes [cdr] in the CDR buffer. *)
Definition located (nInitMethod : InitMethodEnum) (archive : list byte) : CacheFactory :=
  result_state (FindCDREnd (factory_on nInitMethod (file_of_list archive))).

Definition loaded (nInitMethod : InitMethodEnum) (archive cdr : list byte)
  : CacheFactory :=
  set_CDR_buffer cdr (located nInitMethod archive).

(** The factory on the sample archive with the CDREnd record of the archive
    in [m_CDREnd], as [BuildFileEntryMap] finds it. *)
Definition sample_prepared : CacheFactory :=
  set_CDREnd (CDREnd.read sample_archive 234)
    (factory_on ZD_INIT_DEFAULT (file_of_list sample_archive)).

(** ** Normalised paths, and GetFilePath *)

Definition is_upper (c : byte) : bool :=
  (65 <=? byte_to_Z c) && (byte_to_Z c <=? 90).

(** A path as the walk files it: no NUL, no wrong separator, no upper-case
    letter. *)
Definition normalized_path (path : list byte) : Prop :=
  Forall (fun c => c <> x00 /\ c <> AZ_WRONG_FILESYSTEM_SEPARATOR
                   /\ is_upper c = false) path.

Definition paths_normalized (t : FileEntryTree) : Prop :=
  forall path fe, t !! path = Some fe -> normalized_path path.

(** [GetFilePath(pFileName, nFileNameLength)].  The function fills the static
    buffer [strResult] (AZ_MAX_PATH_LEN bytes; the constant is declared in
    SystemFile.h, which is not among the sources, so the buffer is a parameter
    here) and returns a pointer to it: the result is the buffer after the
    call, and the string returned is its C string. *)
Definition GetFilePath (strResult : list byte) (pFileName : list byte)
    (nFileNameLength : Z) : list byte :=
  let strResult := buf_write strResult 0 (buf_slice pFileName 0 nFileNameLength) in
  let strResult := buf_write strResult nFileNameLength [x00] in
  buf_write strResult 0 (map tolower (buf_slice strResult 0 nFileNameLength)).

(** ** What the locator finds *)

(** The CDREnd record the file holds at offset [p], and whether it has the
    signature. *)
Definition record_at (f : File) (p : Z) : CDREnd.t :=
  CDREnd.read (file_read f p CDREnd.sizeof) 0.

Definition signature_at (f : File) (p : Z) : bool :=
  CDREnd.lSignature (record_at f p) =? CDREnd.SIGNATURE.

(** The highest of the [n] offsets p, p - 1, ... that holds the signature. *)
Fixpoint last_signature (n : nat) (f : File) (p : Z) : option Z :=
  match n with
  | O => None
  | S n' => if signature_at f p then Some p else last_signature n' f (p - 1)
  end.

(** The outcome of the locator when [found] is the offset it decides on. *)
Definition locator_decides (f : File) (found : option Z) (s : CacheFactory)
    (b : bool) (s' : CacheFactory) : Prop :=
  match found with
  | None => b = false /\ m_errors s' = m_errors s ++ [ZD_ERROR_NO_CDR]
  | Some p =>
      if CDREnd.nCommentLength (record_at f p) =? file_size f - p - CDREnd.sizeof
      then b = true /\ m_nCDREndPos s' = p /\ m_CDREnd s' = record_at f p
           /\ m_errors s' = m_errors s
      else b = false /\ m_errors s' = m_errors s ++ [ZD_ERROR_DATA_IS_CORRUPT]
  end.

(** ** Inputs for the further examples *)

(** The flags of a factory that creates a new archive. *)
Definition create_flags : FactoryFlags :=
  {| FLAGS_FILENAMES_AS_CRC32 := false; FLAGS_READ_INSIDE_PAK := false;
     FLAGS_DONT_MEMORIZE_ZIP_PATH := false; FLAGS_DONT_COMPACT := false;
     FLAGS_READ_ONLY := false; FLAGS_CREATE_NEW := true |}.

(** A place with no file at which one can be created. *)
Definition writable_place : FileSystem := {| fs_file := None; fs_writable := true |}.

(** A directory record for a stored file that declares 5 compressed and 6
    uncompressed bytes. *)
Definition store_mismatch_cdr : list byte := mk_cdr 20 0 0 5 6 0 name_A_TXT [].

(** The entry of A.TXT in the sample archive once its data offset is known:
    5 stored bytes at offset 35. *)
Definition entry_A_TXT : FileEntryBase.t :=
  FileEntryBase.mk (DataDescriptor.mk 0 5 5) 0 0 35 0 0.

(** An empty archive whose comment is an extended header that declares the
    keytable encryption and CDR signing, followed by zeros for the two
    headers (2180 and 132 bytes in the sample environment). *)
Definition signed_keytable_archive : list byte :=
  mk_eocd 0 0 0 0 0 0 2318 ++ enc16 6 ++ enc16 3 ++ enc16 1 ++ repeat x00 2312.

(** Whether [New] returned a cache. *)
Definition New_succeeded (r : Result (option Cache.t)) : bool :=
  match r with Ret (Some _) _ => true | _ => false end.

(** A deflated entry at the data of A.TXT whose two sizes, 3 and 2^32 - 3,
    add up to 2^32. *)
Definition entry_wrapping : FileEntryBase.t :=
  FileEntryBase.mk (DataDescriptor.mk 0 3 4294967293) 8 0 35 0 0.

(** * Proofs *)

(** ** Tactics and basic facts *)

(** Unfolds the monad's operations and reduces member reads of assigned
    states. *)
Ltac msimpl :=
  unfold THROW_ZIPDIR_ERROR, AZ_Warning, AZ_Fatal, buffer_overrun, log_io in *;
  unfold bind, ret, get, modify in *;
  cbn beta iota delta [
       m_nInitMethod m_nFlags m_bBuildFileEntryMap m_bBuildFileEntryTree
       m_bBuildOptimizedFileEntry m_fileHandle m_filePos m_nZipFileSize
       m_nCDREndPos m_CDREnd m_encryptedHeaders m_signedHeaders m_headerExtended
       m_headerSignature m_headerEncryption m_CDR_buffer m_mapFileEntries
       m_treeFileEntries m_errors m_warnings m_io
       set_bBuildFileEntryTree set_fileHandle set_filePos set_nZipFileSize
       set_nCDREndPos set_CDREnd set_encryptedHeaders set_signedHeaders
       set_headerExtended set_headerSignature set_CDR_buffer set_mapFileEntries
       set_treeFileEntries set_errors set_warnings set_io fst snd] in *.

Ltac destruct_state s :=
  destruct s as [?a1 ?a2 ?a3 ?a4 ?a5 ?hnd ?pos ?a8 ?a9 ?E ?enc ?sg ?ext ?hs ?he
                 ?buf ?mp ?tr ?errs ?w ?io].

Ltac bool_to_prop :=
  repeat match goal with
  | H : (_ =? _) = true |- _ => apply Z.eqb_eq in H
  | H : (_ =? _) = false |- _ => apply Z.eqb_neq in H
  | H : (_ <? _) = true |- _ => apply Z.ltb_lt in H
  | H : (_ <? _) = false |- _ => apply Z.ltb_ge in H
  | H : (_ <=? _) = true |- _ => apply Z.leb_le in H
  | H : (_ <=? _) = false |- _ => apply Z.leb_gt in H
  | H : (_ >? _) = true |- _ => rewrite Z.gtb_ltb in H; apply Z.ltb_lt in H
  | H : (_ >? _) = false |- _ => rewrite Z.gtb_ltb in H; apply Z.ltb_ge in H
  | H : (_ >=? _) = true |- _ => apply Z.geb_le in H
  | H : (_ >=? _) = false |- _ => rewrite Z.geb_leb in H; apply Z.leb_gt in H
  | H : negb _ = true |- _ => apply negb_true_iff in H
  | H : negb _ = false |- _ => apply negb_false_iff in H
  | H : _ && _ = true |- _ => apply andb_true_iff in H; destruct H
  | H : _ || _ = false |- _ => apply orb_false_iff in H; destruct H
  end.

Lemma byte_to_Z_range b : 0 <= byte_to_Z b < 256.
Proof. unfold byte_to_Z. pose proof (Byte.to_N_bounded b). lia. Qed.

Lemma read_u16_range buf i : 0 <= read_u16 buf i < 65536.
Proof.
  unfold read_u16.
  pose proof (byte_to_Z_range (buf_get buf i)).
  pose proof (byte_to_Z_range (buf_get buf (i + 1))). lia.
Qed.

Lemma read_u32_range buf i : 0 <= read_u32 buf i < 4294967296.
Proof.
  unfold read_u32.
  pose proof (read_u16_range buf i). pose proof (read_u16_range buf (i + 2)). lia.
Qed.

Lemma u16_small z : 0 <= z < 65536 -> u16 z = z.
Proof. intros. unfold u16. apply Z.mod_small. lia. Qed.

Lemma u32_small z : 0 <= z < 4294967296 -> u32 z = z.
Proof. intros. unfold u32. apply Z.mod_small. lia. Qed.

Lemma returns_ret {A} (a : A) s (Q : A -> CacheFactory -> Prop) :
  Q a s -> returns (ret a) s Q.
Proof. exact (fun H => H). Qed.

Lemma returns_bind {A B} (m : M A) (k : A -> M B) s Q :
  returns m s (fun a s' => returns (k a) s' Q) -> returns (bind m k) s Q.
Proof. unfold returns, bind. destruct (m s); auto. Qed.

Lemma returns_mono {A} (m : M A) s (Q Q' : A -> CacheFactory -> Prop) :
  returns m s Q -> (forall a s', Q a s' -> Q' a s') -> returns m s Q'.
Proof. unfold returns. destruct (m s); auto. Qed.

Lemma returns_inv {A} (m : M A) s Q :
  returns m s Q -> exists a s', m s = Ret a s' /\ Q a s'.
Proof. unfold returns. destruct (m s); [eauto | tauto..]. Qed.

Lemma returns_eq {A} (m : M A) s a s' (Q : A -> CacheFactory -> Prop) :
  m s = Ret a s' -> returns m s Q -> Q a s'.
Proof. unfold returns. intros ->. auto. Qed.

Lemma ensures_ret {A} (a : A) s (Q : A -> CacheFactory -> Prop) :
  Q a s -> ensures (ret a) s Q.
Proof. exact (fun H => H). Qed.

Lemma ensures_bind {A B} (m : M A) (k : A -> M B) s Q :
  ensures m s (fun a s' => ensures (k a) s' Q) -> ensures (bind m k) s Q.
Proof. unfold ensures, bind. destruct (m s); auto. Qed.

Lemma ensures_mono {A} (m : M A) s (Q Q' : A -> CacheFactory -> Prop) :
  ensures m s Q -> (forall a s', Q a s' -> Q' a s') -> ensures m s Q'.
Proof. unfold ensures. destruct (m s); auto. Qed.

Lemma ensures_eq {A} (m : M A) s a s' (Q : A -> CacheFactory -> Prop) :
  m s = Ret a s' -> ensures m s Q -> Q a s'.
Proof. unfold ensures. intros ->. auto. Qed.

(** A call that returns does so as it ensures. *)
Lemma returns_ensures {A} (m : M A) s (Q : A -> CacheFactory -> Prop) :
  returns m s Q -> ensures m s Q.
Proof. unfold returns, ensures. destruct (m s); tauto. Qed.

Lemma returns_and_ensures {A} (m : M A) s (Q Q' : A -> CacheFactory -> Prop) :
  returns m s Q -> ensures m s Q' -> returns m s (fun a s' => Q a s' /\ Q' a s').
Proof. unfold returns, ensures. destruct (m s); tauto. Qed.

(** ** The byte-stream adapter *)

Lemma Seek_eq nPos s :
  Seek nPos s =
  Ret tt (match m_fileHandle s with
          | Some _ => set_filePos (u32 nPos) (set_io (m_io s ++ [IoSeek (u32 nPos)]) s)
          | None => set_errors (m_errors s ++ [ZD_ERROR_IO_FAILED])
                      (set_io (m_io s ++ [IoSeek (u32 nPos)]) s)
          end).
Proof. unfold Seek. msimpl. destruct (m_fileHandle s); reflexivity. Qed.

Lemma Read_cases n s :
  (exists f, m_fileHandle s = Some f /\ 0 < u32 n /\ m_filePos s + u32 n <= file_size f /\
     Read n s = Ret (Some (file_read f (m_filePos s) (u32 n))) (Read_ok_state n s))
  \/ Read n s = Ret None (Read_failed_state n s).
Proof.
  unfold Read, Read_ok_state, Read_failed_state. msimpl.
  destruct (m_fileHandle s) as [f|]; [|right; reflexivity].
  destruct ((0 <? u32 n) && (m_filePos s + u32 n <=? file_size f)) eqn:E.
  - left. exists f. bool_to_prop. repeat split; lia.
  - right. reflexivity.
Qed.

Lemma Read_in_range n s f :
  m_fileHandle s = Some f -> 0 < u32 n -> m_filePos s + u32 n <= file_size f ->
  Read n s = Ret (Some (file_read f (m_filePos s) (u32 n))) (Read_ok_state n s).
Proof.
  intros Hf H1 H2. unfold Read, Read_ok_state. msimpl. rewrite Hf.
  destruct ((0 <? u32 n) && (m_filePos s + u32 n <=? file_size f)) eqn:E; [reflexivity|].
  apply andb_false_iff in E. lia.
Qed.

Lemma Seek_returns nPos s :
  returns (Seek nPos) s (fun _ s' =>
    m_io s' = m_io s ++ [IoSeek (u32 nPos)] /\ m_warnings s' = m_warnings s
    /\ locator_frame s' = locator_frame s /\ m_CDREnd s' = m_CDREnd s
    /\ m_nCDREndPos s' = m_nCDREndPos s).
Proof.
  unfold returns, Seek. msimpl. destruct (m_fileHandle s); msimpl; auto.
Qed.

Lemma Read_returns nSize s :
  returns (Read nSize) s (fun _ s' =>
    (exists ok, m_io s' = m_io s ++ [IoRead (m_filePos s) (u32 nSize) ok])
    /\ m_warnings s' = m_warnings s
    /\ locator_frame s' = locator_frame s /\ m_CDREnd s' = m_CDREnd s
    /\ m_nCDREndPos s' = m_nCDREndPos s).
Proof.
  unfold returns, Read. msimpl. destruct (m_fileHandle s); msimpl.
  - destruct (_ && _); msimpl; eauto 10.
  - eauto 10.
Qed.

(** ** FindCDREnd: what the scan leaves alone, and the size bounds *)

Lemma FindCDREnd_scan_returns n buf pWindow nNewBufPos nFileSize nScanPos s :
  returns (FindCDREnd_scan n buf pWindow nNewBufPos nFileSize nScanPos) s
    (fun _ s' => m_io s' = m_io s /\ m_warnings s' = m_warnings s
                 /\ m_filePos s' = m_filePos s
                 /\ locator_frame s' = locator_frame s).
Proof.
  revert nScanPos s. induction n as [|n IH]; intros nScanPos s; cbn [FindCDREnd_scan].
  - apply returns_ret. auto.
  - destruct (nScanPos <? nNewBufPos); [apply returns_ret; auto|].
    cbv zeta. destruct (_ =? CDREnd.SIGNATURE).
    + destruct (_ =? _); unfold returns; msimpl; auto.
    + destruct (nScanPos =? 0); [apply returns_ret; auto | apply IH].
Qed.

Lemma FindCDREnd_windows_returns fuel buf nFileSize nOldBufPos nScanPos s :
  returns (FindCDREnd_windows fuel buf nFileSize nOldBufPos nScanPos) s
    (fun _ s' => (exists tail, m_io s' = m_io s ++ tail)
                 /\ m_warnings s' = m_warnings s
                 /\ locator_frame s' = locator_frame s).
Proof.
  revert buf nOldBufPos nScanPos s.
  induction fuel as [|fuel IH]; intros buf nOldBufPos nScanPos s;
    cbn [FindCDREnd_windows].
  - unfold returns. msimpl. split; [exists []; rewrite app_nil_r|]; auto.
  - cbv zeta. destruct (_ >=? nOldBufPos).
    + unfold returns. msimpl. split; [exists []; rewrite app_nil_r|]; auto.
    + apply returns_bind. eapply returns_mono; [apply Seek_returns|].
      intros _ s1 (Hio1 & Hw1 & Hfr1 & _). cbv beta.
      apply returns_bind. eapply returns_mono; [apply Read_returns|].
      intros r s2 ((ok & Hio2) & Hw2 & Hfr2 & _). cbv beta.
      apply returns_bind. eapply returns_mono; [apply FindCDREnd_scan_returns|].
      intros x s3 (Hio3 & Hw3 & _ & Hfr3). cbv beta.
      assert (Hpre : exists tail, m_io s3 = m_io s ++ tail).
      { rewrite Hio3, Hio2, Hio1, <- app_assoc. eauto. }
      assert (Hw : m_warnings s3 = m_warnings s) by congruence.
      assert (Hfr : locator_frame s3 = locator_frame s) by congruence.
      destruct (fst x).
      * apply returns_ret. auto.
      * unfold bind at 1, get at 1. unfold returns at 1. cbv beta iota.
        destruct (_ =? CDREnd.SIGNATURE); [apply returns_ret; auto|].
        eapply returns_mono; [apply IH|].
        intros b s4 ((tl & Hio4) & Hw4 & Hfr4). destruct Hpre as (tl0 & Hpre).
        split; [|split; congruence].
        exists (tl0 ++ tl). rewrite Hio4, Hpre, app_assoc. reflexivity.
Qed.

Lemma FindCDREnd_fuel_pos nFileSize :
  0 <= nFileSize -> exists n, FindCDREnd_fuel nFileSize = S n.
Proof.
  intros H. unfold FindCDREnd_fuel. change 0xFFFF with 65535.
  assert (0 <= Z.min nFileSize (CDREnd.sizeof + 65535) / CDRSearchWindowSize).
  { apply Z.div_pos; [unfold CDREnd.sizeof|unfold CDRSearchWindowSize]; lia. }
  exists (Z.to_nat (Z.min nFileSize (CDREnd.sizeof + 65535) / CDRSearchWindowSize + 1)).
  lia.
Qed.

Lemma FindCDREnd_too_large s f :
  m_fileHandle s = Some f -> pakSizeLimit < file_size f ->
  FindCDREnd s = Fatal (set_filePos (file_size f) (set_io (m_io s ++ [IoSeekEnd]) s)).
Proof.
  intros Hf Hsz. unfold FindCDREnd, Seek_END, Tell. msimpl.
  rewrite Hf. msimpl. rewrite Hf. msimpl.
  destruct (file_size f >? pakSizeLimit) eqn:E; [reflexivity | lia].
Qed.

Lemma FindCDREnd_too_small s f :
  m_fileHandle s = Some f -> file_size f < CDREnd.sizeof ->
  FindCDREnd s =
  Ret false (set_warnings (m_warnings s ++ [WarnFileTooSmall])
               (set_nZipFileSize (file_size f)
                  (set_filePos (file_size f) (set_io (m_io s ++ [IoSeekEnd]) s)))).
Proof.
  intros Hf Hsz. unfold FindCDREnd, Seek_END, Tell. msimpl.
  rewrite Hf. msimpl. rewrite Hf. msimpl.
  assert (file_size f < pakSizeLimit)
    by (unfold CDREnd.sizeof in Hsz; change pakSizeLimit with 2147483648; lia).
  destruct (file_size f >? pakSizeLimit) eqn:E; [lia|].
  destruct (file_size f <? CDREnd.sizeof) eqn:E'; [reflexivity | lia].
Qed.

Lemma FindCDREnd_scans s f :
  m_fileHandle s = Some f ->
  CDREnd.sizeof <= file_size f <= pakSizeLimit ->
  exists b s' tail,
    FindCDREnd s = Ret b s' /\
    m_io s' = m_io s ++ [IoSeekEnd; IoSeek (Z.max 0 (file_size f - CDRSearchWindowSize));
                         IoRead (Z.max 0 (file_size f - CDRSearchWindowSize))
                           (Z.min (file_size f) CDRSearchWindowSize) true] ++ tail /\
    m_warnings s' = m_warnings s.
Proof.
  intros Hf [Hlo Hhi]. unfold FindCDREnd, Seek_END, Tell. msimpl.
  rewrite Hf. msimpl. rewrite Hf. msimpl.
  unfold CDREnd.sizeof in Hlo. change pakSizeLimit with 2147483648 in *.
  destruct (file_size f >? 2147483648) eqn:E; [lia|].
  destruct (file_size f <? CDREnd.sizeof) eqn:E'; [unfold CDREnd.sizeof in E'; lia|].
  destruct (FindCDREnd_fuel_pos (file_size f)) as [n ->]; [lia|].
  set (F := file_size f) in *.
  cbn [FindCDREnd_windows]. cbv zeta.
  set (new0 := if F <=? CDRSearchWindowSize then 0 else F - CDRSearchWindowSize).
  assert (Hnew0 : new0 = Z.max 0 (F - CDRSearchWindowSize)).
  { unfold new0, CDRSearchWindowSize. destruct (F <=? 256) eqn:?; lia. }
  set (new := if (F >? CDREnd.sizeof + 65535) && (new0 <? F - CDREnd.sizeof - 65535)
              then F - CDREnd.sizeof - 65535 else new0).
  assert (Hnew : new = new0).
  { unfold new. destruct (_ && _) eqn:Hc; [|reflexivity].
    apply andb_true_iff in Hc. unfold CDREnd.sizeof, CDRSearchWindowSize in *. lia. }
  rewrite Hnew, Hnew0. clear new Hnew. clear new0 Hnew0.
  unfold CDRSearchWindowSize in *.
  destruct (Z.max 0 (F - 256) >=? F) eqn:Hge; [lia|].
  assert (Hu1 : u32 (Z.max 0 (F - 256)) = Z.max 0 (F - 256)) by (apply u32_small; lia).
  assert (Hu2 : u32 (F - Z.max 0 (F - 256)) = Z.min F 256).
  { rewrite u32_small; lia. }
  unfold Seek, Read. msimpl. rewrite Hf. msimpl. rewrite Hf.
  rewrite Hu1, Hu2.
  destruct ((0 <? Z.min F 256) && (Z.max 0 (F - 256) + Z.min F 256 <=? file_size f)) eqn:Hok.
  2:{ apply andb_false_iff in Hok. fold F in Hok. lia. }
  msimpl.
  match goal with |- context [FindCDREnd_scan ?a ?b ?c ?d ?e ?g ?st] =>
    pose proof (FindCDREnd_scan_returns a b c d e g st) as Hscan;
    unfold returns in Hscan;
    destruct (FindCDREnd_scan a b c d e g st) as [x s3| |]; [|contradiction..]
  end.
  destruct Hscan as (Hio3 & Hw3 & _ & _). msimpl.
  destruct (fst x).
  - exists b, s3, []. rewrite Hio3, Hw3, <- !app_assoc. auto.
  - destruct (_ =? CDREnd.SIGNATURE).
    + exists true, s3, []. rewrite Hio3, Hw3, <- !app_assoc. auto.
    + match goal with |- context [FindCDREnd_windows ?a ?b ?c ?d ?e ?st] =>
        pose proof (FindCDREnd_windows_returns a b c d e st) as Hw;
        unfold returns in Hw;
        destruct (FindCDREnd_windows a b c d e st) as [b4 s4| |]; [|contradiction..]
      end.
      destruct Hw as ((tl & Hio4) & Hw4 & _).
      exists b4, s4, tl. rewrite Hio4, Hio3, Hw4, Hw3, <- !app_assoc. auto.
Qed.

(** ** The driver in read-only mode *)

Section Driver.
Context {env : ZipDirEnv}.

Lemma Prepare_FindCDREnd_false s s' :
  FindCDREnd s = Ret false s' -> Prepare s = Ret false s'.
Proof. intros H. unfold Prepare, bind. rewrite H. reflexivity. Qed.

Lemma Prepare_FindCDREnd_fatal s s' :
  FindCDREnd s = Fatal s' -> Prepare s = Fatal s'.
Proof. intros H. unfold Prepare, bind. rewrite H. reflexivity. Qed.

(** When [Prepare] fails, [ReadCache] fails, and [New] throws its own
    ZD_ERROR_IO_FAILED and returns nothing. *)
Lemma New_read_only_false szFileName fs f s s' :
  FLAGS_READ_ONLY (m_nFlags s) = true -> fs_file fs = Some f ->
  Prepare (open_state f s) = Ret false s' ->
  New szFileName fs s = Ret None (set_errors (m_errors s' ++ [ZD_ERROR_IO_FAILED]) s').
Proof.
  intros Hro Hfs HP.
  destruct s as [a1 a2 a3 a4 a5 hnd pos a8 a9 E enc sg ext hs he buf mp tr errs w io].
  unfold open_state in HP. unfold New, ReadCache. msimpl.
  rewrite Hro, Hfs. msimpl. rewrite HP. reflexivity.
Qed.

Lemma New_read_only_fatal szFileName fs f s s' :
  FLAGS_READ_ONLY (m_nFlags s) = true -> fs_file fs = Some f ->
  Prepare (open_state f s) = Fatal s' ->
  New szFileName fs s = Fatal s'.
Proof.
  intros Hro Hfs HP.
  destruct s as [a1 a2 a3 a4 a5 hnd pos a8 a9 E enc sg ext hs he buf mp tr errs w io].
  unfold open_state in HP. unfold New, ReadCache. msimpl.
  rewrite Hro, Hfs. msimpl. rewrite HP. reflexivity.
Qed.

(** C9. The locator checks the size of the file before it scans: above 2^31
    bytes it stops in AZ_Fatal after the seek to the end, with no window read;
    below sizeof(CDREnd) it warns and returns false, again with no window
    read; from sizeof(CDREnd) up to 2^31 bytes, 2^31 included, it returns and
    its first reads are the seek to and the read of the last window of the
    file.  In read-only mode [New] then stops in AZ_Fatal in the first case and
    returns nothing in the second. *)
Theorem FindCDREnd_size_bounds (s : CacheFactory) (f : File) :
  m_fileHandle s = Some f ->
  (pakSizeLimit < file_size f ->
     FindCDREnd s
     = Fatal (set_filePos (file_size f) (set_io (m_io s ++ [IoSeekEnd]) s))
     /\ forall szFileName fs s0,
          FLAGS_READ_ONLY (m_nFlags s0) = true -> fs_file fs = Some f ->
          s = open_state f s0 ->
          exists s', New szFileName fs s0 = Fatal s' /\ m_io s' = m_io s0 ++ [IoSeekEnd])
  /\ (file_size f < CDREnd.sizeof ->
     FindCDREnd s
     = Ret false (set_warnings (m_warnings s ++ [WarnFileTooSmall])
                   (set_nZipFileSize (file_size f)
                      (set_filePos (file_size f)
                         (set_io (m_io s ++ [IoSeekEnd]) s))))
     /\ forall szFileName fs s0,
          FLAGS_READ_ONLY (m_nFlags s0) = true -> fs_file fs = Some f ->
          s = open_state f s0 ->
          exists s', New szFileName fs s0 = Ret None s'
                     /\ m_io s' = m_io s0 ++ [IoSeekEnd]
                     /\ m_warnings s' = m_warnings s0 ++ [WarnFileTooSmall])
  /\ (CDREnd.sizeof <= file_size f <= pakSizeLimit ->
     exists b s' tail,
       FindCDREnd s = Ret b s' /\
       m_io s' = m_io s
                 ++ [IoSeekEnd;
                     IoSeek (Z.max 0 (file_size f - CDRSearchWindowSize));
                     IoRead (Z.max 0 (file_size f - CDRSearchWindowSize))
                       (Z.min (file_size f) CDRSearchWindowSize) true] ++ tail /\
       m_warnings s' = m_warnings s).
Proof.
  intros Hf. split; [|split].
  - intros Hsz. split; [apply (FindCDREnd_too_large s f Hf Hsz)|].
    intros szFileName fs s0 Hro Hfs ->.
    eexists. split.
    + eapply New_read_only_fatal; eauto.
      apply Prepare_FindCDREnd_fatal, FindCDREnd_too_large; auto.
    + destruct s0. reflexivity.
  - intros Hsz. split; [apply (FindCDREnd_too_small s f Hf Hsz)|].
    intros szFileName fs s0 Hro Hfs ->.
    eexists. split.
    + eapply New_read_only_false; eauto.
      apply Prepare_FindCDREnd_false, FindCDREnd_too_small; auto.
    + destruct s0. split; reflexivity.
  - apply FindCDREnd_scans; auto.
Qed.

End Driver.

(** ** Prepare: the trailer and the checks on the CDREnd record *)

Section PrepareFacts.
Context {env : ZipDirEnv}.

Lemma Prepare_legacy_hint_eq s :
  Prepare_legacy_hint s =
  Ret tt
    (set_CDREnd (CDREnd.set_nDisk (Z.land (CDREnd.nDisk (m_CDREnd s)) 0x3fff) (m_CDREnd s))
       (if (legacy_encryption_hint (m_CDREnd s) =? HEADERS_ENCRYPTED_TEA)
           || (legacy_encryption_hint (m_CDREnd s) =? HEADERS_ENCRYPTED_STREAMCIPHER)
        then set_encryptedHeaders (legacy_encryption_hint (m_CDREnd s)) s else s)).
Proof.
  destruct s. unfold Prepare_legacy_hint, legacy_encryption_hint. msimpl.
  destruct (_ || _); reflexivity.
Qed.

(** The decoder of the custom headers: its result tells whether the comment
    length is the expected one, every failure throws
    ZD_ERROR_DATA_IS_CORRUPT last, and the record of the archive's end, the
    tree and the buffers are not touched. *)
Lemma Prepare_trailer_spec s :
  CryCustomExtendedHeader.sizeof <= CDREnd.nCommentLength (m_CDREnd s) ->
  exists b s',
    Prepare_trailer s = Ret b s' /\
    (b = true -> CDREnd.nCommentLength (m_CDREnd s)
                 = expected_comment_length (m_headerExtended s')) /\
    (b = false -> exists errs, m_errors s' = errs ++ [ZD_ERROR_DATA_IS_CORRUPT]) /\
    (forall f, m_fileHandle s = Some f ->
       trailer_pos (m_CDREnd s) + CryCustomExtendedHeader.sizeof <= file_size f ->
       m_headerExtended s' = trailer_of f (m_CDREnd s)).
Proof.
  intros Hcl.
  pose proof encryption_kinds_distinct as (_ & _ & Hk).
  pose proof signing_kinds_distinct as Hsg.
  pose proof trailer_sizes_fit as (Hs1 & Hs2 & Hs3).
  unfold expected_comment_length, trailer_of, trailer_pos.
  unfold CryCustomExtendedHeader.sizeof in *.
  assert (E1 : u16 (6 + sizeof_CryCustomEncryptionHeader)
               = 6 + sizeof_CryCustomEncryptionHeader) by (apply u16_small; lia).
  assert (E2 : u16 (6 + sizeof_CrySignedCDRHeader)
               = 6 + sizeof_CrySignedCDRHeader) by (apply u16_small; lia).
  assert (E3 : u16 (6 + sizeof_CryCustomEncryptionHeader + sizeof_CrySignedCDRHeader)
               = 6 + sizeof_CryCustomEncryptionHeader + sizeof_CrySignedCDRHeader)
    by (apply u16_small; lia).
  destruct s as [a1 a2 a3 a4 a5 hnd pos a8 a9 E enc sg ext hs he buf mp tr errs w io].
  unfold Prepare_trailer, Seek, Read, CryCustomExtendedHeader.sizeof. msimpl.
  rewrite ?E1, ?E2. rewrite ?E3. clear E1 E2 E3.
  change (u32 6) with 6.
  destruct (CDREnd.nCommentLength E >=? 6) eqn:Hge.
  2:{ bool_to_prop. lia. }
  destruct hnd as [f|]; msimpl.
  all: repeat match goal with
       | |- context [if ?c then _ else _] => destruct c eqn:?; msimpl
       end.
  all: eexists _, _; (split; [reflexivity|]); msimpl.
  all: bool_to_prop.
  all: split; [intros ?; try discriminate
              | split; [intros ?; try discriminate; eauto
                       | intros f' Hf' Hr'; try discriminate; try (injection Hf' as <-);
                         try reflexivity; try lia]].
  all: repeat match goal with
       | |- context [if ?c then _ else _] => destruct c eqn:?
       end; bool_to_prop; try lia; try congruence.
Qed.

Lemma Prepare_trailer_frame s b s' :
  Prepare_trailer s = Ret b s' -> trailer_frame s' = trailer_frame s.
Proof.
  destruct s as [a1 a2 a3 a4 a5 hnd pos a8 a9 E enc sg ext hs he buf mp tr errs w io].
  unfold Prepare_trailer, Seek, Read, trailer_frame. msimpl.
  destruct hnd as [f|]; msimpl.
  all: repeat match goal with
       | |- context [if ?c then _ else _] => destruct c eqn:?; msimpl
       end.
  all: intros [= <- <-]; reflexivity.
Qed.

Lemma Prepare_trailer_short s :
  CDREnd.nCommentLength (m_CDREnd s) < CryCustomExtendedHeader.sizeof ->
  Prepare_trailer s = Ret true s.
Proof.
  intros H. unfold Prepare_trailer. msimpl.
  destruct (_ >=? _) eqn:E; [bool_to_prop; lia | reflexivity].
Qed.

Lemma Prepare_checks_multivolume s :
  CDREnd.nDisk (m_CDREnd s) <> 0 \/ CDREnd.nCDRStartDisk (m_CDREnd s) <> 0
  \/ CDREnd.numEntriesOnDisk (m_CDREnd s) <> CDREnd.numEntriesTotal (m_CDREnd s) ->
  Prepare_checks s = Ret false (set_errors (m_errors s ++ [ZD_ERROR_UNSUPPORTED]) s).
Proof.
  intros H. unfold Prepare_checks. msimpl.
  destruct (_ || _) eqn:E; [reflexivity|].
  bool_to_prop. lia.
Qed.

(** C6. When the comment is at least as long as the extended header, the
    decoding of the custom headers succeeds only if the comment length is
    exactly the size of the extended header, plus the size of the encryption
    header when the encryption kind is streamcipher-keytable, plus the size of
    the signature header when the signing kind is cdr-signed; with any other
    comment length it returns false and the last error thrown is
    ZD_ERROR_DATA_IS_CORRUPT.  The kinds are those of the header the decoder
    holds after its read, which is the one in the file when the file reaches
    that far. *)
Theorem Prepare_trailer_comment_length (s : CacheFactory) :
  CryCustomExtendedHeader.sizeof <= CDREnd.nCommentLength (m_CDREnd s) ->
  exists b s',
    Prepare_trailer s = Ret b s' /\
    (b = true -> CDREnd.nCommentLength (m_CDREnd s)
                 = expected_comment_length (m_headerExtended s')) /\
    (CDREnd.nCommentLength (m_CDREnd s)
     <> expected_comment_length (m_headerExtended s') ->
     b = false /\ exists errs, m_errors s' = errs ++ [ZD_ERROR_DATA_IS_CORRUPT]) /\
    (forall f, m_fileHandle s = Some f ->
       trailer_pos (m_CDREnd s) + CryCustomExtendedHeader.sizeof <= file_size f ->
       m_headerExtended s' = trailer_of f (m_CDREnd s)).
Proof.
  intros Hcl.
  destruct (Prepare_trailer_spec s Hcl) as (b & s' & HP & Ht & Hf & Hfile).
  exists b, s'. split; [exact HP|]. split; [exact Ht|]. split; [|exact Hfile].
  intros Hne. destruct b; [elim Hne; auto|]. split; auto.
Qed.

(** C7. After the locator has found the CDREnd record and the custom headers
    have been accepted, a disk number other than 0 (after the two legacy bits
    are masked off), a start disk other than 0, or different entry counts make
    [Prepare] throw ZD_ERROR_UNSUPPORTED and return false before anything of
    the directory is read, and in read-only mode [New] returns nothing. *)
Theorem Prepare_multivolume (s s1 s2 : CacheFactory) :
  FindCDREnd s = Ret true s1 ->
  (Prepare_legacy_hint ;; Prepare_trailer) s1 = Ret true s2 ->
  Z.land (CDREnd.nDisk (m_CDREnd s1)) 0x3fff <> 0
  \/ CDREnd.nCDRStartDisk (m_CDREnd s1) <> 0
  \/ CDREnd.numEntriesOnDisk (m_CDREnd s1) <> CDREnd.numEntriesTotal (m_CDREnd s1) ->
  Prepare s = Ret false (set_errors (m_errors s2 ++ [ZD_ERROR_UNSUPPORTED]) s2)
  /\ m_treeFileEntries s2 = m_treeFileEntries s1
  /\ m_CDR_buffer s2 = m_CDR_buffer s1
  /\ forall szFileName fs f s0,
       FLAGS_READ_ONLY (m_nFlags s0) = true -> fs_file fs = Some f ->
       s = open_state f s0 ->
       exists s', New szFileName fs s0 = Ret None s'
                  /\ m_errors s' = m_errors s2 ++ [ZD_ERROR_UNSUPPORTED; ZD_ERROR_IO_FAILED].
Proof.
  intros HF HT Hmv.
  unfold bind in HT. rewrite Prepare_legacy_hint_eq in HT.
  set (s1' := set_CDREnd _ _) in HT.
  pose proof (Prepare_trailer_frame _ _ _ HT) as Hfr.
  assert (HE : m_CDREnd s2 = CDREnd.set_nDisk (Z.land (CDREnd.nDisk (m_CDREnd s1)) 0x3fff)
                               (m_CDREnd s1)).
  { assert (m_CDREnd s2 = m_CDREnd s1') by (unfold trailer_frame in Hfr; congruence).
    subst s1'. destruct s1; destruct (_ || _); assumption. }
  assert (HP : Prepare s = Ret false (set_errors (m_errors s2 ++ [ZD_ERROR_UNSUPPORTED]) s2)).
  { unfold Prepare. unfold bind at 1. rewrite HF. cbn [negb].
    unfold bind at 1. rewrite Prepare_legacy_hint_eq. fold s1'.
    unfold bind at 1. rewrite HT. cbn [negb].
    unfold bind at 1. rewrite Prepare_checks_multivolume; [reflexivity|].
    rewrite HE. destruct (m_CDREnd s1). exact Hmv. }
  split; [exact HP|].
  assert (Ht : m_treeFileEntries s2 = m_treeFileEntries s1'
               /\ m_CDR_buffer s2 = m_CDR_buffer s1')
    by (unfold trailer_frame in Hfr; split; congruence).
  split; [|split].
  - destruct Ht as [-> _]. subst s1'. destruct s1; destruct (_ || _); reflexivity.
  - destruct Ht as [_ ->]. subst s1'. destruct s1; destruct (_ || _); reflexivity.
  - intros szFileName fs f s0 Hro Hfs ->.
    eexists. split; [eapply New_read_only_false; eauto|].
    destruct s2. cbn. rewrite <- app_assoc. reflexivity.
Qed.

(** C5. After the locator has found the CDREnd record: when bits 14 and 15 of
    its disk number say TEA or streamcipher, the comment is long enough to hold
    the extended header, and the extended header in the file names an
    encryption kind other than none, [Prepare] throws
    ZD_ERROR_DATA_IS_CORRUPT and returns false with nothing of the directory
    read, and in read-only mode [New] returns nothing. *)
Theorem Prepare_conflicting_encryption (s s1 : CacheFactory) (f : File) :
  FindCDREnd s = Ret true s1 ->
  m_fileHandle s1 = Some f ->
  legacy_encryption_hint (m_CDREnd s1) = HEADERS_ENCRYPTED_TEA
  \/ legacy_encryption_hint (m_CDREnd s1) = HEADERS_ENCRYPTED_STREAMCIPHER ->
  CryCustomExtendedHeader.sizeof <= CDREnd.nCommentLength (m_CDREnd s1) ->
  trailer_pos (m_CDREnd s1) + CryCustomExtendedHeader.sizeof <= file_size f ->
  CryCustomExtendedHeader.nEncryption (trailer_of f (m_CDREnd s1))
  <> HEADERS_NOT_ENCRYPTED ->
  exists s',
    Prepare s = Ret false s'
    /\ m_errors s' = m_errors s1 ++ [ZD_ERROR_DATA_IS_CORRUPT]
    /\ m_treeFileEntries s' = m_treeFileEntries s1
    /\ forall szFileName fs s0,
         FLAGS_READ_ONLY (m_nFlags s0) = true -> fs_file fs = Some f ->
         s = open_state f s0 ->
         exists s'', New szFileName fs s0 = Ret None s''
                     /\ m_errors s'' = m_errors s1
                          ++ [ZD_ERROR_DATA_IS_CORRUPT; ZD_ERROR_IO_FAILED].
Proof.
  intros HF Hf Hhint Hcl Hin Henc.
  pose proof encryption_kinds_distinct as (Hk1 & Hk2 & _).
  assert (HP : exists s', Prepare s = Ret false s'
            /\ m_errors s' = m_errors s1 ++ [ZD_ERROR_DATA_IS_CORRUPT]
            /\ m_treeFileEntries s' = m_treeFileEntries s1).
  { unfold Prepare. unfold bind at 1. rewrite HF. cbn [negb].
    unfold bind at 1. rewrite Prepare_legacy_hint_eq.
    assert (Hh : (legacy_encryption_hint (m_CDREnd s1) =? HEADERS_ENCRYPTED_TEA)
                 || (legacy_encryption_hint (m_CDREnd s1) =? HEADERS_ENCRYPTED_STREAMCIPHER)
                 = true).
    { apply orb_true_iff. destruct Hhint as [-> | ->]; [left|right]; apply Z.eqb_refl. }
    rewrite Hh.
    assert (Hne : legacy_encryption_hint (m_CDREnd s1) <> HEADERS_NOT_ENCRYPTED)
      by (destruct Hhint as [-> | ->]; assumption).
    revert Hne Henc Hin Hcl. unfold trailer_of, trailer_pos.
    generalize (legacy_encryption_hint (m_CDREnd s1)) as hint.
    destruct s1 as [a1 a2 a3 a4 a5 hnd pos a8 a9 E enc sg ext hs he buf mp tr errs w io].
    cbn in Hf. subst hnd. intros hint Hne Henc Hin Hcl.
    unfold Prepare_trailer, Seek, Read, CryCustomExtendedHeader.sizeof in *. msimpl.
    change (u32 6) with 6.
    replace (CDREnd.nCommentLength (CDREnd.set_nDisk (Z.land (CDREnd.nDisk E) 16383) E))
      with (CDREnd.nCommentLength E) by (destruct E; reflexivity).
    replace (CDREnd.lCDROffset (CDREnd.set_nDisk (Z.land (CDREnd.nDisk E) 16383) E))
      with (CDREnd.lCDROffset E) by (destruct E; reflexivity).
    replace (CDREnd.lCDRSize (CDREnd.set_nDisk (Z.land (CDREnd.nDisk E) 16383) E))
      with (CDREnd.lCDRSize E) by (destruct E; reflexivity).
    destruct (CDREnd.nCommentLength E >=? 6) eqn:Hge; [|bool_to_prop; lia].
    msimpl.
    match goal with |- context [(0 <? 6) && ?c] =>
      destruct ((0 <? 6) && c) eqn:Hr;
        [|apply andb_false_iff in Hr; destruct Hr; bool_to_prop; lia]
    end.
    msimpl.
    match goal with |- context [if negb ?c then _ else _] => destruct (negb c) eqn:Hhs end;
      msimpl.
    - eexists. split; [reflexivity|]. split; reflexivity.
    - match goal with |- context [if ?c then _ else _] => destruct c eqn:Hc end; msimpl.
      + eexists. split; [reflexivity|]. split; reflexivity.
      + apply andb_false_iff in Hc. destruct Hc; bool_to_prop; contradiction. }
  destruct HP as (s' & HP & He & Ht). exists s'. repeat split; auto.
  intros szFileName fs s0 Hro Hfs ->.
  eexists. split; [eapply New_read_only_false; eauto|].
  destruct s'. cbn in *. rewrite He, <- app_assoc. reflexivity.
Qed.

End PrepareFacts.

(** ** The per-entry checks *)

Section EntryFacts.
Context {env : ZipDirEnv}.

Lemma u32_ge z : z < 4294967296 -> z <= u32 z.
Proof.
  intros H. unfold u32. destruct (Z.le_gt_cases 0 z) as [H0 | H0].
  - rewrite Z.mod_small; lia.
  - pose proof (Z.mod_pos_bound z 4294967296 ltac:(lia)). lia.
Qed.

Lemma Validate_ensures fileEntry s :
  ensures (Validate fileEntry) s (fun _ s' =>
    validator_frame s' = validator_frame s
    /\ exists p ok,
         m_io s' = m_io s
                   ++ [IoSeek (u32 (FileEntryBase.nFileDataOffset fileEntry));
                       IoRead p
                         (u32 (DataDescriptor.lSizeCompressed
                                 (FileEntryBase.desc fileEntry))) ok]
         /\ (is_Some (m_fileHandle s) ->
             p = u32 (FileEntryBase.nFileDataOffset fileEntry))).
Proof.
  destruct s as [a1 a2 a3 a4 a5 hnd pos a8 a9 E enc sg ext hs he buf mp tr errs w io].
  unfold ensures, Validate, Seek, Read. msimpl.
  destruct hnd as [f|]; msimpl.
  all: repeat match goal with
       | |- context [if ?c then _ else _] => destruct c eqn:?; msimpl
       | |- context [let '(_, _) := ?c in _] => destruct c eqn:?; msimpl
       end.
  all: try exact I.
  all: split; [reflexivity|]; eexists _, _; split; [rewrite <- app_assoc; reflexivity|].
  all: intros [? Hs]; congruence.
Qed.

(** [Validate] returns when its buffer holds the entry. *)
Lemma Validate_total fileEntry s :
  Validate_buffer_fits (FileEntryBase.desc fileEntry) ->
  returns (Validate fileEntry) s (fun _ _ => True).
Proof.
  unfold Validate_buffer_fits. intros Hfit. apply u32_ge in Hfit.
  destruct s as [a1 a2 a3 a4 a5 hnd pos a8 a9 E enc sg ext hs he buf mp tr errs w io].
  unfold returns, Validate, Seek, Read. msimpl.
  destruct hnd as [f|]; msimpl.
  all: repeat match goal with
       | |- context [if ?c then _ else _] => destruct c eqn:?; msimpl
       | |- context [let '(_, _) := ?c in _] => destruct c eqn:?; msimpl
       end.
  all: try exact I.
  all: bool_to_prop; lia.
Qed.

Lemma InitDataOffset_finish_ensures fileEntry s :
  ensures (InitDataOffset_finish fileEntry) s (fun fe' s' =>
    validator_frame s' = validator_frame s
    /\ fe' = FileEntryBase.set_nEOFOffset
               (u32 (FileEntryBase.nFileDataOffset fileEntry
                     + DataDescriptor.lSizeCompressed (FileEntryBase.desc fileEntry)))
               fileEntry
    /\ exists tail, m_io s' = m_io s ++ tail
       /\ (tail = []
           \/ exists p ok,
                tail = [IoSeek (u32 (FileEntryBase.nFileDataOffset fileEntry));
                        IoRead p (u32 (DataDescriptor.lSizeCompressed
                                         (FileEntryBase.desc fileEntry))) ok]
                /\ (is_Some (m_fileHandle s) ->
                    p = u32 (FileEntryBase.nFileDataOffset fileEntry)))
       /\ (InitMethod_geb (m_nInitMethod s) ZD_INIT_VALIDATE = false -> tail = [])).
Proof.
  unfold InitDataOffset_finish. apply ensures_bind. unfold ensures at 1, get.
  cbv zeta.
  destruct (_ >=? m_nCDREndPos s).
  { destruct_state s. unfold ensures. msimpl. split; [reflexivity|]. split; [reflexivity|].
    exists []. rewrite app_nil_r. auto. }
  destruct (InitMethod_geb (m_nInitMethod s) ZD_INIT_VALIDATE) eqn:Hv.
  - apply ensures_bind. eapply ensures_mono; [apply Validate_ensures|].
    intros _ s' (Hfr & p & ok & Hio & Hp). apply ensures_ret.
    split; [exact Hfr|]. split; [reflexivity|].
    destruct fileEntry; cbn in *.
    eexists. split; [exact Hio|]. split; [right; eauto|discriminate].
  - apply ensures_ret. split; [reflexivity|]. split; [reflexivity|].
    exists []. rewrite app_nil_r. auto.
Qed.

Lemma InitDataOffset_finish_total fileEntry s :
  validation_in_bounds (m_nInitMethod s) (FileEntryBase.desc fileEntry) ->
  returns (InitDataOffset_finish fileEntry) s (fun _ _ => True).
Proof.
  intros Hb.
  unfold InitDataOffset_finish. apply returns_bind. unfold returns at 1, get.
  cbv zeta.
  destruct (_ >=? m_nCDREndPos s).
  { destruct_state s. unfold returns. msimpl. exact I. }
  destruct (InitMethod_geb (m_nInitMethod s) ZD_INIT_VALIDATE) eqn:Hv.
  - apply returns_bind. eapply returns_mono.
    + apply Validate_total. destruct Hb as [Hb | Hb]; [congruence|].
      destruct fileEntry. exact Hb.
    + intros u s' _. exact I.
  - exact I.
Qed.

(** Under that bound [InitDataOffset_finish] returns. *)
Lemma InitDataOffset_finish_returns fileEntry s :
  validation_in_bounds (m_nInitMethod s) (FileEntryBase.desc fileEntry) ->
  returns (InitDataOffset_finish fileEntry) s (fun fe' s' =>
    validator_frame s' = validator_frame s
    /\ fe' = FileEntryBase.set_nEOFOffset
               (u32 (FileEntryBase.nFileDataOffset fileEntry
                     + DataDescriptor.lSizeCompressed (FileEntryBase.desc fileEntry)))
               fileEntry
    /\ exists tail, m_io s' = m_io s ++ tail
       /\ (tail = []
           \/ exists p ok,
                tail = [IoSeek (u32 (FileEntryBase.nFileDataOffset fileEntry));
                        IoRead p (u32 (DataDescriptor.lSizeCompressed
                                         (FileEntryBase.desc fileEntry))) ok]
                /\ (is_Some (m_fileHandle s) ->
                    p = u32 (FileEntryBase.nFileDataOffset fileEntry)))
       /\ (InitMethod_geb (m_nInitMethod s) ZD_INIT_VALIDATE = false -> tail = [])).
Proof.
  intros Hb. eapply returns_mono.
  - exact (returns_and_ensures _ _ _ _ (InitDataOffset_finish_total _ _ Hb)
             (InitDataOffset_finish_ensures fileEntry s)).
  - intros fe' s' [_ H]. exact H.
Qed.

(** [InitDataOffset] changes the two offsets of the entry only, and nothing of
    the factory but the file position and the logs. *)
Lemma InitDataOffset_ensures fileEntry pFileHeader s :
  ensures (InitDataOffset fileEntry pFileHeader) s (fun fe' s' =>
    validator_frame s' = validator_frame s
    /\ FileEntryBase.desc fe' = FileEntryBase.desc fileEntry
    /\ FileEntryBase.nMethod fe' = FileEntryBase.nMethod fileEntry
    /\ FileEntryBase.nFileHeaderOffset fe' = FileEntryBase.nFileHeaderOffset fileEntry
    /\ FileEntryBase.nNTFS_LastModifyTime fe'
       = FileEntryBase.nNTFS_LastModifyTime fileEntry).
Proof.
  unfold InitDataOffset. apply ensures_bind. unfold ensures at 1, get. cbv zeta.
  destruct (negb (m_encryptedHeaders s =? HEADERS_NOT_ENCRYPTED)).
  - eapply ensures_mono; [apply InitDataOffset_finish_ensures|].
    intros fe' s' (Hfr & -> & _). destruct fileEntry; cbn. auto.
  - apply ensures_bind. unfold ensures at 1. rewrite Seek_eq.
    set (s1 := match m_fileHandle s with Some _ => _ | None => _ end).
    assert (H1 : validator_frame s1 = validator_frame s).
    { subst s1. destruct s as [? ? ? ? ? hnd ? ? ? ? ? ? ? ? ? ? ? ? ? ? ?].
      cbn. destruct hnd; reflexivity. }
    apply ensures_bind.
    destruct (Read_cases
                (u32 (LocalFileHeader.sizeof
                      + CDRFileHeader.nFileNameLength
                          (CDRFileHeader.read (m_CDR_buffer s) pFileHeader))) s1)
      as [(f & _ & _ & _ & HR) | HR]; unfold ensures at 1; rewrite HR.
    all: match goal with |- ensures _ ?st _ =>
           assert (H2 : validator_frame st = validator_frame s)
             by (rewrite <- H1; destruct s1; reflexivity)
         end.
    all: repeat match goal with
         | |- ensures (if ?c then _ else _) _ _ => destruct c
         end.
    all: try (unfold ensures; msimpl; rewrite <- H2; split;
              [destruct s1; reflexivity | auto]).
    all: eapply ensures_mono; [apply InitDataOffset_finish_ensures|];
      intros fe' s' (Hfr & -> & _); split; [congruence|]; destruct fileEntry; cbn; auto.
Qed.


(** The state [AddFileEntry] leaves when the entry passes its two checks and
    the validator, if invoked, returned [fileEntry]. *)
Lemma AddFileEntry_ensures strFilePath pFileHeader extra s :
  ensures (AddFileEntry strFilePath pFileHeader extra) s (fun _ s' =>
    walk_frame s' = walk_frame s
    /\ m_CDR_buffer s' = m_CDR_buffer s
    /\ (m_treeFileEntries s' = m_treeFileEntries s
        \/ exists fe,
             entry_accepted (CDREnd.lCDROffset (m_CDREnd s)) (header_at s pFileHeader)
             /\ FileEntryBase.nFileHeaderOffset fe
                = CDRFileHeader.lLocalHeaderOffset (header_at s pFileHeader)
             /\ FileEntryBase.desc fe = CDRFileHeader.desc (header_at s pFileHeader)
             /\ m_treeFileEntries s'
                = <[c_str_at (m_CDR_buffer s) strFilePath := fe]> (m_treeFileEntries s))
    /\ (entry_accepted (CDREnd.lCDROffset (m_CDREnd s)) (header_at s pFileHeader) ->
        m_bBuildFileEntryTree s = true ->
        exists fe,
          m_treeFileEntries s'
          = <[c_str_at (m_CDR_buffer s) strFilePath := fe]> (m_treeFileEntries s))).
Proof.
  unfold AddFileEntry, header_at, entry_accepted.
  apply ensures_bind. unfold ensures at 1, get. cbv zeta.
  destruct (_ >? CDREnd.lCDROffset (m_CDREnd s)) eqn:Hg1.
  { destruct_state s. unfold ensures, walk_frame. msimpl. bool_to_prop.
    split; [reflexivity|]. split; [reflexivity|]. split; [left; reflexivity|].
    intros [? _]. lia. }
  destruct (_ && negb _) eqn:Hg2.
  { destruct_state s. unfold ensures, walk_frame. msimpl. bool_to_prop.
    split; [reflexivity|]. split; [reflexivity|]. split; [left; reflexivity|].
    intros [_ Hst].
    match goal with H : _ || _ = true |- _ => apply orb_true_iff in H; destruct H end;
      bool_to_prop; rewrite Hst in *; auto; congruence. }
  assert (Hacc : CDRFileHeader.lLocalHeaderOffset (CDRFileHeader.read (m_CDR_buffer s) pFileHeader)
                 <= CDREnd.lCDROffset (m_CDREnd s)
                 /\ (CDRFileHeader.nMethod (CDRFileHeader.read (m_CDR_buffer s) pFileHeader)
                     = METHOD_STORE
                     \/ CDRFileHeader.nMethod (CDRFileHeader.read (m_CDR_buffer s) pFileHeader)
                        = METHOD_STORE_AND_STREAMCIPHER_KEYTABLE ->
                     DataDescriptor.lSizeUncompressed
                       (CDRFileHeader.desc (CDRFileHeader.read (m_CDR_buffer s) pFileHeader))
                     = DataDescriptor.lSizeCompressed
                         (CDRFileHeader.desc (CDRFileHeader.read (m_CDR_buffer s) pFileHeader)))).
  { bool_to_prop. split; [lia|]. intros Hm.
    apply andb_false_iff in Hg2. destruct Hg2 as [Hg2|Hg2]; bool_to_prop; [|auto].
    destruct Hm; lia. }
  clear Hg1 Hg2.
  apply ensures_bind.
  set (Q := fun (fe : FileEntryBase.t) (s' : CacheFactory) =>
    validator_frame s' = validator_frame s
    /\ FileEntryBase.nFileHeaderOffset fe
       = CDRFileHeader.lLocalHeaderOffset (CDRFileHeader.read (m_CDR_buffer s) pFileHeader)
    /\ FileEntryBase.desc fe
       = CDRFileHeader.desc (CDRFileHeader.read (m_CDR_buffer s) pFileHeader)).
  assert (HQ : ensures
            (if (negb (m_encryptedHeaders s =? HEADERS_NOT_ENCRYPTED)
                 || InitMethod_geb (m_nInitMethod s) ZD_INIT_FULL)
                && negb (DataDescriptor.lSizeCompressed
                           (CDRFileHeader.desc
                              (CDRFileHeader.read (m_CDR_buffer s) pFileHeader)) =? 0)
             then InitDataOffset
                    (FileEntryBase_ctor (CDRFileHeader.read (m_CDR_buffer s) pFileHeader) extra)
                    pFileHeader
             else ret (FileEntryBase_ctor (CDRFileHeader.read (m_CDR_buffer s) pFileHeader) extra))
            s Q).
  { destruct (_ && _).
    - eapply ensures_mono; [apply InitDataOffset_ensures|].
      intros fe' s' (Hfr & Hd & _ & Hh & _). unfold Q. rewrite Hh, Hd. auto.
    - apply ensures_ret. unfold Q. auto. }
  eapply ensures_mono; [exact HQ|]. clear HQ.
  intros fe s1 (Hfr & Hh & Hd).
  destruct s as [a1 a2 a3 a4 a5 hnd pos a8 a9 E enc sg ext hs he buf mp tr errs w io].
  destruct s1 as [b1 b2 b3 b4 b5 hnd1 pos1 b8 b9 E1 enc1 sg1 ext1 hs1 he1 buf1 mp1 tr1 errs1 w1 io1].
  unfold validator_frame in Hfr. msimpl.
  injection Hfr as -> -> -> -> -> -> -> -> -> -> -> -> -> -> -> -> -> ->.
  unfold ensures, walk_frame. msimpl.
  destruct a3, a4; msimpl.
  all: split; [reflexivity|]; split; [reflexivity|].
  all: split; [first [left; reflexivity | right; exists fe; auto]|].
  all: intros _ ?; try discriminate; eauto.
Qed.



Lemma AddFileEntry_validator_skipped s strFilePath pFileHeader extra :
  validator_invoked s (header_at s pFileHeader) = false ->
  exists s',
    AddFileEntry strFilePath pFileHeader extra s = Ret tt s'
    /\ m_io s' = m_io s /\ m_filePos s' = m_filePos s
    /\ (entry_accepted (CDREnd.lCDROffset (m_CDREnd s)) (header_at s pFileHeader) ->
        m_errors s' = m_errors s
        /\ (m_bBuildFileEntryTree s = true ->
            m_treeFileEntries s'
            = <[c_str_at (m_CDR_buffer s) strFilePath
                := FileEntryBase_ctor (header_at s pFileHeader) extra]>
                (m_treeFileEntries s))
        /\ (m_bBuildFileEntryTree s = false ->
            m_treeFileEntries s' = m_treeFileEntries s)).
Proof.
  unfold validator_invoked, header_at, entry_accepted. intros Hz.
  destruct s as [a1 a2 a3 a4 a5 hnd pos a8 a9 E enc sg ext hs he buf mp tr errs w io].
  unfold AddFileEntry. msimpl. rewrite Hz. msimpl.
  repeat match goal with
  | |- context [if ?c then _ else _] => destruct c eqn:?; msimpl
  end.
  all: eexists; split; [reflexivity|]; msimpl.
  all: split; [reflexivity|]; split; [reflexivity|].
  all: intros [Hlho Hst]; bool_to_prop; try lia.
  all: try (split; [reflexivity|]; split; intros; try discriminate; reflexivity).
  all: exfalso;
    match goal with H : _ || _ = true |- _ => apply orb_true_iff in H; destruct H end;
    bool_to_prop; rewrite Hst in *; auto; congruence.
Qed.

(** C10. For a CDR record whose compressed size is zero, whatever the init
    method and the encryption state, [AddFileEntry] does not call
    [InitDataOffset]: it makes no I/O call at all (no local header is read, no
    data is read for validation) and leaves the file position alone; and when
    the record passes the two checks [AddFileEntry] makes itself, no error is
    thrown and the entry goes into the tree (when the tree is built) exactly
    as the constructor made it, with no data offset and no end-of-file offset
    computed. *)
Theorem AddFileEntry_zero_compressed (s : CacheFactory)
    (strFilePath pFileHeader extra : Z) :
  DataDescriptor.lSizeCompressed (CDRFileHeader.desc (header_at s pFileHeader)) = 0 ->
  validator_invoked s (header_at s pFileHeader) = false
  /\ exists s',
       AddFileEntry strFilePath pFileHeader extra s = Ret tt s'
       /\ m_io s' = m_io s /\ m_filePos s' = m_filePos s
       /\ (entry_accepted (CDREnd.lCDROffset (m_CDREnd s)) (header_at s pFileHeader) ->
           m_errors s' = m_errors s
           /\ (m_bBuildFileEntryTree s = true ->
               m_treeFileEntries s'
               = <[c_str_at (m_CDR_buffer s) strFilePath
                   := FileEntryBase_ctor (header_at s pFileHeader) extra]>
                   (m_treeFileEntries s))
           /\ (m_bBuildFileEntryTree s = false ->
               m_treeFileEntries s' = m_treeFileEntries s)).
Proof.
  intros Hz.
  assert (Hinv : validator_invoked s (header_at s pFileHeader) = false).
  { unfold validator_invoked. rewrite Hz. apply andb_false_r. }
  split; [exact Hinv|]. apply AddFileEntry_validator_skipped, Hinv.
Qed.

Lemma CDRFileHeader_ranges buf p :
  0 <= CDRFileHeader.lLocalHeaderOffset (CDRFileHeader.read buf p) < 4294967296
  /\ 0 <= CDRFileHeader.nFileNameLength (CDRFileHeader.read buf p) < 65536
  /\ 0 <= CDRFileHeader.nExtraFieldLength (CDRFileHeader.read buf p) < 65536
  /\ 0 <= CDRFileHeader.nFileCommentLength (CDRFileHeader.read buf p) < 65536.
Proof.
  repeat split; first [apply read_u32_range | apply read_u16_range].
Qed.

Lemma LocalFileHeader_ranges buf p :
  0 <= LocalFileHeader.nFileNameLength (LocalFileHeader.read buf p) < 65536
  /\ 0 <= LocalFileHeader.nExtraFieldLength (LocalFileHeader.read buf p) < 65536.
Proof. repeat split; apply read_u16_range. Qed.

(** C2, as the code has it.  For an entry whose local header offset is within
    the 2 GiB an archive can have and, where the init method is validate,
    whose two sizes together stay below 2^32 (the buffer of [Validate] holds
    them): (1) when encryption is active,
    [InitDataOffset] takes the data offset from the CDR record alone, as the
    local header offset plus sizeof(LocalFileHeader) plus the name length of
    the CDR record, with no extra-field length, and reads no local header (its
    only I/O is the read of the data in validate mode); (2) when encryption is
    not active (so the init method is full or validate) it seeks to the local
    header, reads it with its name and compares it with the CDR record; when
    they match the data offset is the local header offset plus
    sizeof(LocalFileHeader) plus the local header's name and extra-field
    lengths, and when they do not it throws ZD_ERROR_VALIDATION_FAILED and
    leaves the entry as it was; (3) in the default unencrypted case
    [AddFileEntry] does not call it: no I/O, and the entry keeps the data
    offset the constructor gave it. *)
Theorem InitDataOffset_offset_source (s : CacheFactory) (f : File)
    (fileEntry : FileEntryBase.t) (strFilePath pFileHeader extra : Z) :
  m_fileHandle s = Some f ->
  CDRFileHeader.lLocalHeaderOffset (header_at s pFileHeader) <= pakSizeLimit ->
  (m_encryptedHeaders s <> HEADERS_NOT_ENCRYPTED ->
   validation_in_bounds (m_nInitMethod s) (FileEntryBase.desc fileEntry) ->
   exists fe' s' tail,
     InitDataOffset fileEntry pFileHeader s = Ret fe' s'
     /\ FileEntryBase.nFileDataOffset fe'
        = CDRFileHeader.lLocalHeaderOffset (header_at s pFileHeader)
          + LocalFileHeader.sizeof
          + CDRFileHeader.nFileNameLength (header_at s pFileHeader)
     /\ m_io s' = m_io s ++ tail
     /\ (tail = []
         \/ exists ok,
              tail = [IoSeek (FileEntryBase.nFileDataOffset fe');
                      IoRead (FileEntryBase.nFileDataOffset fe')
                        (u32 (DataDescriptor.lSizeCompressed
                                (FileEntryBase.desc fileEntry))) ok]))
  /\ (m_encryptedHeaders s = HEADERS_NOT_ENCRYPTED ->
      CDRFileHeader.lLocalHeaderOffset (header_at s pFileHeader)
      + LocalFileHeader.sizeof
      + CDRFileHeader.nFileNameLength (header_at s pFileHeader) <= file_size f ->
      validation_in_bounds (m_nInitMethod s) (FileEntryBase.desc fileEntry) ->
      exists fe' s' tail,
        InitDataOffset fileEntry pFileHeader s = Ret fe' s'
        /\ m_io s'
           = m_io s
             ++ [IoSeek (CDRFileHeader.lLocalHeaderOffset (header_at s pFileHeader));
                 IoRead (CDRFileHeader.lLocalHeaderOffset (header_at s pFileHeader))
                   (LocalFileHeader.sizeof
                    + CDRFileHeader.nFileNameLength (header_at s pFileHeader)) true]
             ++ tail
        /\ (local_header_matches s pFileHeader
              (file_read f (CDRFileHeader.lLocalHeaderOffset (header_at s pFileHeader))
                 (LocalFileHeader.sizeof
                  + CDRFileHeader.nFileNameLength (header_at s pFileHeader))) = true ->
            FileEntryBase.nFileDataOffset fe'
            = CDRFileHeader.lLocalHeaderOffset (header_at s pFileHeader)
              + LocalFileHeader.sizeof
              + LocalFileHeader.nFileNameLength
                  (LocalFileHeader.read
                     (file_read f
                        (CDRFileHeader.lLocalHeaderOffset (header_at s pFileHeader))
                        (LocalFileHeader.sizeof
                         + CDRFileHeader.nFileNameLength (header_at s pFileHeader))) 0)
              + LocalFileHeader.nExtraFieldLength
                  (LocalFileHeader.read
                     (file_read f
                        (CDRFileHeader.lLocalHeaderOffset (header_at s pFileHeader))
                        (LocalFileHeader.sizeof
                         + CDRFileHeader.nFileNameLength (header_at s pFileHeader))) 0))
        /\ (local_header_matches s pFileHeader
              (file_read f (CDRFileHeader.lLocalHeaderOffset (header_at s pFileHeader))
                 (LocalFileHeader.sizeof
                  + CDRFileHeader.nFileNameLength (header_at s pFileHeader))) = false ->
            fe' = fileEntry /\ tail = []
            /\ m_errors s' = m_errors s ++ [ZD_ERROR_VALIDATION_FAILED]))
  /\ (m_encryptedHeaders s = HEADERS_NOT_ENCRYPTED ->
      m_nInitMethod s = ZD_INIT_DEFAULT ->
      validator_invoked s (header_at s pFileHeader) = false
      /\ exists s',
           AddFileEntry strFilePath pFileHeader extra s = Ret tt s'
           /\ m_io s' = m_io s
           /\ (entry_accepted (CDREnd.lCDROffset (m_CDREnd s)) (header_at s pFileHeader) ->
               m_bBuildFileEntryTree s = true ->
               m_treeFileEntries s'
               = <[c_str_at (m_CDR_buffer s) strFilePath
                   := FileEntryBase_ctor (header_at s pFileHeader) extra]>
                   (m_treeFileEntries s))).
Proof.
  intros Hf Hlho.
  pose proof (CDRFileHeader_ranges (m_CDR_buffer s) pFileHeader) as (Hr1 & Hr2 & _).
  unfold header_at in *. change pakSizeLimit with 2147483648 in Hlho.
  set (header := CDRFileHeader.read (m_CDR_buffer s) pFileHeader) in *.
  unfold LocalFileHeader.sizeof in *.
  split; [|split].
  - intros Henc Hb.
    assert (Hu : u32 (CDRFileHeader.lLocalHeaderOffset header + 30
                      + CDRFileHeader.nFileNameLength header)
                 = CDRFileHeader.lLocalHeaderOffset header + 30
                   + CDRFileHeader.nFileNameLength header) by (apply u32_small; lia).
    unfold InitDataOffset. unfold bind at 1, get at 1. cbv zeta. fold header.
    destruct (negb (m_encryptedHeaders s =? HEADERS_NOT_ENCRYPTED)) eqn:E;
      [|bool_to_prop; contradiction].
    unfold LocalFileHeader.sizeof. rewrite Hu.
    match goal with |- context [InitDataOffset_finish ?fe s] =>
      destruct (returns_inv _ _ _
                  (InitDataOffset_finish_returns fe s
                     ltac:(destruct fileEntry; exact Hb)))
        as (fe' & s' & HR & _ & -> & tail & Hio & Htail & _)
    end.
    rewrite HR. eexists _, s', tail. split; [reflexivity|].
    destruct fileEntry as [d m ho fo eo nt]. cbn in *.
    split; [reflexivity|]. split; [exact Hio|].
    destruct Htail as [-> | (p & ok & -> & Hp)]; [left; reflexivity|].
    right. exists ok. rewrite Hp by (rewrite Hf; eauto). rewrite u32_small by lia.
    reflexivity.
  - intros Henc Hin Hb.
    set (lho := CDRFileHeader.lLocalHeaderOffset header) in *.
    set (len := CDRFileHeader.nFileNameLength header) in *.
    pose proof (LocalFileHeader_ranges (file_read f lho (30 + len)) 0) as (Hl1 & Hl2).
    unfold local_header_matches, header_at. fold header. fold len. cbv zeta.
    unfold LocalFileHeader.sizeof.
    set (loc := LocalFileHeader.read (file_read f lho (30 + len)) 0) in *.
    assert (Hu1 : u32 lho = lho) by (apply u32_small; lia).
    assert (Hu2 : u32 (30 + len) = 30 + len) by (apply u32_small; lia).
    assert (Hu3 : u32 (lho + 30 + LocalFileHeader.nFileNameLength loc
                       + LocalFileHeader.nExtraFieldLength loc)
                  = lho + 30 + LocalFileHeader.nFileNameLength loc
                    + LocalFileHeader.nExtraFieldLength loc) by (apply u32_small; lia).
    unfold InitDataOffset. unfold bind at 1, get at 1. cbv zeta. fold header.
    destruct (negb (m_encryptedHeaders s =? HEADERS_NOT_ENCRYPTED)) eqn:E;
      [bool_to_prop; contradiction|].
    fold lho len. unfold LocalFileHeader.sizeof.
    unfold bind at 1. rewrite Seek_eq, Hf, Hu1.
    unfold bind at 1. rewrite Hu2.
    rewrite (Read_in_range (30 + len) _ f);
      [| destruct_state s; exact Hf
       | rewrite Hu2; lia
       | destruct_state s; msimpl; rewrite Hu2; lia].
    replace (m_filePos (set_filePos lho (set_io (m_io s ++ [IoSeek lho]) s))) with lho
      by (destruct_state s; reflexivity).
    rewrite Hu2. fold loc.
    destruct (DataDescriptor.neq (CDRFileHeader.desc header) (LocalFileHeader.desc loc)
              || negb (CDRFileHeader.nMethod header =? LocalFileHeader.nMethod loc)
              || negb (len =? LocalFileHeader.nFileNameLength loc)) eqn:Hc1.
    { eexists _, _, []. split; [reflexivity|].
      split; [destruct_state s; unfold Read_ok_state; msimpl;
              rewrite Hu2, <- !app_assoc; reflexivity|].
      split; [discriminate|]. intros _. split; [reflexivity|]. split; [reflexivity|].
      destruct_state s. reflexivity. }
    cbn [negb andb].
    match goal with |- context [bool_decide ?P] => destruct (bool_decide P) eqn:Hc2 end.
    2:{ eexists _, _, []. split; [reflexivity|].
        split; [destruct_state s; unfold Read_ok_state; msimpl;
                rewrite Hu2, <- !app_assoc; reflexivity|].
        split; [discriminate|]. intros _. split; [reflexivity|]. split; [reflexivity|].
        destruct_state s. reflexivity. }
    cbn [negb]. rewrite Hu3.
    match goal with |- context [InitDataOffset_finish ?fe ?st] =>
      destruct (returns_inv _ _ _
                  (InitDataOffset_finish_returns fe st
                     ltac:(destruct fileEntry; destruct_state s; exact Hb)))
        as (fe' & s' & HR & _ & -> & tail & Hio & _)
    end.
    rewrite HR. eexists _, s', tail. split; [reflexivity|].
    split.
    { rewrite Hio. destruct_state s. unfold Read_ok_state. msimpl.
      rewrite Hu2, <- !app_assoc. reflexivity. }
    split; [|discriminate]. intros _. destruct fileEntry; reflexivity.
  - intros Henc Hinit.
    assert (Hinv : validator_invoked s header = false).
    { unfold validator_invoked. rewrite Henc, Hinit, Z.eqb_refl. reflexivity. }
    split; [exact Hinv|].
    destruct (AddFileEntry_validator_skipped s strFilePath pFileHeader extra Hinv)
      as (s' & HA & Hio & _ & Hacc).
    exists s'. split; [exact HA|]. split; [exact Hio|].
    intros Ha Ht. destruct (Hacc Ha) as (_ & Htree & _). auto.
Qed.

End EntryFacts.

(** ** The locator's result *)

Lemma FindCDREnd_scan_found n buf pWindow nNewBufPos nFileSize nScanPos s :
  0 <= nScanPos ->
  returns (FindCDREnd_scan n buf pWindow nNewBufPos nFileSize nScanPos) s
    (fun x s' =>
       m_nZipFileSize s' = m_nZipFileSize s /\ 0 <= snd x
       /\ (fst x = Some true -> False)
       /\ (fst x = None ->
           m_CDREnd s' = m_CDREnd s \/ CDREnd_located nFileSize s')).
Proof.
  revert nScanPos s. induction n as [|n IH]; intros nScanPos s Hpos;
    cbn [FindCDREnd_scan].
  - apply returns_ret. cbn. split; [reflexivity|]. split; [lia|].
    split; [discriminate | auto].
  - destruct (nScanPos <? nNewBufPos);
      [apply returns_ret; cbn; split; [reflexivity|]; split; [lia|];
       split; [discriminate | auto]|].
    cbv zeta. destruct (_ =? CDREnd.SIGNATURE) eqn:Hsig.
    + destruct (_ =? nFileSize - nScanPos - CDREnd.sizeof) eqn:Hlen.
      * destruct_state s. unfold returns, CDREnd_located. msimpl. bool_to_prop.
        split; [reflexivity|]. split; [lia|]. split; [discriminate|].
        intros _. right. cbn.
        unfold CDREnd.lSignature_at, CDREnd.nCommentLength_at in *.
        split; [exact Hsig|]. split; [exact Hlen|].
        pose proof (read_u16_range buf (pWindow + nScanPos - nNewBufPos + 20)). lia.
      * destruct_state s. unfold returns. msimpl.
        split; [reflexivity|]. split; [lia|]. split; discriminate.
    + destruct (nScanPos =? 0) eqn:Hz;
        [apply returns_ret; cbn; split; [reflexivity|]; split; [lia|];
         split; [discriminate | auto]|].
      bool_to_prop. apply IH. lia.
Qed.

Lemma Seek_keeps nPos s :
  returns (Seek nPos) s (fun _ s' => validator_frame s' = validator_frame s).
Proof.
  unfold returns. rewrite Seek_eq. destruct_state s. cbn. destruct hnd; reflexivity.
Qed.

Lemma Read_keeps nSize s :
  returns (Read nSize) s (fun _ s' => validator_frame s' = validator_frame s).
Proof.
  unfold returns.
  destruct (Read_cases nSize s) as [(f & _ & _ & _ & ->) | ->];
    destruct_state s; reflexivity.
Qed.

Lemma FindCDREnd_windows_found fuel buf nFileSize nOldBufPos nScanPos s :
  0 <= nScanPos ->
  CDREnd.lSignature (m_CDREnd s) <> CDREnd.SIGNATURE ->
  returns (FindCDREnd_windows fuel buf nFileSize nOldBufPos nScanPos) s
    (fun b s' => m_nZipFileSize s' = m_nZipFileSize s
                 /\ (b = true -> CDREnd_located nFileSize s')).
Proof.
  revert buf nOldBufPos nScanPos s.
  induction fuel as [|fuel IH]; intros buf nOldBufPos nScanPos s Hpos Hsig;
    cbn [FindCDREnd_windows].
  - destruct_state s. unfold returns. msimpl. split; [reflexivity | discriminate].
  - cbv zeta. destruct (_ >=? nOldBufPos).
    + destruct_state s. unfold returns. msimpl. split; [reflexivity | discriminate].
    + apply returns_bind. eapply returns_mono; [apply Seek_keeps|].
      intros u s1 H1. cbv beta in H1 |- *.
      apply returns_bind. eapply returns_mono; [apply Read_keeps|].
      intros r s2 H2. cbv beta.
      assert (Hfr : validator_frame s2 = validator_frame s) by congruence.
      assert (HE : m_CDREnd s2 = m_CDREnd s)
        by (unfold validator_frame in Hfr; congruence).
      assert (HZ : m_nZipFileSize s2 = m_nZipFileSize s)
        by (unfold validator_frame in Hfr; congruence).
      apply returns_bind.
      eapply returns_mono; [apply FindCDREnd_scan_found; exact Hpos|].
      intros x s3 (HZ3 & Hsnd & Hno & Hnone). cbv beta.
      destruct (fst x) as [b|] eqn:Hx.
      * apply returns_ret. split; [congruence|].
        intros ->. exfalso. auto.
      * unfold bind at 1, get at 1. unfold returns at 1. cbv beta iota.
        destruct (_ =? CDREnd.SIGNATURE) eqn:Hs3.
        -- apply returns_ret. split; [congruence|]. intros _.
           destruct (Hnone eq_refl) as [Hsame | Hloc]; [|exact Hloc].
           bool_to_prop. congruence.
        -- eapply returns_mono; [apply IH; [exact Hsnd | bool_to_prop; exact Hs3]|].
           intros b s4 (HZ4 & Hb). split; [congruence | exact Hb].
Qed.

Lemma FindCDREnd_post s f b s' :
  m_fileHandle s = Some f ->
  FindCDREnd s = Ret b s' ->
  locator_frame s' = locator_frame s
  /\ m_nZipFileSize s' = file_size f
  /\ (b = true -> CDREnd_located (file_size f) s').
Proof.
  intros Hf. unfold FindCDREnd, Seek_END, Tell. msimpl.
  rewrite Hf. msimpl. rewrite Hf. msimpl.
  destruct (file_size f >? pakSizeLimit); [discriminate|].
  destruct (file_size f <? CDREnd.sizeof) eqn:Hsz.
  { intros [= <- <-]. destruct_state s. split; [reflexivity|].
    split; [reflexivity | discriminate]. }
  bool_to_prop. unfold CDREnd.sizeof in Hsz.
  intros HR.
  match type of HR with FindCDREnd_windows ?a ?b ?c ?d ?e ?st = _ =>
    pose proof (returns_eq _ _ _ _ _ HR
                  (FindCDREnd_windows_found a b c d e st
                     ltac:(unfold CDREnd.sizeof; lia)
                     ltac:(destruct_state s; cbn; discriminate))) as [HZ Hloc];
    pose proof (returns_eq _ _ _ _ _ HR
                  (FindCDREnd_windows_returns a b c d e st)) as (_ & _ & Hfr)
  end.
  split; [rewrite Hfr; destruct_state s; reflexivity|].
  split; [rewrite HZ; destruct_state s; reflexivity | exact Hloc].
Qed.

(** ** The walk over the Central Directory *)

Section WalkFacts.
Context {env : ZipDirEnv}.



Lemma returns_THROW {A} e (a : A) s (Q : A -> CacheFactory -> Prop) :
  Q a (set_errors (m_errors s ++ [e]) s) ->
  returns (THROW_ZIPDIR_ERROR e ;; ret a) s Q.
Proof. exact (fun H => H). Qed.

Lemma ensures_modify f s (Q : unit -> CacheFactory -> Prop) :
  Q tt (f s) -> ensures (modify f) s Q.
Proof. exact (fun H => H). Qed.

Lemma ensures_get s (Q : CacheFactory -> CacheFactory -> Prop) :
  Q s s -> ensures get s Q.
Proof. exact (fun H => H). Qed.

Lemma ensures_THROW {A} e (a : A) s (Q : A -> CacheFactory -> Prop) :
  Q a (set_errors (m_errors s ++ [e]) s) ->
  ensures (THROW_ZIPDIR_ERROR e ;; ret a) s Q.
Proof. exact (fun H => H). Qed.

Lemma walk_frame_CDREnd s s' :
  walk_frame s' = walk_frame s ->
  m_CDREnd s' = m_CDREnd s /\ m_nCDREndPos s' = m_nCDREndPos s
  /\ m_nZipFileSize s' = m_nZipFileSize s /\ m_fileHandle s' = m_fileHandle s
  /\ m_bBuildFileEntryTree s' = m_bBuildFileEntryTree s
  /\ m_encryptedHeaders s' = m_encryptedHeaders s
  /\ m_nInitMethod s' = m_nInitMethod s.
Proof. unfold walk_frame. intros [= -> _ _ -> _ -> -> -> -> -> _ _ _ _ _]. auto 10. Qed.

Lemma entries_within_insert t L path fe :
  entries_within t L -> FileEntryBase.nFileHeaderOffset fe <= L ->
  entries_within (<[path := fe]> t) L.
Proof.
  intros Ht Hfe p e. rewrite lookup_insert_Some.
  intros [[_ <-] | [_ H]]; [exact Hfe | eauto].
Qed.

(** One round of the walk, from the in-place rewrite of the name on. *)
Lemma BuildFileEntryMap_entry_within (bDirectory : bool) (str pFile extra nLen : Z) s :
  ensures
    (if negb bDirectory then
       modify (fun s => set_CDR_buffer
                 (buf_write
                    (buf_write (m_CDR_buffer s) str
                       (map normalize_char (buf_slice (m_CDR_buffer s) str nLen)))
                    (str + nLen) [x00]) s) ;;
       AddFileEntry str pFile extra
     else ret tt) s
    (fun _ s' =>
       walk_frame s' = walk_frame s
       /\ (entries_within (m_treeFileEntries s) (CDREnd.lCDROffset (m_CDREnd s)) ->
           entries_within (m_treeFileEntries s') (CDREnd.lCDROffset (m_CDREnd s)))).
Proof.
  destruct (negb bDirectory); [|apply ensures_ret; auto].
  apply ensures_bind, ensures_modify.
  set (s1 := set_CDR_buffer _ s).
  assert (H1 : walk_frame s1 = walk_frame s
               /\ m_treeFileEntries s1 = m_treeFileEntries s)
    by (subst s1; destruct_state s; split; reflexivity).
  clearbody s1. destruct H1 as [Hw1 Ht1].
  destruct (walk_frame_CDREnd _ _ Hw1) as (HE1 & _).
  eapply ensures_mono; [apply AddFileEntry_ensures|].
  intros u s2 (Hw2 & _ & Htree & _). cbv beta.
  split; [congruence|]. intros Hin.
  destruct Htree as [-> | (fe & (Hlho & _) & Hoff & _ & ->)].
  - rewrite Ht1. exact Hin.
  - apply entries_within_insert; [rewrite Ht1; exact Hin|].
    rewrite Hoff, <- HE1. exact Hlho.
Qed.

Lemma BuildFileEntryMap_records_within fuel pFile pEndOfData s :
  ensures (BuildFileEntryMap_records fuel pFile pEndOfData) s (fun _ s' =>
    walk_frame s' = walk_frame s
    /\ (entries_within (m_treeFileEntries s) (CDREnd.lCDROffset (m_CDREnd s)) ->
        entries_within (m_treeFileEntries s') (CDREnd.lCDROffset (m_CDREnd s)))).
Proof.
  revert pFile s. induction fuel as [|fuel IH]; intros pFile s;
    cbn [BuildFileEntryMap_records].
  - apply ensures_ret. auto.
  - cbv zeta. destruct (_ >? pEndOfData); [apply ensures_ret; auto|].
    apply ensures_bind, ensures_modify. apply ensures_bind, ensures_get.
    set (s1 := set_CDR_buffer _ s).
    assert (H1 : walk_frame s1 = walk_frame s
                 /\ m_treeFileEntries s1 = m_treeFileEntries s)
      by (subst s1; destruct_state s; split; reflexivity).
    clearbody s1. destruct H1 as [Hw1 Ht1].
    destruct (walk_frame_CDREnd _ _ Hw1) as (HE1 & _).
    assert (Hthrow : forall e,
      ensures (THROW_ZIPDIR_ERROR e ;; ret false) s1 (fun _ s' =>
        walk_frame s' = walk_frame s
        /\ (entries_within (m_treeFileEntries s) (CDREnd.lCDROffset (m_CDREnd s)) ->
            entries_within (m_treeFileEntries s') (CDREnd.lCDROffset (m_CDREnd s))))).
    { intros e. apply ensures_THROW. rewrite <- Hw1, <- Ht1.
      destruct_state s1. split; [reflexivity | auto]. }
    destruct (_ >? 20); [apply Hthrow|].
    destruct (_ >? pEndOfData); [apply Hthrow|].
    apply ensures_bind.
    eapply ensures_mono; [apply BuildFileEntryMap_entry_within|].
    intros u s2 (Hw2 & Ht2). cbv beta.
    destruct (walk_frame_CDREnd _ _ Hw2) as (HE2 & _).
    eapply ensures_mono; [apply IH|].
    intros b s3 (Hw3 & Ht3). cbv beta.
    split; [congruence|]. intros Hin.
    rewrite <- HE1, <- HE2. apply Ht3. rewrite HE2. apply Ht2.
    rewrite HE1, Ht1. exact Hin.
Qed.

Lemma ReadHeaderData_keeps nSize s :
  returns (ReadHeaderData nSize) s (fun _ s' =>
    m_CDREnd s' = m_CDREnd s /\ m_nCDREndPos s' = m_nCDREndPos s
    /\ m_nZipFileSize s' = m_nZipFileSize s
    /\ m_treeFileEntries s' = m_treeFileEntries s
    /\ m_CDR_buffer s' = m_CDR_buffer s).
Proof.
  unfold ReadHeaderData. apply returns_bind.
  unfold returns at 1.
  destruct (Read_cases nSize s) as [(f & _ & _ & _ & ->) | ->].
  - unfold returns, Read_ok_state. destruct_state s. msimpl.
    repeat match goal with
    | |- context [if ?c then _ else _] => destruct c; msimpl
    end; auto 10.
  - unfold returns, Read_failed_state. destruct_state s. msimpl. auto 10.
Qed.

Lemma BuildFileEntryMap_within s :
  ensures BuildFileEntryMap s (fun _ s' =>
    m_CDREnd s' = m_CDREnd s /\ m_nCDREndPos s' = m_nCDREndPos s
    /\ m_nZipFileSize s' = m_nZipFileSize s
    /\ (entries_within (m_treeFileEntries s) (CDREnd.lCDROffset (m_CDREnd s)) ->
        entries_within (m_treeFileEntries s') (CDREnd.lCDROffset (m_CDREnd s)))).
Proof.
  unfold BuildFileEntryMap. apply ensures_bind, ensures_get. cbv zeta.
  apply ensures_bind. eapply ensures_mono; [apply returns_ensures, Seek_keeps|].
  intros u s1 H1. cbv beta in H1 |- *.
  assert (HE1 : m_CDREnd s1 = m_CDREnd s /\ m_nCDREndPos s1 = m_nCDREndPos s
                /\ m_nZipFileSize s1 = m_nZipFileSize s
                /\ m_treeFileEntries s1 = m_treeFileEntries s)
    by (unfold validator_frame in H1; injection H1; intros; auto).
  clear H1. destruct HE1 as (HE1 & HP1 & HZ1 & HT1).
  destruct (_ =? 0); [apply ensures_ret; rewrite HT1; auto|].
  apply ensures_bind, ensures_modify. apply ensures_bind, ensures_get.
  set (s2 := set_CDR_buffer _ s1).
  assert (H2 : m_CDREnd s2 = m_CDREnd s /\ m_nCDREndPos s2 = m_nCDREndPos s
               /\ m_nZipFileSize s2 = m_nZipFileSize s
               /\ m_treeFileEntries s2 = m_treeFileEntries s).
  { rewrite <- HE1, <- HP1, <- HZ1, <- HT1. subst s2. destruct_state s1. auto. }
  clearbody s2. destruct H2 as (HE2 & HP2 & HZ2 & HT2).
  destruct (bool_decide _).
  { apply ensures_THROW. rewrite <- HE2, <- HP2, <- HZ2, <- HT2.
    destruct_state s2. auto. }
  apply ensures_bind. eapply ensures_mono; [apply returns_ensures, ReadHeaderData_keeps|].
  intros r s3 (HE3 & HP3 & HZ3 & HT3 & _). cbv beta.
  apply ensures_bind.
  assert (Hst : ensures
            (match snd r with
             | Some bytes =>
                 modify (fun s => set_CDR_buffer (buf_write (m_CDR_buffer s) 0 bytes) s)
             | None => ret tt
             end) s3 (fun _ s4 =>
               m_CDREnd s4 = m_CDREnd s /\ m_nCDREndPos s4 = m_nCDREndPos s
               /\ m_nZipFileSize s4 = m_nZipFileSize s
               /\ m_treeFileEntries s4 = m_treeFileEntries s)).
  { rewrite <- HE2, <- HP2, <- HZ2, <- HT2, <- HE3, <- HP3, <- HZ3, <- HT3.
    destruct (snd r); [apply ensures_modify | apply ensures_ret];
      destruct_state s3; auto. }
  eapply ensures_mono; [exact Hst|].
  intros u4 s4 (HE4 & HP4 & HZ4 & HT4). cbv beta.
  destruct (negb (fst r)).
  { apply ensures_THROW. rewrite <- HE4, <- HP4, <- HZ4, <- HT4.
    destruct_state s4. auto. }
  eapply ensures_mono; [apply BuildFileEntryMap_records_within|].
  intros b s5 (Hw5 & Ht5). cbv beta.
  destruct (walk_frame_CDREnd _ _ Hw5) as (HE5 & HP5 & HZ5 & _).
  split; [congruence|]. split; [congruence|]. split; [congruence|].
  intros Hin. rewrite <- HE4. apply Ht5. rewrite HE4, HT4. exact Hin.
Qed.

Lemma Prepare_checks_cases s :
  (Prepare_checks s = Ret true s
   /\ CDREnd.lCDROffset (m_CDREnd s) <= m_nCDREndPos s
   /\ CDREnd.lCDRSize (m_CDREnd s) <= m_nCDREndPos s)
  \/ exists e, Prepare_checks s = Ret false (set_errors (m_errors s ++ [e]) s).
Proof.
  unfold Prepare_checks. msimpl.
  destruct (_ || _); [right; eauto|].
  destruct (_ || _) eqn:E; [right; eauto|].
  left. bool_to_prop. auto.
Qed.

(** C4, as the code has it.  After [Prepare], run from an empty tree on an
    open file, every entry of the tree has its local header at or before the
    start of the central directory, and the central directory starts inside
    the file: local header offset <= CDR offset < file size.  The first
    inequality is not strict: [AddFileEntry] rejects a record (it throws
    ZD_ERROR_CDR_IS_CORRUPT and adds nothing) exactly when its local header
    offset exceeds the CDR offset. *)
Theorem Prepare_entries_within_bounds (s : CacheFactory) (f : File)
    (b : bool) (s' : CacheFactory) :
  m_fileHandle s = Some f ->
  m_treeFileEntries s = ∅ ->
  Prepare s = Ret b s' ->
  (forall path fe,
     m_treeFileEntries s' !! path = Some fe ->
     FileEntryBase.nFileHeaderOffset fe <= CDREnd.lCDROffset (m_CDREnd s')
     /\ CDREnd.lCDROffset (m_CDREnd s') < file_size f)
  /\ (forall t strFilePath pFileHeader extra,
        CDREnd.lCDROffset (m_CDREnd t)
        < CDRFileHeader.lLocalHeaderOffset (header_at t pFileHeader) ->
        AddFileEntry strFilePath pFileHeader extra t
        = Ret tt (set_errors (m_errors t ++ [ZD_ERROR_CDR_IS_CORRUPT]) t)).
Proof.
  intros Hf Hempty HP. split.
  2:{ intros t str p extra Hlt. unfold header_at in Hlt. unfold AddFileEntry.
      unfold bind at 1, get at 1. cbv zeta.
      destruct (_ >? _) eqn:E; [reflexivity | bool_to_prop; lia]. }
  assert (Hnone : forall st, m_treeFileEntries st = m_treeFileEntries s ->
            forall path fe, m_treeFileEntries st !! path = Some fe ->
            FileEntryBase.nFileHeaderOffset fe <= CDREnd.lCDROffset (m_CDREnd st)
            /\ CDREnd.lCDROffset (m_CDREnd st) < file_size f).
  { intros st -> path fe. rewrite Hempty, lookup_empty. discriminate. }
  unfold Prepare in HP. unfold bind at 1 in HP.
  destruct (FindCDREnd s) as [found s1| |] eqn:HF; [|discriminate..].
  destruct (FindCDREnd_post s f found s1 Hf HF) as (Hfr1 & HZ1 & Hloc).
  assert (Ht1 : m_treeFileEntries s1 = m_treeFileEntries s)
    by (unfold locator_frame in Hfr1; congruence).
  destruct found; cbn [negb] in HP.
  2:{ injection HP as <- <-. apply Hnone, Ht1. }
  destruct (Hloc eq_refl) as (_ & _ & Hpos).
  unfold bind at 1 in HP. rewrite Prepare_legacy_hint_eq in HP.
  set (s2 := set_CDREnd _ _) in HP.
  assert (H2 : m_treeFileEntries s2 = m_treeFileEntries s
               /\ CDREnd.lCDROffset (m_CDREnd s2) = CDREnd.lCDROffset (m_CDREnd s1)
               /\ m_nCDREndPos s2 = m_nCDREndPos s1).
  { rewrite <- Ht1. subst s2. destruct_state s1. destruct (_ || _); cbn; auto. }
  clearbody s2. destruct H2 as (Ht2 & HL2 & HP2).
  unfold bind at 1 in HP.
  destruct (Prepare_trailer s2) as [ok s3| |] eqn:HT; [|discriminate..].
  pose proof (Prepare_trailer_frame _ _ _ HT) as Hfr3.
  assert (H3 : m_treeFileEntries s3 = m_treeFileEntries s
               /\ CDREnd.lCDROffset (m_CDREnd s3) = CDREnd.lCDROffset (m_CDREnd s1)
               /\ m_nCDREndPos s3 = m_nCDREndPos s1).
  { rewrite <- Ht2, <- HL2, <- HP2. unfold trailer_frame in Hfr3.
    injection Hfr3. intros. repeat split; congruence. }
  destruct H3 as (Ht3 & HL3 & HP3).
  destruct ok; cbn [negb] in HP.
  2:{ injection HP as <- <-. apply Hnone, Ht3. }
  unfold bind at 1 in HP.
  destruct (Prepare_checks_cases s3) as [(HC & Hle & _) | (e & HC)];
    rewrite HC in HP; cbn [negb] in HP.
  2:{ injection HP as <- <-. apply Hnone. rewrite <- Ht3. destruct_state s3. reflexivity. }
  unfold bind at 1 in HP.
  pose proof (BuildFileEntryMap_within s3) as HB. unfold ensures in HB.
  destruct (BuildFileEntryMap s3) as [r s4| |]; [|discriminate HP..].
  destruct HB as (HE4 & HP4 & _ & Hin).
  injection HP as <- <-.
  intros path fe Hlook. rewrite HE4. split.
  - eapply Hin; [|exact Hlook].
    intros p e. rewrite Ht3, Hempty, lookup_empty. discriminate.
  - unfold CDREnd.sizeof in Hpos. lia.
Qed.

End WalkFacts.

(** ** Buffers that agree, and the records read from them *)

Lemma buf_write_length b i l : length (buf_write b i l) = length b.
Proof. apply length_inserts. Qed.

Lemma buf_get_write_outside b i l j :
  0 <= i -> j < i \/ i + Z.of_nat (length l) <= j ->
  buf_get (buf_write b i l) j = buf_get b j.
Proof.
  intros Hi Hj. unfold buf_get, buf_write.
  destruct (j <? 0) eqn:E; [reflexivity|]. bool_to_prop. f_equal.
  destruct Hj; [apply list_lookup_inserts_lt | apply list_lookup_inserts_ge]; lia.
Qed.

Lemma agree_from_refl q b : agree_from q b b.
Proof. split; auto. Qed.




Lemma read_u16_agree q b1 b2 i :
  agree_from q b1 b2 -> q <= i -> read_u16 b1 i = read_u16 b2 i.
Proof. intros [_ H] Hi. unfold read_u16. rewrite !H by lia. reflexivity. Qed.

Lemma read_u32_agree q b1 b2 i :
  agree_from q b1 b2 -> q <= i -> read_u32 b1 i = read_u32 b2 i.
Proof.
  intros H Hi. unfold read_u32.
  rewrite (read_u16_agree q b1 b2 i), (read_u16_agree q b1 b2 (i + 2)) by (auto; lia).
  reflexivity.
Qed.

Lemma buf_slice_agree q b1 b2 i n :
  agree_from q b1 b2 -> q <= i -> buf_slice b1 i n = buf_slice b2 i n.
Proof.
  intros [_ H] Hi. unfold buf_slice. apply map_ext. intros k. apply H. lia.
Qed.

Lemma buf_slice_length b i n : length (buf_slice b i n) = Z.to_nat n.
Proof. unfold buf_slice. rewrite length_map, length_seq. reflexivity. Qed.

(** What the walk reads of the header at [p] lies between its signature and
    its name. *)
Lemma header_fields_agree b1 b2 p :
  (forall i, p + 4 <= i < p + 46 -> buf_get b1 i = buf_get b2 i) ->
  CDRFileHeader.nVersionNeeded (CDRFileHeader.read b1 p)
  = CDRFileHeader.nVersionNeeded (CDRFileHeader.read b2 p)
  /\ CDRFileHeader.nMethod (CDRFileHeader.read b1 p)
     = CDRFileHeader.nMethod (CDRFileHeader.read b2 p)
  /\ CDRFileHeader.desc (CDRFileHeader.read b1 p)
     = CDRFileHeader.desc (CDRFileHeader.read b2 p)
  /\ CDRFileHeader.nFileNameLength (CDRFileHeader.read b1 p)
     = CDRFileHeader.nFileNameLength (CDRFileHeader.read b2 p)
  /\ CDRFileHeader.nExtraFieldLength (CDRFileHeader.read b1 p)
     = CDRFileHeader.nExtraFieldLength (CDRFileHeader.read b2 p)
  /\ CDRFileHeader.nFileCommentLength (CDRFileHeader.read b1 p)
     = CDRFileHeader.nFileCommentLength (CDRFileHeader.read b2 p)
  /\ CDRFileHeader.lLocalHeaderOffset (CDRFileHeader.read b1 p)
     = CDRFileHeader.lLocalHeaderOffset (CDRFileHeader.read b2 p).
Proof.
  intros H. cbn [CDRFileHeader.read CDRFileHeader.nVersionNeeded CDRFileHeader.nMethod
                 CDRFileHeader.desc CDRFileHeader.nFileNameLength
                 CDRFileHeader.nExtraFieldLength CDRFileHeader.nFileCommentLength
                 CDRFileHeader.lLocalHeaderOffset].
  unfold DataDescriptor.read, read_u32, read_u16.
  rewrite !H by lia. auto 10.
Qed.

Lemma record_agree b1 b2 p :
  agree_from (p + 4) b1 b2 ->
  CDRFileHeader.nVersionNeeded (CDRFileHeader.read b1 p)
  = CDRFileHeader.nVersionNeeded (CDRFileHeader.read b2 p)
  /\ CDRFileHeader.nMethod (CDRFileHeader.read b1 p)
     = CDRFileHeader.nMethod (CDRFileHeader.read b2 p)
  /\ CDRFileHeader.desc (CDRFileHeader.read b1 p)
     = CDRFileHeader.desc (CDRFileHeader.read b2 p)
  /\ CDRFileHeader.nFileNameLength (CDRFileHeader.read b1 p)
     = CDRFileHeader.nFileNameLength (CDRFileHeader.read b2 p)
  /\ CDRFileHeader.nExtraFieldLength (CDRFileHeader.read b1 p)
     = CDRFileHeader.nExtraFieldLength (CDRFileHeader.read b2 p)
  /\ CDRFileHeader.nFileCommentLength (CDRFileHeader.read b1 p)
     = CDRFileHeader.nFileCommentLength (CDRFileHeader.read b2 p)
  /\ CDRFileHeader.lLocalHeaderOffset (CDRFileHeader.read b1 p)
     = CDRFileHeader.lLocalHeaderOffset (CDRFileHeader.read b2 p).
Proof.
  intros [_ H]. apply header_fields_agree. intros i Hi. apply H. lia.
Qed.


Lemma record_is_directory_agree b1 b2 p :
  agree_from (p + 4) b1 b2 -> record_is_directory b1 p = record_is_directory b2 p.
Proof.
  intros H. destruct (record_agree _ _ _ H) as (_ & _ & _ & H1 & _).
  unfold record_is_directory. rewrite H1.
  pose proof (CDRFileHeader_ranges b2 p) as (_ & Hr & _).
  destruct H as [_ H]. rewrite H; [reflexivity|].
  unfold CDRFileHeader.sizeof. lia.
Qed.

Lemma record_path_agree b1 b2 p :
  agree_from (p + 4) b1 b2 -> record_path b1 p = record_path b2 p.
Proof.
  intros H. destruct (record_agree _ _ _ H) as (_ & _ & _ & H1 & _).
  unfold record_path. rewrite H1.
  rewrite (buf_slice_agree (p + 4) b1 b2); [reflexivity | exact H |].
  unfold CDRFileHeader.sizeof. lia.
Qed.




Lemma CDR_file_paths_agree b1 b2 records :
  (forall q, q ∈ records -> agree_from (q + 4) b1 b2) ->
  map (record_path b1) (CDR_files b1 records)
  = map (record_path b2) (CDR_files b2 records).
Proof.
  unfold CDR_files. induction records as [|q records IH]; intros H; [reflexivity|].
  rewrite !filter_cons.
  rewrite (record_is_directory_agree b1 b2 q) by (apply H; left).
  destruct (decide (record_is_directory b2 q = false)).
  - cbn [map]. rewrite (record_path_agree b1 b2 q) by (apply H; left).
    f_equal. apply IH. intros q' Hq'. apply H. right. exact Hq'.
  - apply IH. intros q' Hq'. apply H. right. exact Hq'.
Qed.

Lemma CDR_files_length_agree b1 b2 records :
  (forall q, q ∈ records -> agree_from (q + 4) b1 b2) ->
  length (CDR_files b1 records) = length (CDR_files b2 records).
Proof.
  intros H. rewrite <- (length_map (record_path b1)), <- (length_map (record_path b2)).
  f_equal. apply CDR_file_paths_agree, H.
Qed.

(** ** C strings in a buffer *)

Lemma c_str_prefix l : forall d,
  (forall k, (k < length l)%nat -> d !! k = l !! k) ->
  d !! length l = Some x00 -> c_str d = c_str l.
Proof.
  induction l as [|a l IH]; intros d Hk Hz.
  - destruct d as [|b d]; [discriminate|]. cbn in Hz. injection Hz as ->. reflexivity.
  - destruct d as [|b d]; [discriminate|].
    pose proof (Hk 0%nat ltac:(cbn; lia)) as H0. cbn in H0. injection H0 as ->.
    cbn [c_str]. destruct (bool_decide (a = x00)); [reflexivity|].
    f_equal. apply IH.
    + intros k Hlt. apply (Hk (S k)). cbn. lia.
    + exact Hz.
Qed.

Lemma c_str_at_written buf str name :
  0 <= str -> str + Z.of_nat (length name) < Z.of_nat (length buf) ->
  c_str_at (buf_write (buf_write buf str name) (str + Z.of_nat (length name)) [x00]) str
  = c_str name.
Proof.
  intros Hs Hlen. unfold c_str_at, buf_write. apply c_str_prefix.
  - intros k Hk. rewrite lookup_drop.
    rewrite list_lookup_inserts_lt by lia.
    rewrite list_lookup_inserts by lia. f_equal. lia.
  - rewrite lookup_drop.
    rewrite list_lookup_inserts by (rewrite ?length_inserts; cbn; lia).
    replace (Z.to_nat str + length name - Z.to_nat (str + Z.of_nat (length name)))%nat
      with 0%nat by lia.
    reflexivity.
Qed.

(** ** The walk and the tree *)

Section TreeFacts.
Context {env : ZipDirEnv}.


















End TreeFacts.

(** ** Runs on concrete archives *)

(** C3. The backwards scan does not treat every position alike.  On a
    65558-byte archive the start of the last window is clamped from 0 to 1
    after the window pointer has been set for a start at 0 (index 234 of the
    buffer): the 21 bytes read land at indices 234 to 254, index 255 keeps a
    byte of the window before (offset 277 of the file), and the scan reads
    the record at position q from index 233 + q on, into the tail kept at
    index 256.  A CDREnd record at offset 21 whose comment length is right for the
    end of the file (65515) is therefore not seen, and the locator throws
    ZD_ERROR_NO_CDR; with the comment length one more or one less it throws
    ZD_ERROR_NO_CDR as well, not ZD_ERROR_DATA_IS_CORRUPT.  And a CDREnd
    record at offset 1 whose comment length field (0xFEFF) differs from what
    the end of the file needs (0xFFFF) is accepted, since the high byte is
    taken from offset 277 of the file. *)
Theorem FindCDREnd_clamped_window :
  CDREnd.lSignature_at (file_read (clamped_window_archive 65515) 21 22) 0
  = CDREnd.SIGNATURE
  /\ CDREnd.nCommentLength_at (file_read (clamped_window_archive 65515) 21 22) 0
     = file_size (clamped_window_archive 65515) - 21 - CDREnd.sizeof
  /\ locator_outcome (FindCDREnd (factory_on ZD_INIT_DEFAULT
                                    (clamped_window_archive 65515)))
     = (Some false, [ZD_ERROR_NO_CDR], 0)
  /\ locator_outcome (FindCDREnd (factory_on ZD_INIT_DEFAULT
                                    (clamped_window_archive 65514)))
     = (Some false, [ZD_ERROR_NO_CDR], 0)
  /\ locator_outcome (FindCDREnd (factory_on ZD_INIT_DEFAULT
                                    (clamped_window_archive 65516)))
     = (Some false, [ZD_ERROR_NO_CDR], 0)
  /\ CDREnd.lSignature_at (file_read stale_byte_archive 1 22) 0 = CDREnd.SIGNATURE
  /\ CDREnd.nCommentLength_at (file_read stale_byte_archive 1 22) 0 = 0xFEFF
  /\ file_size stale_byte_archive - 1 - CDREnd.sizeof = 0xFFFF
  /\ locator_outcome (FindCDREnd (factory_on ZD_INIT_DEFAULT stale_byte_archive))
     = (Some true, [], 1).
Proof. repeat (apply conj); vm_compute; reflexivity. Qed.

(** C1. [Factory::open] does return partially populated caches.  When the
    second CDR record asks for version 21, [BuildFileEntryMap] throws
    ZD_ERROR_UNSUPPORTED and stops, [Prepare] drops its result, and the caller
    gets a cache that holds the one entry parsed before the failing record.
    When the local header of an entry does not match its CDR record (full
    init), [InitDataOffset] throws ZD_ERROR_VALIDATION_FAILED, and the caller
    gets a cache that holds the entry all the same, with no data offset. *)
Theorem Factory_open_partial_cache :
  opened_leaves (Factory_open ZD_INIT_DEFAULT read_only_flags
                   (fs_of (file_of_list version_21_archive)))
  = Some [(name_a_txt,
           FileEntryBase.mk (DataDescriptor.mk 0 5 5) 0 0 INVALID_DATA_OFFSET 0 0)]
  /\ m_errors (result_state (Factory_open ZD_INIT_DEFAULT read_only_flags
                               (fs_of (file_of_list version_21_archive))))
     = [ZD_ERROR_UNSUPPORTED]
  /\ opened_leaves (Factory_open ZD_INIT_FULL read_only_flags
                      (fs_of (file_of_list mismatch_archive)))
     = Some [(name_a_txt,
              FileEntryBase.mk (DataDescriptor.mk 0 5 5) 0 0 INVALID_DATA_OFFSET 0 0);
             (name_dir_b,
              FileEntryBase.mk (DataDescriptor.mk 0 3 3) 0 40 79 82 0)]
  /\ m_errors (result_state (Factory_open ZD_INIT_FULL read_only_flags
                               (fs_of (file_of_list mismatch_archive))))
     = [ZD_ERROR_VALIDATION_FAILED].
Proof. repeat (apply conj); vm_compute; reflexivity. Qed.

(** C2 as stated does not hold: with the full init method and no encryption,
    [InitDataOffset] reads the local header of dir/B (35 bytes at offset 40)
    and the data offset it computes, 79, includes the 4 bytes of extra field
    of the local header; the offset from the CDR record alone would be 75. *)
Lemma InitDataOffset_full_reads_local_header :
  opened_leaves (Factory_open ZD_INIT_FULL read_only_flags
                   (fs_of (file_of_list sample_archive)))
  = Some [(name_a_txt, FileEntryBase.mk (DataDescriptor.mk 0 5 5) 0 0 35 40 0);
          (name_dir_b,
           FileEntryBase.mk (DataDescriptor.mk 0 3 3) 0 40
             (40 + LocalFileHeader.sizeof + 5 + 4) 82 0)]
  /\ 40 + LocalFileHeader.sizeof + 5 + 4 <> 40 + LocalFileHeader.sizeof + 5
  /\ option_map Cache.m_encryptedHeaders
       (opened (Factory_open ZD_INIT_FULL read_only_flags
                  (fs_of (file_of_list sample_archive))))
     = Some HEADERS_NOT_ENCRYPTED
  /\ m_errors (result_state (Factory_open ZD_INIT_FULL read_only_flags
                               (fs_of (file_of_list sample_archive)))) = []
  /\ In (IoRead 40 (LocalFileHeader.sizeof + 5) true)
       (m_io (result_state (Factory_open ZD_INIT_FULL read_only_flags
                              (fs_of (file_of_list sample_archive))))).
Proof.
  split; [vm_compute; reflexivity|].
  split; [vm_compute; discriminate|].
  split; [vm_compute; reflexivity|].
  split; [vm_compute; reflexivity|].
  vm_compute. tauto.
Qed.

(** C4 as stated does not hold: an entry whose local header offset equals the
    CDR offset (both 0 here) is accepted. *)
Lemma AddFileEntry_accepts_offset_equal_to_cdr :
  opened_leaves (Factory_open ZD_INIT_DEFAULT read_only_flags
                   (fs_of (file_of_list directory_only_archive)))
  = Some [(name_a,
           FileEntryBase.mk (DataDescriptor.mk 0 0 0) 0 0 INVALID_DATA_OFFSET 0 0)]
  /\ opened_lCDROffset (Factory_open ZD_INIT_DEFAULT read_only_flags
                          (fs_of (file_of_list directory_only_archive)))
     = Some 0
  /\ m_errors (result_state (Factory_open ZD_INIT_DEFAULT read_only_flags
                               (fs_of (file_of_list directory_only_archive)))) = [].
Proof. repeat (apply conj); vm_compute; reflexivity. Qed.


(** ** The theorems at concrete archives *)

(** Closes a goal on concrete data by evaluation. *)
Ltac by_compute :=
  vm_compute;
  first [ reflexivity | exact I
        | let H := fresh in intros H; discriminate H ].

Lemma FindCDREnd_size_bounds_witness :
  (FindCDREnd (factory_on ZD_INIT_DEFAULT oversize_file)
   = Fatal (set_filePos (file_size oversize_file)
              (set_io (m_io (factory_on ZD_INIT_DEFAULT oversize_file) ++ [IoSeekEnd])
                 (factory_on ZD_INIT_DEFAULT oversize_file))))
  /\ (FindCDREnd (factory_on ZD_INIT_DEFAULT empty_file)
      = Ret false
          (set_warnings
             (m_warnings (factory_on ZD_INIT_DEFAULT empty_file) ++ [WarnFileTooSmall])
             (set_nZipFileSize (file_size empty_file)
                (set_filePos (file_size empty_file)
                   (set_io (m_io (factory_on ZD_INIT_DEFAULT empty_file) ++ [IoSeekEnd])
                      (factory_on ZD_INIT_DEFAULT empty_file))))))
  /\ (exists b s' tail,
        FindCDREnd (factory_on ZD_INIT_DEFAULT (file_of_list sample_archive)) = Ret b s'
        /\ m_io s'
           = m_io (factory_on ZD_INIT_DEFAULT (file_of_list sample_archive))
             ++ [IoSeekEnd;
                 IoSeek (Z.max 0 (file_size (file_of_list sample_archive)
                                  - CDRSearchWindowSize));
                 IoRead (Z.max 0 (file_size (file_of_list sample_archive)
                                  - CDRSearchWindowSize))
                   (Z.min (file_size (file_of_list sample_archive)) CDRSearchWindowSize)
                   true] ++ tail
        /\ m_warnings s'
           = m_warnings (factory_on ZD_INIT_DEFAULT (file_of_list sample_archive))).
Proof.
  pose proof (FindCDREnd_size_bounds (factory_on ZD_INIT_DEFAULT oversize_file)
                oversize_file eq_refl) as (Hlarge & _ & _).
  pose proof (FindCDREnd_size_bounds (factory_on ZD_INIT_DEFAULT empty_file)
                empty_file eq_refl) as (_ & Hsmall & _).
  pose proof (FindCDREnd_size_bounds
                (factory_on ZD_INIT_DEFAULT (file_of_list sample_archive))
                (file_of_list sample_archive) eq_refl) as (_ & _ & Hscan).
  split; [|split].
  - refine (proj1 (Hlarge _)). by_compute.
  - refine (proj1 (Hsmall _)). by_compute.
  - refine (Hscan _). split; by_compute.
Defined.

Lemma Prepare_trailer_comment_length_witness :
  exists b s',
    Prepare_trailer (located ZD_INIT_DEFAULT trailer_archive) = Ret b s'
    /\ (b = true ->
        CDREnd.nCommentLength (m_CDREnd (located ZD_INIT_DEFAULT trailer_archive))
        = expected_comment_length (m_headerExtended s'))
    /\ (CDREnd.nCommentLength (m_CDREnd (located ZD_INIT_DEFAULT trailer_archive))
        <> expected_comment_length (m_headerExtended s') ->
        b = false /\ exists errs, m_errors s' = errs ++ [ZD_ERROR_DATA_IS_CORRUPT])
    /\ (forall f,
          m_fileHandle (located ZD_INIT_DEFAULT trailer_archive) = Some f ->
          trailer_pos (m_CDREnd (located ZD_INIT_DEFAULT trailer_archive))
          + CryCustomExtendedHeader.sizeof <= file_size f ->
          m_headerExtended s'
          = trailer_of f (m_CDREnd (located ZD_INIT_DEFAULT trailer_archive))).
Proof.
  apply (Prepare_trailer_comment_length (located ZD_INIT_DEFAULT trailer_archive)).
  by_compute.
Defined.

Lemma Prepare_multivolume_witness :
  Prepare (factory_on ZD_INIT_DEFAULT (file_of_list multivolume_archive))
  = Ret false
      (set_errors
         (m_errors (result_state
                      ((Prepare_legacy_hint ;; Prepare_trailer)
                         (located ZD_INIT_DEFAULT multivolume_archive)))
          ++ [ZD_ERROR_UNSUPPORTED])
         (result_state
            ((Prepare_legacy_hint ;; Prepare_trailer)
               (located ZD_INIT_DEFAULT multivolume_archive)))).
Proof.
  apply (Prepare_multivolume
           (factory_on ZD_INIT_DEFAULT (file_of_list multivolume_archive))
           (located ZD_INIT_DEFAULT multivolume_archive)
           (result_state ((Prepare_legacy_hint ;; Prepare_trailer)
                            (located ZD_INIT_DEFAULT multivolume_archive)))).
  - by_compute.
  - by_compute.
  - left. by_compute.
Defined.

Lemma Prepare_conflicting_encryption_witness :
  exists s',
    Prepare (factory_on ZD_INIT_DEFAULT (file_of_list conflicting_archive)) = Ret false s'
    /\ m_errors s'
       = m_errors (located ZD_INIT_DEFAULT conflicting_archive)
         ++ [ZD_ERROR_DATA_IS_CORRUPT].
Proof.
  destruct (Prepare_conflicting_encryption
              (factory_on ZD_INIT_DEFAULT (file_of_list conflicting_archive))
              (located ZD_INIT_DEFAULT conflicting_archive)
              (file_of_list conflicting_archive))
    as (s' & HP & He & _).
  - by_compute.
  - by_compute.
  - left. by_compute.
  - by_compute.
  - by_compute.
  - by_compute.
  - exists s'. split; [exact HP | exact He].
Defined.

Lemma AddFileEntry_zero_compressed_witness :
  validator_invoked
    (loaded ZD_INIT_VALIDATE directory_only_archive directory_only_cdr)
    (header_at (loaded ZD_INIT_VALIDATE directory_only_archive directory_only_cdr) 0)
  = false.
Proof.
  apply (AddFileEntry_zero_compressed
           (loaded ZD_INIT_VALIDATE directory_only_archive directory_only_cdr) 46 0 0).
  by_compute.
Defined.

Lemma InitDataOffset_offset_source_witness :
  exists fe' s' tail,
    InitDataOffset
      (FileEntryBase_ctor (header_at (loaded ZD_INIT_FULL sample_archive sample_cdr) 101) 0)
      101 (loaded ZD_INIT_FULL sample_archive sample_cdr)
    = Ret fe' s'
    /\ m_io s'
       = m_io (loaded ZD_INIT_FULL sample_archive sample_cdr)
         ++ [IoSeek 40; IoRead 40 35 true] ++ tail.
Proof.
  destruct (proj1 (proj2 (InitDataOffset_offset_source
              (loaded ZD_INIT_FULL sample_archive sample_cdr)
              (file_of_list sample_archive)
              (FileEntryBase_ctor
                 (header_at (loaded ZD_INIT_FULL sample_archive sample_cdr) 101) 0)
              147 101 0
              ltac:(by_compute) ltac:(by_compute)))
              ltac:(by_compute) ltac:(by_compute) ltac:(left; by_compute))
    as (fe' & s' & tail & HR & Hio & _).
  exists fe', s', tail. split; [exact HR | exact Hio].
Defined.

Lemma Prepare_entries_within_bounds_witness :
  (forall path fe,
     m_treeFileEntries
       (result_state (Prepare (factory_on ZD_INIT_DEFAULT (file_of_list sample_archive))))
     !! path = Some fe ->
     FileEntryBase.nFileHeaderOffset fe
     <= CDREnd.lCDROffset
          (m_CDREnd (result_state
                       (Prepare (factory_on ZD_INIT_DEFAULT (file_of_list sample_archive)))))
     /\ CDREnd.lCDROffset
          (m_CDREnd (result_state
                       (Prepare (factory_on ZD_INIT_DEFAULT (file_of_list sample_archive)))))
        < file_size (file_of_list sample_archive))
  /\ m_treeFileEntries
       (result_state (Prepare (factory_on ZD_INIT_DEFAULT (file_of_list sample_archive))))
     !! name_dir_b
     = Some (FileEntryBase.mk (DataDescriptor.mk 0 3 3) 0 40 INVALID_DATA_OFFSET 0 0).
Proof.
  split.
  - apply (Prepare_entries_within_bounds
             (factory_on ZD_INIT_DEFAULT (file_of_list sample_archive))
             (file_of_list sample_archive) true
             (result_state (Prepare (factory_on ZD_INIT_DEFAULT
                                       (file_of_list sample_archive))))).
    + reflexivity.
    + reflexivity.
    + by_compute.
  - by_compute.
Defined.


(** * Further properties of the factory *)

(** ** The locator: outcomes and termination *)

Lemma returns_conj {A} (m : M A) s (Q1 Q2 : A -> CacheFactory -> Prop) :
  returns m s Q1 -> returns m s Q2 -> returns m s (fun a s' => Q1 a s' /\ Q2 a s').
Proof. unfold returns. destruct (m s); auto. Qed.

Lemma FindCDREnd_scan_errors n buf pWindow nNewBufPos nFileSize nScanPos s :
  returns (FindCDREnd_scan n buf pWindow nNewBufPos nFileSize nScanPos) s
    (fun x s' =>
       (fst x = None /\ m_errors s' = m_errors s)
       \/ (fst x = Some false
           /\ m_errors s' = m_errors s ++ [ZD_ERROR_DATA_IS_CORRUPT])).
Proof.
  revert nScanPos s. induction n as [|n IH]; intros nScanPos s; cbn [FindCDREnd_scan].
  - apply returns_ret. auto.
  - destruct (nScanPos <? nNewBufPos); [apply returns_ret; auto|].
    cbv zeta. destruct (_ =? CDREnd.SIGNATURE).
    + destruct (_ =? _); destruct_state s; unfold returns; msimpl; auto.
    + destruct (nScanPos =? 0); [apply returns_ret; auto | apply IH].
Qed.

(** The window loop on an open file: with [fuel] rounds for the
    [nOldBufPos - L] bytes that are left to scan, where [L] is the lowest
    offset a CDREnd record can have, every read succeeds and the loop ends
    in one of its three returns. *)
Lemma FindCDREnd_windows_outcome f fuel : forall buf nOldBufPos nScanPos s,
  m_fileHandle s = Some f ->
  file_size f <= pakSizeLimit ->
  Z.max 0 (file_size f - CDREnd.sizeof - 0xFFFF) <= nOldBufPos <= file_size f ->
  nOldBufPos - Z.max 0 (file_size f - CDREnd.sizeof - 0xFFFF)
  <= CDRSearchWindowSize * (Z.of_nat fuel - 1) ->
  CDREnd.lSignature (m_CDREnd s) <> CDREnd.SIGNATURE ->
  returns (FindCDREnd_windows fuel buf (file_size f) nOldBufPos nScanPos) s
    (fun b s' =>
       m_warnings s' = m_warnings s
       /\ ((b = true /\ m_errors s' = m_errors s)
           \/ (b = false
               /\ (m_errors s' = m_errors s ++ [ZD_ERROR_NO_CDR]
                   \/ m_errors s' = m_errors s ++ [ZD_ERROR_DATA_IS_CORRUPT])))).
Proof.
  change pakSizeLimit with 2147483648. unfold CDREnd.sizeof, CDRSearchWindowSize.
  change 0xFFFF with 65535. change 0x100 with 256.
  set (F := file_size f).
  induction fuel as [|fuel IH]; intros buf nOld nScan s Hf Hlim Hold Hfuel Hsig.
  { exfalso. cbn in Hfuel. lia. }
  cbn [FindCDREnd_windows]. cbv zeta.
  unfold CDREnd.sizeof, CDRSearchWindowSize. change 0xFFFF with 65535.
  change 0x100 with 256.
  set (new0 := if nOld <=? 256 then 0 else nOld - 256).
  set (new := if (F >? 22 + 65535) && (new0 <? F - 22 - 65535)
              then F - 22 - 65535 else new0).
  assert (Hnew : new = Z.max (Z.max 0 (F - 22 - 65535)) (Z.max 0 (nOld - 256))).
  { subst new new0. destruct (nOld <=? 256) eqn:E1;
      destruct (F >? 22 + 65535) eqn:E2; cbn [andb];
      try destruct (_ <? F - 22 - 65535) eqn:E3; bool_to_prop; lia. }
  clearbody new. clear new0.
  destruct (new >=? nOld) eqn:Hge.
  { destruct_state s. unfold returns. msimpl. split; [reflexivity|]. auto. }
  bool_to_prop.
  assert (Hu1 : u32 new = new) by (apply u32_small; lia).
  assert (Hu2 : u32 (nOld - new) = nOld - new) by (apply u32_small; lia).
  apply returns_bind. unfold returns at 1. rewrite Seek_eq, Hf, Hu1.
  set (s1 := set_filePos new _).
  assert (H1 : m_fileHandle s1 = Some f /\ m_filePos s1 = new
               /\ m_errors s1 = m_errors s /\ m_warnings s1 = m_warnings s
               /\ m_CDREnd s1 = m_CDREnd s)
    by (subst s1; destruct_state s; cbn in *; auto).
  clearbody s1. destruct H1 as (Hf1 & Hp1 & He1 & Hw1 & HE1).
  apply returns_bind. unfold returns at 1.
  rewrite (Read_in_range _ _ f Hf1) by (rewrite ?Hu2, ?Hp1; fold F; lia).
  set (s2 := Read_ok_state _ s1).
  assert (H2 : m_fileHandle s2 = Some f
               /\ m_errors s2 = m_errors s /\ m_warnings s2 = m_warnings s
               /\ m_CDREnd s2 = m_CDREnd s)
    by (subst s2; unfold Read_ok_state; rewrite <- He1, <- Hw1, <- HE1, <- Hf1;
        destruct_state s1; cbn; auto).
  clearbody s2. destruct H2 as (Hf2 & He2 & Hw2 & HE2).
  apply returns_bind.
  eapply returns_mono.
  { apply returns_conj.
    - apply FindCDREnd_scan_errors.
    - apply FindCDREnd_scan_returns. }
  intros x s3 (Herr & (_ & Hw3 & _ & Hfr3)).
  cbv beta.
  assert (Hf3 : m_fileHandle s3 = Some f)
    by (unfold locator_frame in Hfr3; congruence).
  destruct Herr as [[Hx He3] | [Hx He3]]; rewrite Hx.
  2:{ apply returns_ret. split; [congruence|]. right. split; [reflexivity|].
      right. congruence. }
  unfold bind at 1, get at 1. unfold returns at 1. cbv beta iota.
  destruct (_ =? CDREnd.SIGNATURE) eqn:Hs3.
  { apply returns_ret. split; [congruence|]. left. split; [reflexivity | congruence]. }
  bool_to_prop.
  eapply returns_mono.
  { apply IH; [exact Hf3 | exact Hlim | lia | lia | exact Hs3]. }
  intros b s4 (Hw4 & Hres). cbv beta. split; [congruence|].
  rewrite <- He2, <- He3. exact Hres.
Qed.

(** X1. When the locator returns [true] on an open file, the record it
    leaves in [m_CDREnd] has the CDREnd signature, its comment length is the
    number of bytes from the end of the record to the end of the file, the
    position it leaves in [m_nCDREndPos] lies between 0 and the file size less
    sizeof(CDREnd), [m_nZipFileSize] is the file size, and the members the
    locator does not own are as they were. *)
Theorem FindCDREnd_true_located (s : CacheFactory) (f : File) (s' : CacheFactory) :
  m_fileHandle s = Some f ->
  FindCDREnd s = Ret true s' ->
  CDREnd_located (file_size f) s'
  /\ m_nZipFileSize s' = file_size f
  /\ locator_frame s' = locator_frame s.
Proof.
  intros Hf HR. destruct (FindCDREnd_post s f true s' Hf HR) as (Hfr & HZ & Hloc).
  auto.
Qed.

(** X2. On an open file of at most 2^31 bytes the locator returns, and in
    one of four ways: [true] with no error thrown; [false] after throwing
    ZD_ERROR_NO_CDR; [false] after throwing ZD_ERROR_DATA_IS_CORRUPT; or, for
    a file shorter than a CDREnd record, [false] after the warning and with no
    error.  So no read of a search window fails, and the statement after the
    window loop (ZD_ERROR_UNEXPECTED) is never reached: the loop ends by one
    of its own returns. *)
Theorem FindCDREnd_outcomes (s : CacheFactory) (f : File) :
  m_fileHandle s = Some f ->
  file_size f <= pakSizeLimit ->
  exists b s',
    FindCDREnd s = Ret b s'
    /\ ((b = true /\ m_errors s' = m_errors s /\ m_warnings s' = m_warnings s)
        \/ (b = false /\ m_warnings s' = m_warnings s
            /\ (m_errors s' = m_errors s ++ [ZD_ERROR_NO_CDR]
                \/ m_errors s' = m_errors s ++ [ZD_ERROR_DATA_IS_CORRUPT]))
        \/ (b = false /\ file_size f < CDREnd.sizeof /\ m_errors s' = m_errors s
            /\ m_warnings s' = m_warnings s ++ [WarnFileTooSmall])).
Proof.
  intros Hf Hlim.
  destruct (Z.lt_ge_cases (file_size f) CDREnd.sizeof) as [Hsmall | Hbig].
  { rewrite (FindCDREnd_too_small s f Hf Hsmall). eexists _, _. split; [reflexivity|].
    right. right. destruct_state s. auto. }
  unfold FindCDREnd, Seek_END, Tell. msimpl. rewrite Hf. msimpl. rewrite Hf. msimpl.
  destruct (file_size f >? pakSizeLimit) eqn:E1; [bool_to_prop; lia|].
  destruct (file_size f <? CDREnd.sizeof) eqn:E2; [bool_to_prop; lia|].
  match goal with |- context [FindCDREnd_windows ?n ?rb ?F ?o ?p ?st] =>
    destruct (returns_inv _ _ _
                (FindCDREnd_windows_outcome f n rb o p st
                   ltac:(destruct_state s; exact Hf) Hlim
                   ltac:(unfold CDREnd.sizeof in *; lia)
                   ltac:(unfold FindCDREnd_fuel, CDREnd.sizeof, CDRSearchWindowSize in *;
                         change 0xFFFF with 65535; change 0x100 with 256;
                         pose proof (Z.div_mod (Z.min (file_size f) (22 + 65535)) 256
                                       ltac:(lia));
                         pose proof (Z.mod_pos_bound
                                       (Z.min (file_size f) (22 + 65535)) 256 ltac:(lia));
                         assert (0 <= Z.min (file_size f) (22 + 65535) / 256)
                           by (apply Z.div_pos; lia);
                         lia)
                   ltac:(destruct_state s; cbn; discriminate)))
      as (b & s' & HR & Hw & Hres)
  end.
  exists b, s'. split; [exact HR|].
  assert (He0 : forall st, m_errors st = m_errors s' ->
                  m_errors st = m_errors s' /\ True) by auto.
  destruct_state s. cbn [m_errors m_warnings] in *.
  destruct Hres as [(-> & He) | (-> & He)]; [left | right; left]; auto.
Qed.

(** ** Prepare and the walk's result *)

Section PrepareMore.
Context {env : ZipDirEnv}.

Lemma CDREnd_read_ranges buf p :
  0 <= CDREnd.lCDRSize (CDREnd.read buf p) < 4294967296
  /\ 0 <= CDREnd.lCDROffset (CDREnd.read buf p) < 4294967296.
Proof. split; apply read_u32_range. Qed.

Lemma FindCDREnd_scan_record n buf pWindow nNewBufPos nFileSize nScanPos s :
  returns (FindCDREnd_scan n buf pWindow nNewBufPos nFileSize nScanPos) s
    (fun _ s' => m_CDREnd s' = m_CDREnd s
                 \/ exists p, m_CDREnd s' = CDREnd.read buf p).
Proof.
  revert nScanPos s. induction n as [|n IH]; intros nScanPos s; cbn [FindCDREnd_scan].
  - apply returns_ret. auto.
  - destruct (nScanPos <? nNewBufPos); [apply returns_ret; auto|].
    cbv zeta. destruct (_ =? CDREnd.SIGNATURE).
    + destruct (_ =? _); destruct_state s; unfold returns; msimpl; eauto.
    + destruct (nScanPos =? 0); [apply returns_ret; auto | apply IH].
Qed.

Lemma FindCDREnd_windows_record fuel : forall buf nFileSize nOldBufPos nScanPos s,
  returns (FindCDREnd_windows fuel buf nFileSize nOldBufPos nScanPos) s
    (fun _ s' => m_CDREnd s' = m_CDREnd s
                 \/ exists b p, m_CDREnd s' = CDREnd.read b p).
Proof.
  induction fuel as [|fuel IH]; intros buf nFileSize nOldBufPos nScanPos s;
    cbn [FindCDREnd_windows].
  - destruct_state s. unfold returns. msimpl. auto.
  - cbv zeta. destruct (_ >=? nOldBufPos).
    + destruct_state s. unfold returns. msimpl. auto.
    + apply returns_bind. eapply returns_mono; [apply Seek_keeps|].
      intros u s1 H1. cbv beta in H1 |- *.
      apply returns_bind. eapply returns_mono; [apply Read_keeps|].
      intros r s2 H2. cbv beta in H2 |- *.
      assert (HE : m_CDREnd s2 = m_CDREnd s)
        by (unfold validator_frame in *; congruence).
      apply returns_bind. eapply returns_mono; [apply FindCDREnd_scan_record|].
      intros x s3 H3. cbv beta in H3 |- *.
      assert (H3' : m_CDREnd s3 = m_CDREnd s
                    \/ exists b p, m_CDREnd s3 = CDREnd.read b p).
      { destruct H3 as [-> | (p & ->)]; [left; exact HE | right; eauto]. }
      destruct (fst x); [apply returns_ret; exact H3'|].
      unfold bind at 1, get at 1. unfold returns at 1. cbv beta iota.
      destruct (_ =? CDREnd.SIGNATURE); [apply returns_ret; exact H3'|].
      eapply returns_mono; [apply IH|].
      intros b s4 [-> | H4]; [exact H3' | right; exact H4].
Qed.

(** Whatever the state of the file handle, the locator touches only the
    members it owns. *)
Lemma FindCDREnd_frame s b s' :
  FindCDREnd s = Ret b s' -> locator_frame s' = locator_frame s.
Proof.
  destruct (m_fileHandle s) as [f|] eqn:Hf.
  { intros HR. apply (FindCDREnd_post s f b s' Hf HR). }
  unfold FindCDREnd, Seek_END, Tell. msimpl. rewrite Hf. msimpl. rewrite Hf. msimpl.
  change (0 >? pakSizeLimit) with false. change (0 <? CDREnd.sizeof) with true.
  cbv iota. intros [= <- <-]. destruct_state s. reflexivity.
Qed.

Lemma Prepare_legacy_hint_frame s s' :
  Prepare_legacy_hint s = Ret tt s' ->
  trailer_frame s'
  = (m_nInitMethod s, m_nFlags s, m_bBuildFileEntryMap s, m_bBuildFileEntryTree s,
     m_bBuildOptimizedFileEntry s, m_fileHandle s, m_nZipFileSize s, m_nCDREndPos s,
     CDREnd.set_nDisk (Z.land (CDREnd.nDisk (m_CDREnd s)) 0x3fff) (m_CDREnd s),
     m_headerEncryption s, m_CDR_buffer s, m_mapFileEntries s, m_treeFileEntries s,
     m_warnings s).
Proof.
  rewrite Prepare_legacy_hint_eq. intros [= <-].
  destruct_state s. destruct (_ || _); reflexivity.
Qed.

(** X4. An archive whose headers are encrypted is never parsed: with any
    encryption kind other than none and a directory that is not empty,
    [BuildFileEntryMap] throws ZD_ERROR_CORRUPTED_DATA and returns [false]
    with the tree and the map as they were; when its read of the directory
    succeeded, the warning about the unsupported method is the last one
    logged. *)
Theorem BuildFileEntryMap_encrypted (s : CacheFactory) :
  m_encryptedHeaders s <> HEADERS_NOT_ENCRYPTED ->
  0 < CDREnd.lCDRSize (m_CDREnd s) < 4294967296 - 16 ->
  exists s',
    BuildFileEntryMap s = Ret false s'
    /\ m_treeFileEntries s' = m_treeFileEntries s
    /\ m_mapFileEntries s' = m_mapFileEntries s
    /\ (exists errs, m_errors s' = errs ++ [ZD_ERROR_CORRUPTED_DATA])
    /\ (forall f, m_fileHandle s = Some f ->
          u32 (CDREnd.lCDROffset (m_CDREnd s)) + CDREnd.lCDRSize (m_CDREnd s)
          <= file_size f ->
          m_warnings s' = m_warnings s ++ [WarnEncryptedPak]
          /\ m_errors s' = m_errors s ++ [ZD_ERROR_CORRUPTED_DATA]).
Proof.
  intros Henc Hsize.
  destruct s as [a1 a2 a3 a4 a5 hnd pos a8 a9 E enc sg ext hs he cdr mp tr errs w io].
  cbn [m_encryptedHeaders m_CDREnd m_treeFileEntries m_mapFileEntries m_errors
       m_warnings m_fileHandle] in *.
  assert (Hu2 : u32 (CDREnd.lCDRSize E) = CDREnd.lCDRSize E) by (apply u32_small; lia).
  assert (Hu3 : u32 (CDREnd.lCDRSize E + 16) = CDREnd.lCDRSize E + 16)
    by (apply u32_small; lia).
  assert (Hne : bool_decide
                  (resize (Z.to_nat (CDREnd.lCDRSize E + 16)) x00 cdr = []) = false).
  { apply bool_decide_eq_false. intros Hnil.
    apply (f_equal length) in Hnil. rewrite length_resize in Hnil. cbn in Hnil. lia. }
  unfold BuildFileEntryMap, ReadHeaderData, Seek, Read. msimpl.
  rewrite Hu2, Hu3.
  destruct (CDREnd.lCDRSize E =? 0) eqn:Hz; [bool_to_prop; lia|].
  destruct (enc =? HEADERS_NOT_ENCRYPTED) eqn:He; [bool_to_prop; contradiction|].
  destruct hnd as [f|]; msimpl; rewrite ?Hne; msimpl.
  - destruct ((0 <? CDREnd.lCDRSize E)
              && (u32 (CDREnd.lCDROffset E) + CDREnd.lCDRSize E <=? file_size f)) eqn:Hrd;
      msimpl; rewrite ?He; msimpl.
    + eexists. split; [reflexivity|]. msimpl.
      split; [reflexivity|]. split; [reflexivity|]. split; [eauto|].
      intros f' _ _. auto.
    + eexists. split; [reflexivity|]. msimpl.
      split; [reflexivity|]. split; [reflexivity|]. split; [eauto|].
      intros f' [= <-] Hin. apply andb_false_iff in Hrd.
      destruct Hrd; bool_to_prop; lia.
  - eexists. split; [reflexivity|]. msimpl.
    split; [reflexivity|]. split; [reflexivity|]. split; [eauto|].
    intros f' [=].
Qed.

(** X5. When [Prepare] returns [true] on an open file, the CDREnd record it
    leaves describes a single-volume archive whose central directory lies
    before the CDREnd record, without any wrap-around of the 32-bit sum:
    0 <= offset, 0 <= size, offset + size <= position of the CDREnd record,
    and the record itself ends inside the file. *)
Theorem Prepare_true_directory_range (s : CacheFactory) (f : File) (s' : CacheFactory) :
  m_fileHandle s = Some f ->
  Prepare s = Ret true s' ->
  CDREnd.nDisk (m_CDREnd s') = 0
  /\ CDREnd.nCDRStartDisk (m_CDREnd s') = 0
  /\ CDREnd.numEntriesOnDisk (m_CDREnd s') = CDREnd.numEntriesTotal (m_CDREnd s')
  /\ 0 <= CDREnd.lCDROffset (m_CDREnd s')
  /\ 0 <= CDREnd.lCDRSize (m_CDREnd s')
  /\ CDREnd.lCDROffset (m_CDREnd s') + CDREnd.lCDRSize (m_CDREnd s') <= m_nCDREndPos s'
  /\ m_nCDREndPos s' + CDREnd.sizeof <= file_size f
  /\ file_size f <= pakSizeLimit.
Proof.
  intros Hf HP. unfold Prepare in HP. unfold bind at 1 in HP.
  destruct (FindCDREnd s) as [found s1| |] eqn:HF; [|discriminate..].
  destruct found; cbn [negb] in HP; [|discriminate].
  destruct (FindCDREnd_post s f true s1 Hf HF) as (_ & _ & Hloc).
  destruct (Hloc eq_refl) as (Hsig & _ & Hpos).
  assert (Hlim : file_size f <= pakSizeLimit).
  { destruct (Z.le_gt_cases (file_size f) pakSizeLimit) as [H | H]; [exact H|].
    rewrite (FindCDREnd_too_large s f Hf H) in HF. discriminate. }
  assert (Hrec : exists b p, m_CDREnd s1 = CDREnd.read b p).
  { revert HF. unfold FindCDREnd, Seek_END, Tell. msimpl. rewrite Hf. msimpl.
    rewrite Hf. msimpl.
    destruct (_ >? pakSizeLimit); [discriminate|].
    destruct (_ <? CDREnd.sizeof); [discriminate|].
    intros HR.
    match type of HR with FindCDREnd_windows ?a ?rb ?c ?d ?e ?st = _ =>
      pose proof (returns_eq _ _ _ _ _ HR (FindCDREnd_windows_record a rb c d e st)) as H
    end.
    cbv beta in H. destruct H as [H | H]; [|exact H].
    exfalso. rewrite H in Hsig. destruct_state s. cbn in Hsig. discriminate. }
  destruct Hrec as (rb & rp & HE1).
  pose proof (CDREnd_read_ranges rb rp) as (Hr1 & Hr2).
  unfold bind at 1 in HP.
  destruct (Prepare_legacy_hint s1) as [[] s1'| |] eqn:HH; [|discriminate..].
  pose proof (Prepare_legacy_hint_frame _ _ HH) as Hfr1.
  unfold bind at 1 in HP.
  destruct (Prepare_trailer s1') as [ok s2| |] eqn:HT; [|discriminate..].
  pose proof (Prepare_trailer_frame _ _ _ HT) as Hfr2.
  destruct ok; cbn [negb] in HP; [|discriminate].
  assert (H2 : m_CDREnd s2
               = CDREnd.set_nDisk (Z.land (CDREnd.nDisk (m_CDREnd s1)) 0x3fff) (m_CDREnd s1)
               /\ m_nCDREndPos s2 = m_nCDREndPos s1).
  { rewrite Hfr1 in Hfr2. unfold trailer_frame in Hfr2.
    injection Hfr2. intros. split; congruence. }
  destruct H2 as (HE2 & HP2).
  unfold bind at 1 in HP.
  destruct (Prepare_checks s2) as [ok s3| |] eqn:HC; [|discriminate..].
  destruct ok; cbn [negb] in HP; [|discriminate].
  assert (H3 : s3 = s2
               /\ CDREnd.nDisk (m_CDREnd s2) = 0
               /\ CDREnd.nCDRStartDisk (m_CDREnd s2) = 0
               /\ CDREnd.numEntriesOnDisk (m_CDREnd s2)
                  = CDREnd.numEntriesTotal (m_CDREnd s2)
               /\ CDREnd.lCDROffset (m_CDREnd s2) <= m_nCDREndPos s2
               /\ CDREnd.lCDRSize (m_CDREnd s2) <= m_nCDREndPos s2
               /\ u32 (CDREnd.lCDROffset (m_CDREnd s2) + CDREnd.lCDRSize (m_CDREnd s2))
                  <= m_nCDREndPos s2).
  { revert HC. unfold Prepare_checks. msimpl.
    match goal with |- (if ?c then _ else _) _ = _ -> _ => destruct c eqn:E1 end;
      [discriminate|].
    match goal with |- (if ?c then _ else _) _ = _ -> _ => destruct c eqn:E2 end;
      [discriminate|].
    intros [= Heq]. subst s3. bool_to_prop. auto 10. }
  destruct H3 as (-> & Hd & Hsd & Hn & Hoff & Hsz & Hsum).
  unfold bind at 1 in HP.
  pose proof (BuildFileEntryMap_within s2) as HB. unfold ensures in HB.
  destruct (BuildFileEntryMap s2) as [r s4| |]; [|discriminate HP..].
  destruct HB as (HE4 & HP4 & _ & _). injection HP as <-.
  rewrite HE4, HP4.
  assert (Hoff2 : CDREnd.lCDROffset (m_CDREnd s2) = CDREnd.lCDROffset (CDREnd.read rb rp))
    by (rewrite HE2, HE1; reflexivity).
  assert (Hsz2 : CDREnd.lCDRSize (m_CDREnd s2) = CDREnd.lCDRSize (CDREnd.read rb rp))
    by (rewrite HE2, HE1; reflexivity).
  rewrite Hoff2, Hsz2 in *. rewrite HP2 in *.
  change pakSizeLimit with 2147483648 in *. unfold CDREnd.sizeof in *.
  rewrite u32_small in Hsum by lia.
  repeat split; try assumption; lia.
Qed.

End PrepareMore.

(** ** The driver *)

Section DriverMore.
Context {env : ZipDirEnv}.

Lemma Prepare_keeps_fileHandle s b s' :
  Prepare s = Ret b s' -> m_fileHandle s' = m_fileHandle s.
Proof.
  unfold Prepare. unfold bind at 1.
  destruct (FindCDREnd s) as [found s1| |] eqn:HF; [|discriminate..].
  pose proof (FindCDREnd_frame _ _ _ HF) as Hfr1.
  assert (H1 : m_fileHandle s1 = m_fileHandle s)
    by (unfold locator_frame in Hfr1; congruence).
  destruct found; cbn [negb]; [|intros [= <- <-]; exact H1].
  unfold bind at 1.
  destruct (Prepare_legacy_hint s1) as [[] s1'| |] eqn:HH; [|discriminate..].
  pose proof (Prepare_legacy_hint_frame _ _ HH) as Hfr2.
  unfold bind at 1.
  destruct (Prepare_trailer s1') as [ok s2| |] eqn:HT; [|discriminate..].
  pose proof (Prepare_trailer_frame _ _ _ HT) as Hfr3.
  assert (H2 : m_fileHandle s2 = m_fileHandle s).
  { rewrite Hfr2 in Hfr3. unfold trailer_frame in Hfr3. injection Hfr3. intros.
    congruence. }
  destruct ok; cbn [negb]; [|intros [= <- <-]; exact H2].
  unfold bind at 1.
  destruct (Prepare_checks_cases s2) as [(HC & _) | (e & HC)]; rewrite HC; cbn [negb].
  2:{ intros [= <- <-]. rewrite <- H2. destruct_state s2. reflexivity. }
  unfold bind at 1.
  assert (HB : ensures BuildFileEntryMap s2
                 (fun _ s4 => m_fileHandle s4 = m_fileHandle s2)).
  { unfold BuildFileEntryMap. apply ensures_bind, ensures_get. cbv zeta.
    apply ensures_bind. eapply ensures_mono; [apply returns_ensures, Seek_keeps|].
    intros u t1 Ht1. cbv beta in Ht1 |- *.
    assert (Hh1 : m_fileHandle t1 = m_fileHandle s2)
      by (unfold validator_frame in Ht1; congruence).
    clear Ht1.
    destruct (_ =? 0); [apply ensures_ret; exact Hh1|].
    apply ensures_bind, ensures_modify. apply ensures_bind, ensures_get.
    set (t2 := set_CDR_buffer _ t1).
    assert (Hh2 : m_fileHandle t2 = m_fileHandle s2)
      by (rewrite <- Hh1; subst t2; destruct_state t1; reflexivity).
    clearbody t2.
    destruct (bool_decide _).
    { apply ensures_THROW. rewrite <- Hh2. destruct_state t2. reflexivity. }
    apply ensures_bind.
    assert (HRd : forall n st, ensures (ReadHeaderData n) st
                    (fun _ st' => m_fileHandle st' = m_fileHandle st)).
    { intros n st. unfold ReadHeaderData. apply ensures_bind.
      eapply ensures_mono; [apply returns_ensures, Read_keeps|].
      intros r st1 Hst1. cbv beta in Hst1 |- *.
      assert (Hh : m_fileHandle st1 = m_fileHandle st)
        by (unfold validator_frame in Hst1; congruence).
      rewrite <- Hh. clear. destruct r; [|apply ensures_ret; reflexivity].
      destruct_state st1. unfold ensures. msimpl.
      repeat match goal with
      | |- context [if ?c then _ else _] => destruct c; msimpl
      end; reflexivity. }
    eapply ensures_mono; [apply HRd|].
    intros r t3 Hh3. cbv beta in Hh3 |- *.
    apply ensures_bind.
    assert (Hst : ensures
              (match snd r with
               | Some bytes =>
                   modify (fun s => set_CDR_buffer (buf_write (m_CDR_buffer s) 0 bytes) s)
               | None => ret tt
               end) t3 (fun _ t4 => m_fileHandle t4 = m_fileHandle s2)).
    { rewrite <- Hh2, <- Hh3.
      destruct (snd r); [apply ensures_modify | apply ensures_ret];
        destruct_state t3; reflexivity. }
    eapply ensures_mono; [exact Hst|].
    intros u4 t4 Hh4. cbv beta in Hh4 |- *.
    destruct (negb (fst r)).
    { apply ensures_THROW. rewrite <- Hh4. destruct_state t4. reflexivity. }
    eapply ensures_mono; [apply BuildFileEntryMap_records_within|].
    intros b5 t5 (Hw5 & _). cbv beta.
    destruct (walk_frame_CDREnd _ _ Hw5) as (_ & _ & _ & Hh5 & _). congruence. }
  unfold ensures in HB. destruct (BuildFileEntryMap s2) as [r s4| |]; [|discriminate..].
  intros [= <- <-]. congruence.
Qed.

Lemma ReadCache_keeps_fileHandle c s r s' :
  ReadCache c s = Ret r s' -> m_fileHandle s' = m_fileHandle s.
Proof.
  unfold ReadCache. unfold bind at 1, modify at 1.
  set (s0 := set_bBuildFileEntryTree true s).
  assert (H0 : m_fileHandle s0 = m_fileHandle s)
    by (subst s0; destruct_state s; reflexivity).
  clearbody s0. unfold bind at 1.
  destruct (Prepare s0) as [ok s1| |] eqn:HP; [|discriminate..].
  pose proof (Prepare_keeps_fileHandle _ _ _ HP) as H1.
  destruct ok; cbn [negb].
  - destruct_state s1. msimpl. intros [= <- <-]. cbn in *. congruence.
  - intros [= <- <-]. congruence.
Qed.

(** X6. [New] hands the file over: whenever it returns a cache, in whichever
    mode, the cache holds an open file and the factory holds none. *)
Theorem New_hands_over_fileHandle (szFileName : list byte) (fs : FileSystem)
    (s : CacheFactory) (c : Cache.t) (s' : CacheFactory) :
  New szFileName fs s = Ret (Some c) s' ->
  m_fileHandle s' = None /\ exists f, Cache.m_fileHandle c = Some f.
Proof.
  unfold New. unfold bind at 1, get at 1. cbv zeta.
  assert (Hfinish : forall pc st c0 st',
    (s0 <- get ;; modify (set_fileHandle None) ;;
     ret (Some (Cache_set_fileHandle (m_fileHandle s0) pc))) st = Ret (Some c0) st' ->
    m_fileHandle st' = None /\ Cache.m_fileHandle c0 = m_fileHandle st).
  { intros pc st c0 st'. destruct_state st. msimpl. intros [= <- <-].
    destruct pc. split; reflexivity. }
  destruct (FLAGS_READ_ONLY (m_nFlags s)).
  - unfold bind at 1, modify at 1. unfold bind at 1, modify at 1.
    destruct (fs_file fs) as [f|] eqn:Hfs.
    2:{ destruct_state s. msimpl. discriminate. }
    set (s1 := set_filePos 0 _).
    assert (H1 : m_fileHandle s1 = Some f) by (subst s1; destruct_state s; reflexivity).
    clearbody s1. unfold bind at 1.
    match goal with |- context [ReadCache ?pc s1] =>
      destruct (ReadCache pc s1) as [r s2| |] eqn:HR; [|discriminate..]
    end.
    pose proof (ReadCache_keeps_fileHandle _ _ _ _ HR) as H2.
    destruct (negb (fst r)).
    { destruct_state s2. msimpl. discriminate. }
    intros HN. apply Hfinish in HN. destruct HN as [HN1 HN2].
    split; [exact HN1|]. exists f. congruence.
  - unfold bind at 1, modify at 1. unfold bind at 1, modify at 1.
    unfold bind at 1, get at 1.
    set (s1 := set_filePos 0 _).
    assert (Hwrite : forall pc st c0 st',
      (modify (set_fileHandle None) ;;
       if fs_writable fs then
         modify (set_fileHandle (Some empty_file)) ;;
         modify (set_filePos 0) ;;
         (s0 <- get ;; modify (set_fileHandle None) ;;
          ret (Some (Cache_set_fileHandle (m_fileHandle s0)
                       (Cache_set_flags
                          (Cache.mkFlags (Cache.FLAGS_DONT_COMPACT (Cache.m_nFlags pc))
                             true (Cache.FLAGS_READ_ONLY (Cache.m_nFlags pc)))
                          (Cache_set_lCDROffset 0 pc)))))
       else THROW_ZIPDIR_ERROR ZD_ERROR_IO_FAILED ;; ret None) st = Ret (Some c0) st' ->
      m_fileHandle st' = None /\ exists f, Cache.m_fileHandle c0 = Some f).
    { intros pc st c0 st'. destruct_state st. msimpl.
      destruct (fs_writable fs); msimpl; [|discriminate].
      intros [= <- <-]. destruct pc. split; [reflexivity | eexists; reflexivity]. }
    destruct (m_fileHandle s1) as [f|] eqn:H1; [|apply Hwrite].
    unfold bind at 1. unfold Seek_END at 1. unfold bind at 1, get at 1.
    rewrite H1. unfold bind at 1, log_io, modify at 1. unfold modify at 1.
    set (s2 := set_filePos (file_size f) _).
    assert (H2 : m_fileHandle s2 = Some f)
      by (subst s2; rewrite <- H1; destruct_state s1; reflexivity).
    clearbody s2.
    unfold bind at 1. unfold Tell at 1. unfold bind at 1, get at 1. rewrite H2.
    unfold ret at 1. unfold bind at 1. rewrite Seek_eq, H2.
    set (s3 := set_filePos (u32 0) _).
    assert (H3 : m_fileHandle s3 = Some f)
      by (subst s3; rewrite <- H2; destruct_state s2; reflexivity).
    clearbody s3.
    destruct (negb (m_filePos s2 =? 0)); [|apply Hwrite].
    unfold bind at 1.
    match goal with |- context [ReadCache ?pc s3] =>
      destruct (ReadCache pc s3) as [r s4| |] eqn:HR; [|discriminate..]
    end.
    pose proof (ReadCache_keeps_fileHandle _ _ _ _ HR) as H4.
    destruct (negb (fst r)).
    { destruct_state s4. msimpl. discriminate. }
    intros HN. apply Hfinish in HN. destruct HN as [HN1 HN2].
    split; [exact HN1|]. exists f. congruence.
Qed.

(** X7. With FLAGS_CREATE_NEW and without FLAGS_READ_ONLY, [New] reads
    nothing: when the place is writable it returns an empty cache on a new
    empty file, marked CDR-dirty, with the CDR at offset 0 and no I/O call
    made; when it is not, it throws ZD_ERROR_IO_FAILED and returns nothing. *)
Theorem New_create_new (szFileName : list byte) (fs : FileSystem) (s : CacheFactory) :
  FLAGS_READ_ONLY (m_nFlags s) = false ->
  FLAGS_CREATE_NEW (m_nFlags s) = true ->
  (fs_writable fs = true ->
   exists c s',
     New szFileName fs s = Ret (Some c) s'
     /\ m_io s' = m_io s /\ m_errors s' = m_errors s
     /\ m_fileHandle s' = None
     /\ Cache.m_fileHandle c = Some empty_file
     /\ Cache.m_treeDir c = ∅
     /\ Cache.m_lCDROffset c = 0
     /\ Cache.FLAGS_CDR_DIRTY (Cache.m_nFlags c) = true
     /\ Cache.FLAGS_READ_ONLY (Cache.m_nFlags c) = false
     /\ Cache.FLAGS_DONT_COMPACT (Cache.m_nFlags c) = FLAGS_DONT_COMPACT (m_nFlags s))
  /\ (fs_writable fs = false ->
      exists s',
        New szFileName fs s = Ret None s'
        /\ m_io s' = m_io s /\ m_errors s' = m_errors s ++ [ZD_ERROR_IO_FAILED]).
Proof.
  intros Hro Hcn.
  destruct s as [a1 a2 a3 a4 a5 hnd pos a8 a9 E enc sg ext hs he cdr mp tr errs w io].
  cbn [m_nFlags] in Hro, Hcn. unfold New. msimpl. rewrite Hro, Hcn. msimpl.
  split; intros Hw; rewrite Hw; msimpl.
  - eexists _, _. split; [reflexivity|]. cbn. auto 12.
  - eexists. split; [reflexivity|]. cbn. auto.
Qed.

End DriverMore.

(** ** The walk: rounds, rejections and validation *)

Section WalkMore.
Context {env : ZipDirEnv}.

Lemma bind_ext {A B} (m : M A) (k1 k2 : A -> M B) s :
  (forall a s', k1 a s' = k2 a s') -> bind m k1 s = bind m k2 s.
Proof. intros H. unfold bind. destruct (m s); auto. Qed.

(** X8. The rounds given to the walk over the directory never run out: a
    record takes at least the 46 bytes of its header, so with more than
    (pEndOfData - pFile) / 46 rounds the walk ends by its own guard or by one
    of its returns, and any larger number of rounds gives the same run.  The
    number [BuildFileEntryMap] passes, lCDRSize / 46 + 1, is such a number. *)
Theorem BuildFileEntryMap_records_rounds (fuel1 fuel2 : nat) (pFile pEndOfData : Z)
    (s : CacheFactory) :
  pEndOfData - pFile < CDRFileHeader.sizeof * Z.of_nat fuel1 ->
  pEndOfData - pFile < CDRFileHeader.sizeof * Z.of_nat fuel2 ->
  BuildFileEntryMap_records fuel1 pFile pEndOfData s
  = BuildFileEntryMap_records fuel2 pFile pEndOfData s
  /\ (0 <= pEndOfData ->
      pEndOfData - 0
      < CDRFileHeader.sizeof
        * Z.of_nat (Z.to_nat (pEndOfData / CDRFileHeader.sizeof + 1))).
Proof.
  unfold CDRFileHeader.sizeof. intros H1 H2. split.
  2:{ intros Hpos. pose proof (Z.div_mod pEndOfData 46 ltac:(lia)).
      pose proof (Z.mod_pos_bound pEndOfData 46 ltac:(lia)).
      assert (0 <= pEndOfData / 46) by (apply Z.div_pos; lia). lia. }
  revert fuel2 pFile s H1 H2.
  induction fuel1 as [|fuel1 IH]; intros fuel2 pFile s H1 H2.
  - destruct fuel2 as [|fuel2]; [reflexivity|].
    cbn [BuildFileEntryMap_records]. cbv zeta. unfold CDRFileHeader.sizeof.
    destruct (pFile + 46 >? pEndOfData) eqn:E; [reflexivity|].
    bool_to_prop. cbn in H1. lia.
  - destruct fuel2 as [|fuel2].
    + cbn [BuildFileEntryMap_records]. cbv zeta. unfold CDRFileHeader.sizeof.
      destruct (pFile + 46 >? pEndOfData) eqn:E; [reflexivity|].
      bool_to_prop. cbn in H2. lia.
    + cbn [BuildFileEntryMap_records]. cbv zeta. unfold CDRFileHeader.sizeof.
      destruct (pFile + 46 >? pEndOfData) eqn:E; [reflexivity|].
      apply bind_ext. intros _ s1. apply bind_ext. intros s1' s1''.
      match goal with |- (if ?c then _ else _) _ = _ => destruct c end; [reflexivity|].
      match goal with |- (if ?c then _ else _) _ = _ => destruct c end; [reflexivity|].
      apply bind_ext. intros _ s2.
      pose proof (CDRFileHeader_ranges (m_CDR_buffer s1') pFile) as (_ & Hr1 & Hr2 & Hr3).
      apply IH; lia.
Qed.

(** X9. A record stored without compression (method STORE, or STORE with
    the keytable stream cipher) whose uncompressed size differs from its
    compressed size is rejected by [AddFileEntry]: it throws
    ZD_ERROR_VALIDATION_FAILED and changes nothing else, so no entry is added
    and no I/O call is made. *)
Theorem AddFileEntry_store_size_mismatch (s : CacheFactory)
    (strFilePath pFileHeader extra : Z) :
  CDRFileHeader.lLocalHeaderOffset (header_at s pFileHeader)
  <= CDREnd.lCDROffset (m_CDREnd s) ->
  CDRFileHeader.nMethod (header_at s pFileHeader) = METHOD_STORE
  \/ CDRFileHeader.nMethod (header_at s pFileHeader)
     = METHOD_STORE_AND_STREAMCIPHER_KEYTABLE ->
  DataDescriptor.lSizeUncompressed (CDRFileHeader.desc (header_at s pFileHeader))
  <> DataDescriptor.lSizeCompressed (CDRFileHeader.desc (header_at s pFileHeader)) ->
  AddFileEntry strFilePath pFileHeader extra s
  = Ret tt (set_errors (m_errors s ++ [ZD_ERROR_VALIDATION_FAILED]) s).
Proof.
  unfold header_at. intros Hlho Hm Hne. unfold AddFileEntry.
  unfold bind at 1, get at 1. cbv zeta.
  destruct (_ >? CDREnd.lCDROffset (m_CDREnd s)) eqn:E1; [bool_to_prop; lia|].
  match goal with |- (if ?c then _ else _) _ = _ => destruct c eqn:E2 end;
    [reflexivity|].
  exfalso. apply andb_false_iff in E2. destruct E2 as [E2 | E2].
  - apply orb_false_iff in E2. destruct E2 as [E3 E4]. bool_to_prop.
    destruct Hm; contradiction.
  - bool_to_prop. contradiction.
Qed.

Lemma buf_get_of_nat (b : list byte) (i : nat) :
  buf_get b (Z.of_nat i) = default x00 (b !! i).
Proof.
  unfold buf_get. destruct (Z.of_nat i <? 0) eqn:E; [bool_to_prop; lia|].
  rewrite Nat2Z.id. reflexivity.
Qed.

Lemma buf_slice_prefix (l l' : list byte) :
  buf_slice (l ++ l') 0 (Z.of_nat (length l)) = l.
Proof.
  unfold buf_slice. rewrite Nat2Z.id.
  apply list_eq. intros i. rewrite list_lookup_fmap.
  destruct (decide (i < length l)%nat) as [Hlt | Hge].
  - rewrite lookup_seq_lt by exact Hlt.
    change (Some (buf_get (l ++ l') (Z.of_nat i)) = l !! i).
    rewrite buf_get_of_nat, lookup_app_l by exact Hlt.
    destruct (lookup_lt_is_Some_2 l i Hlt) as [x Hx]. rewrite Hx. reflexivity.
  - rewrite lookup_seq_ge by lia. rewrite lookup_ge_None_2 by lia. reflexivity.
Qed.

Lemma file_read_length f pos n : length (file_read f pos n) = Z.to_nat n.
Proof. unfold file_read. rewrite length_map, length_seq. reflexivity. Qed.

(** X10. [Validate] of a stored entry (method 0) of less than 2^31 bytes
    (so that its buffer, sized with the sum of the two equal sizes, holds it)
    whose data lies inside the open file: it seeks to the data offset and
    reads the compressed size, and then throws ZD_ERROR_CRC32_CHECK exactly
    when the CRC32 of the bytes read differs from the one recorded; it throws
    nothing else, and no inflater runs. *)
Theorem Validate_stored (fileEntry : FileEntryBase.t) (s : CacheFactory) (f : File) :
  m_fileHandle s = Some f ->
  FileEntryBase.nMethod fileEntry = 0 ->
  DataDescriptor.lSizeUncompressed (FileEntryBase.desc fileEntry)
  = DataDescriptor.lSizeCompressed (FileEntryBase.desc fileEntry) ->
  0 <= FileEntryBase.nFileDataOffset fileEntry < 4294967296 ->
  0 < DataDescriptor.lSizeCompressed (FileEntryBase.desc fileEntry) < 2147483648 ->
  FileEntryBase.nFileDataOffset fileEntry
  + DataDescriptor.lSizeCompressed (FileEntryBase.desc fileEntry) <= file_size f ->
  exists s',
    Validate fileEntry s = Ret tt s'
    /\ m_io s'
       = m_io s
         ++ [IoSeek (FileEntryBase.nFileDataOffset fileEntry);
             IoRead (FileEntryBase.nFileDataOffset fileEntry)
               (DataDescriptor.lSizeCompressed (FileEntryBase.desc fileEntry)) true]
    /\ m_errors s'
       = m_errors s
         ++ (if Crc32 (file_read f (FileEntryBase.nFileDataOffset fileEntry)
                         (DataDescriptor.lSizeCompressed (FileEntryBase.desc fileEntry)))
                =? DataDescriptor.lCRC32 (FileEntryBase.desc fileEntry)
             then [] else [ZD_ERROR_CRC32_CHECK]).
Proof.
  intros Hf Hm Hsz Hoff Hn Hin.
  destruct fileEntry as [[crc comp uncomp] m ho off eo nt].
  cbn [FileEntryBase.nMethod FileEntryBase.desc FileEntryBase.nFileDataOffset
       DataDescriptor.lSizeUncompressed DataDescriptor.lSizeCompressed
       DataDescriptor.lCRC32] in *.
  subst m uncomp.
  assert (Hu1 : u32 off = off) by (apply u32_small; lia).
  assert (Hu2 : u32 comp = comp) by (apply u32_small; lia).
  assert (Hu3 : u32 (comp + comp) = comp + comp) by (apply u32_small; lia).
  destruct s as [a1 a2 a3 a4 a5 hnd pos a8 a9 E enc sg ext hs he cdr mp tr errs w io].
  cbn [m_fileHandle] in Hf. subst hnd.
  unfold Validate, Seek, Read.
  cbn [FileEntryBase.nMethod FileEntryBase.desc FileEntryBase.nFileDataOffset
       DataDescriptor.lSizeUncompressed DataDescriptor.lSizeCompressed
       DataDescriptor.lCRC32].
  msimpl. rewrite Hu1, Hu2, Hu3, Z.ltb_irrefl.
  destruct ((0 <? comp) && (off + comp <=? file_size f)) eqn:Hrd.
  2:{ apply andb_false_iff in Hrd. destruct Hrd; bool_to_prop; lia. }
  msimpl. change (0 =? 0) with true. cbn [negb]. change (Z_OK =? Z_OK) with true.
  cbv iota.
  assert (Hsl : buf_slice (file_read f off comp ++ replicate (Z.to_nat comp) x00) 0 comp
                = file_read f off comp).
  { rewrite <- (buf_slice_prefix (file_read f off comp) (replicate (Z.to_nat comp) x00))
      at 2.
    rewrite file_read_length. rewrite Z2Nat.id by lia. reflexivity. }
  rewrite Hsl. rewrite file_read_length. rewrite Z2Nat.id by lia.
  rewrite Z.eqb_refl. cbn [negb].
  destruct (Crc32 (file_read f off comp) =? crc); cbn [negb]; msimpl.
  - eexists. split; [reflexivity|]. cbn. rewrite <- app_assoc, app_nil_r. auto.
  - eexists. split; [reflexivity|]. cbn. rewrite <- app_assoc. auto.
Qed.

(** X11. The walk over an empty directory: when the CDREnd record gives a
    central directory of size 0, [BuildFileEntryMap] returns [true] after
    its seek to the directory and touches neither the CDR buffer nor the
    tree; nothing is read. *)
Theorem BuildFileEntryMap_empty_directory (s : CacheFactory) :
  CDREnd.lCDRSize (m_CDREnd s) = 0 ->
  exists s',
    BuildFileEntryMap s = Ret true s'
    /\ m_io s' = m_io s ++ [IoSeek (u32 (CDREnd.lCDROffset (m_CDREnd s)))]
    /\ m_CDR_buffer s' = m_CDR_buffer s
    /\ m_treeFileEntries s' = m_treeFileEntries s
    /\ m_mapFileEntries s' = m_mapFileEntries s
    /\ (forall f, m_fileHandle s = Some f -> m_errors s' = m_errors s).
Proof.
  intros Hz.
  destruct s as [a1 a2 a3 a4 a5 hnd pos a8 a9 E enc sg ext hs he cdr mp tr errs w io].
  cbn [m_CDREnd] in Hz. unfold BuildFileEntryMap, Seek. msimpl. rewrite Hz.
  change (0 =? 0) with true. cbv iota.
  destruct hnd; msimpl; eexists; (split; [reflexivity|]); cbn; repeat split; auto.
  intros f [=].
Qed.

End WalkMore.

(** ** Paths in the tree *)

Lemma normalize_char_normalized c :
  normalize_char c <> AZ_WRONG_FILESYSTEM_SEPARATOR
  /\ is_upper (normalize_char c) = false.
Proof. destruct c; split; vm_compute; congruence. Qed.

Lemma c_str_normalized l : normalized_path (c_str (map normalize_char l)).
Proof.
  unfold normalized_path. induction l as [|a l IH]; cbn [map c_str]; [constructor|].
  destruct (bool_decide (normalize_char a = x00)) eqn:E; [constructor|].
  apply bool_decide_eq_false in E. constructor; [|exact IH].
  destruct (normalize_char_normalized a). auto.
Qed.

Lemma paths_normalized_insert t path fe :
  paths_normalized t -> normalized_path path -> paths_normalized (<[path := fe]> t).
Proof.
  intros Ht Hp p e. rewrite lookup_insert_Some.
  intros [[<- _] | [_ H]]; [exact Hp | eauto].
Qed.

Section PathFacts.
Context {env : ZipDirEnv}.

Lemma BuildFileEntryMap_records_normalized fuel pEnd : forall pFile s,
  0 <= pFile -> pEnd < Z.of_nat (length (m_CDR_buffer s)) ->
  ensures (BuildFileEntryMap_records fuel pFile pEnd) s (fun _ s' =>
    paths_normalized (m_treeFileEntries s) ->
    paths_normalized (m_treeFileEntries s')).
Proof.
  induction fuel as [|fuel IH]; intros pFile s Hp Hlen;
    cbn [BuildFileEntryMap_records]; [apply ensures_ret; auto|].
  cbv zeta. destruct (_ >? pEnd); [apply ensures_ret; auto|].
  apply ensures_bind, ensures_modify. apply ensures_bind, ensures_get.
  set (s1 := set_CDR_buffer _ s).
  assert (H1 : m_treeFileEntries s1 = m_treeFileEntries s
               /\ length (m_CDR_buffer s1) = length (m_CDR_buffer s)).
  { subst s1. destruct_state s. split; [reflexivity | apply buf_write_length]. }
  clearbody s1. destruct H1 as (Ht1 & Hl1).
  pose proof (CDRFileHeader_ranges (m_CDR_buffer s1) pFile) as (_ & Hr1 & Hr2 & Hr3).
  match goal with |- ensures (if ?c then _ else _) _ _ => destruct c end.
  { apply ensures_THROW. rewrite <- Ht1. destruct_state s1. auto. }
  match goal with |- ensures (if ?c then _ else _) _ _ => destruct c eqn:Hend end.
  { apply ensures_THROW. rewrite <- Ht1. destruct_state s1. auto. }
  bool_to_prop. unfold CDRFileHeader.sizeof in *.
  apply ensures_bind.
  set (nLen := CDRFileHeader.nFileNameLength (CDRFileHeader.read (m_CDR_buffer s1) pFile))
    in *.
  assert (Hstep : forall extra,
    ensures
      (if negb ((nLen >? 0)
                && is_filesystem_separator
                     (buf_get (m_CDR_buffer s1) (pFile + 46 + nLen - 1)))
       then
         modify (fun s => set_CDR_buffer
                   (buf_write
                      (buf_write (m_CDR_buffer s) (pFile + 46)
                         (map normalize_char
                            (buf_slice (m_CDR_buffer s) (pFile + 46) nLen)))
                      (pFile + 46 + nLen) [x00]) s) ;;
         AddFileEntry (pFile + 46) pFile extra
       else ret tt) s1
      (fun _ s' =>
         length (m_CDR_buffer s') = length (m_CDR_buffer s)
         /\ (paths_normalized (m_treeFileEntries s) ->
             paths_normalized (m_treeFileEntries s')))).
  { intros extra. destruct (negb _).
    2:{ apply ensures_ret. rewrite Ht1. auto. }
    apply ensures_bind, ensures_modify.
    set (name := map normalize_char (buf_slice (m_CDR_buffer s1) (pFile + 46) nLen)).
    assert (Hname : Z.of_nat (length name) = nLen)
      by (subst name; rewrite length_map, buf_slice_length; lia).
    set (s2 := set_CDR_buffer _ s1).
    assert (H2 : m_treeFileEntries s2 = m_treeFileEntries s
                 /\ m_CDR_buffer s2
                    = buf_write (buf_write (m_CDR_buffer s1) (pFile + 46) name)
                        (pFile + 46 + nLen) [x00])
      by (rewrite <- Ht1; subst s2; destruct_state s1; split; reflexivity).
    clearbody s2. destruct H2 as (Ht2 & Hb2).
    eapply ensures_mono; [apply AddFileEntry_ensures|].
    intros u s3 (_ & Hb3 & Htree & _). cbv beta.
    split; [rewrite Hb3, Hb2, !buf_write_length; exact Hl1|].
    intros Hn. destruct Htree as [-> | (fe & _ & _ & _ & ->)].
    - rewrite Ht2. exact Hn.
    - apply paths_normalized_insert; [rewrite Ht2; exact Hn|].
      rewrite Hb2, <- Hname. rewrite c_str_at_written by lia.
      apply c_str_normalized. }
  eapply ensures_mono; [apply Hstep|].
  intros u s3 (Hl3 & Hn3). cbv beta.
  eapply ensures_mono; [apply IH; lia|].
  intros b s4 Hn4. cbv beta. auto.
Qed.

Lemma ReadHeaderData_result nSize s :
  returns (ReadHeaderData nSize) s (fun r s' =>
    m_treeFileEntries s' = m_treeFileEntries s
    /\ m_CDR_buffer s' = m_CDR_buffer s
    /\ forall bytes, snd r = Some bytes -> length bytes = Z.to_nat (u32 nSize)).
Proof.
  unfold ReadHeaderData. apply returns_bind. unfold returns at 1.
  destruct (Read_cases nSize s) as [(f & _ & _ & _ & ->) | ->].
  - unfold returns, Read_ok_state. destruct_state s. msimpl.
    repeat match goal with
    | |- context [if ?c then _ else _] => destruct c; msimpl
    end.
    all: split; [reflexivity|]; split; [reflexivity|].
    all: intros bytes [= <-]; apply file_read_length.
  - unfold returns, Read_failed_state. destruct_state s. msimpl.
    split; [reflexivity|]. split; [reflexivity|]. intros bytes [=].
Qed.

Lemma BuildFileEntryMap_normalized s :
  0 <= CDREnd.lCDRSize (m_CDREnd s) < 4294967296 - 16 ->
  ensures BuildFileEntryMap s (fun _ s' =>
    paths_normalized (m_treeFileEntries s) ->
    paths_normalized (m_treeFileEntries s')).
Proof.
  intros Hsize. unfold BuildFileEntryMap. apply ensures_bind, ensures_get. cbv zeta.
  apply ensures_bind. eapply ensures_mono; [apply returns_ensures, Seek_keeps|].
  intros u s1 H1. cbv beta in H1 |- *.
  assert (HT1 : m_treeFileEntries s1 = m_treeFileEntries s)
    by (unfold validator_frame in H1; congruence).
  clear H1.
  destruct (_ =? 0); [apply ensures_ret; rewrite HT1; auto|].
  apply ensures_bind, ensures_modify. apply ensures_bind, ensures_get.
  set (s2 := set_CDR_buffer _ s1).
  assert (H2 : m_treeFileEntries s2 = m_treeFileEntries s
               /\ length (m_CDR_buffer s2)
                  = Z.to_nat (CDREnd.lCDRSize (m_CDREnd s) + 16)).
  { rewrite <- HT1. subst s2. destruct_state s1. split; [reflexivity|].
    cbn [m_CDR_buffer set_CDR_buffer m_CDREnd].
    rewrite length_resize, u32_small by lia. reflexivity. }
  clearbody s2. destruct H2 as (HT2 & HL2).
  destruct (bool_decide _).
  { apply ensures_THROW. rewrite <- HT2. destruct_state s2. auto. }
  apply ensures_bind. eapply ensures_mono; [apply returns_ensures, ReadHeaderData_result|].
  intros r s3 (HT3 & HB3 & _). cbv beta.
  apply ensures_bind.
  assert (Hst : ensures
            (match snd r with
             | Some bytes =>
                 modify (fun s => set_CDR_buffer (buf_write (m_CDR_buffer s) 0 bytes) s)
             | None => ret tt
             end) s3 (fun _ s4 =>
               m_treeFileEntries s4 = m_treeFileEntries s
               /\ length (m_CDR_buffer s4)
                  = Z.to_nat (CDREnd.lCDRSize (m_CDREnd s) + 16))).
  { rewrite <- HT2, <- HL2, <- HT3, <- HB3.
    destruct (snd r); [apply ensures_modify | apply ensures_ret];
      destruct_state s3; split; try reflexivity. apply buf_write_length. }
  eapply ensures_mono; [exact Hst|].
  intros u4 s4 (HT4 & HL4). cbv beta.
  destruct (negb (fst r)).
  { apply ensures_THROW. rewrite <- HT4. destruct_state s4. auto. }
  rewrite <- HT4.
  apply BuildFileEntryMap_records_normalized; [lia | rewrite HL4; lia].
Qed.

(** What [Prepare] has done when it returns: either it stopped before the
    walk, with the tree as it was, or the walk ran from a state whose CDREnd
    record describes a directory inside the file. *)
Lemma Prepare_inv s f b s' :
  m_fileHandle s = Some f ->
  Prepare s = Ret b s' ->
  (b = false /\ m_treeFileEntries s' = m_treeFileEntries s)
  \/ (b = true
      /\ exists s2 r,
           BuildFileEntryMap s2 = Ret r s'
           /\ m_treeFileEntries s2 = m_treeFileEntries s
           /\ CDREnd.nDisk (m_CDREnd s2) = 0
           /\ CDREnd.nCDRStartDisk (m_CDREnd s2) = 0
           /\ CDREnd.numEntriesOnDisk (m_CDREnd s2)
              = CDREnd.numEntriesTotal (m_CDREnd s2)
           /\ 0 <= CDREnd.lCDROffset (m_CDREnd s2)
           /\ 0 <= CDREnd.lCDRSize (m_CDREnd s2)
           /\ CDREnd.lCDROffset (m_CDREnd s2) + CDREnd.lCDRSize (m_CDREnd s2)
              <= m_nCDREndPos s2
           /\ m_nCDREndPos s2 + CDREnd.sizeof <= file_size f
           /\ file_size f <= pakSizeLimit).
Proof.
  intros Hf HP. unfold Prepare in HP. unfold bind at 1 in HP.
  destruct (FindCDREnd s) as [found s1| |] eqn:HF; [|discriminate..].
  destruct (FindCDREnd_post s f found s1 Hf HF) as (Hfr1 & _ & Hloc).
  assert (Ht1 : m_treeFileEntries s1 = m_treeFileEntries s)
    by (unfold locator_frame in Hfr1; congruence).
  destruct found; cbn [negb] in HP; [|injection HP as <- <-; left; auto].
  destruct (Hloc eq_refl) as (Hsig & _ & Hpos).
  assert (Hlim : file_size f <= pakSizeLimit).
  { destruct (Z.le_gt_cases (file_size f) pakSizeLimit) as [H | H]; [exact H|].
    rewrite (FindCDREnd_too_large s f Hf H) in HF. discriminate. }
  assert (Hrec : exists b p, m_CDREnd s1 = CDREnd.read b p).
  { revert HF. unfold FindCDREnd, Seek_END, Tell. msimpl. rewrite Hf. msimpl.
    rewrite Hf. msimpl.
    destruct (_ >? pakSizeLimit); [discriminate|].
    destruct (_ <? CDREnd.sizeof); [discriminate|].
    intros HR.
    match type of HR with FindCDREnd_windows ?a ?rb ?c ?d ?e ?st = _ =>
      pose proof (returns_eq _ _ _ _ _ HR (FindCDREnd_windows_record a rb c d e st)) as H
    end.
    cbv beta in H. destruct H as [H | H]; [|exact H].
    exfalso. rewrite H in Hsig. destruct_state s. cbn in Hsig. discriminate. }
  destruct Hrec as (rb & rp & HE1).
  pose proof (CDREnd_read_ranges rb rp) as (Hr1 & Hr2).
  unfold bind at 1 in HP.
  destruct (Prepare_legacy_hint s1) as [[] s1'| |] eqn:HH; [|discriminate..].
  pose proof (Prepare_legacy_hint_frame _ _ HH) as Hfr2.
  unfold bind at 1 in HP.
  destruct (Prepare_trailer s1') as [ok s2| |] eqn:HT; [|discriminate..].
  pose proof (Prepare_trailer_frame _ _ _ HT) as Hfr3.
  assert (H2 : m_CDREnd s2
               = CDREnd.set_nDisk (Z.land (CDREnd.nDisk (m_CDREnd s1)) 0x3fff) (m_CDREnd s1)
               /\ m_nCDREndPos s2 = m_nCDREndPos s1
               /\ m_treeFileEntries s2 = m_treeFileEntries s).
  { rewrite Hfr2 in Hfr3. unfold trailer_frame in Hfr3.
    injection Hfr3. intros. repeat split; congruence. }
  destruct H2 as (HE2 & HP2 & Ht2).
  destruct ok; cbn [negb] in HP; [|injection HP as <- <-; left; auto].
  unfold bind at 1 in HP.
  destruct (Prepare_checks s2) as [ok s3| |] eqn:HC; [|discriminate..].
  assert (H3 : (ok = false /\ m_treeFileEntries s3 = m_treeFileEntries s2)
               \/ (ok = true /\ s3 = s2
                   /\ CDREnd.nDisk (m_CDREnd s2) = 0
                   /\ CDREnd.nCDRStartDisk (m_CDREnd s2) = 0
                   /\ CDREnd.numEntriesOnDisk (m_CDREnd s2)
                      = CDREnd.numEntriesTotal (m_CDREnd s2)
                   /\ CDREnd.lCDROffset (m_CDREnd s2) <= m_nCDREndPos s2
                   /\ CDREnd.lCDRSize (m_CDREnd s2) <= m_nCDREndPos s2
                   /\ u32 (CDREnd.lCDROffset (m_CDREnd s2)
                           + CDREnd.lCDRSize (m_CDREnd s2))
                      <= m_nCDREndPos s2)).
  { revert HC. unfold Prepare_checks. msimpl.
    match goal with |- (if ?c then _ else _) _ = _ -> _ => destruct c eqn:E1 end.
    { intros [= <- <-]. left. destruct_state s2. auto. }
    match goal with |- (if ?c then _ else _) _ = _ -> _ => destruct c eqn:E2 end.
    { intros [= <- <-]. left. destruct_state s2. auto. }
    intros [= <- Heq]. subst s3. right. bool_to_prop. auto 10. }
  destruct H3 as [(-> & Ht3) | (-> & -> & Hd & Hsd & Hn & Hoff & Hsz & Hsum)];
    cbn [negb] in HP.
  { injection HP as <- <-. left. split; [reflexivity | congruence]. }
  unfold bind at 1 in HP.
  destruct (BuildFileEntryMap s2) as [r s4| |] eqn:HB; [|discriminate..].
  injection HP as <- <-. right. split; [reflexivity|].
  exists s2, r. split; [exact HB|]. split; [exact Ht2|].
  assert (Hoff2 : CDREnd.lCDROffset (m_CDREnd s2) = CDREnd.lCDROffset (CDREnd.read rb rp))
    by (rewrite HE2, HE1; reflexivity).
  assert (Hsz2 : CDREnd.lCDRSize (m_CDREnd s2) = CDREnd.lCDRSize (CDREnd.read rb rp))
    by (rewrite HE2, HE1; reflexivity).
  rewrite Hoff2, Hsz2 in *. rewrite HP2 in *.
  change pakSizeLimit with 2147483648 in *. unfold CDREnd.sizeof in *.
  rewrite u32_small in Hsum by lia.
  repeat split; try assumption; lia.
Qed.

(** X12. Every path [Prepare] puts into the tree is normalised: it holds no
    NUL, no backslash and no upper-case letter.  (The tree it starts from is
    empty when [New] calls it; the statement allows any tree whose paths are
    normalised already.) *)
Theorem Prepare_paths_normalized (s : CacheFactory) (f : File)
    (b : bool) (s' : CacheFactory) :
  m_fileHandle s = Some f ->
  paths_normalized (m_treeFileEntries s) ->
  Prepare s = Ret b s' ->
  paths_normalized (m_treeFileEntries s').
Proof.
  intros Hf Hn HP.
  destruct (Prepare_inv s f b s' Hf HP)
    as [(_ & ->) | (_ & s2 & r & HB & Ht2 & _ & _ & _ & Hoff & Hsz & Hsum & Hpos & Hlim)];
    [exact Hn|].
  change pakSizeLimit with 2147483648 in Hlim. unfold CDREnd.sizeof in Hpos.
  pose proof (BuildFileEntryMap_normalized s2 ltac:(lia)) as H.
  unfold ensures in H. rewrite HB in H. apply H. rewrite Ht2. exact Hn.
Qed.

End PathFacts.

(** ** GetFilePath *)

Lemma tolower_nul c : tolower c = x00 <-> c = x00.
Proof. destruct c; vm_compute; split; congruence. Qed.

Lemma c_str_map_tolower l : c_str (map tolower l) = map tolower (c_str l).
Proof.
  induction l as [|a l IH]; [reflexivity|]. cbn [map c_str].
  destruct (bool_decide (a = x00)) eqn:E.
  - apply bool_decide_eq_true in E. subst a. reflexivity.
  - apply bool_decide_eq_false in E.
    rewrite bool_decide_eq_false_2 by (rewrite tolower_nul; exact E).
    cbn [map]. rewrite IH. reflexivity.
Qed.

Lemma tolower_not_upper c : is_upper (tolower c) = false.
Proof. destruct c; vm_compute; reflexivity. Qed.

(** X13. [GetFilePath] returns the name in lower case, up to its first NUL,
    whatever the static buffer held before the call, as long as
    nFileNameLength is less than the size of the buffer (the AZ_Assert of the
    function); the length of the buffer does not change, and no upper-case
    letter is left.  The wrong separator is not replaced. *)
Theorem GetFilePath_lower_case (strResult pFileName : list byte) (nFileNameLength : Z) :
  0 <= nFileNameLength < Z.of_nat (length strResult) ->
  c_str (GetFilePath strResult pFileName nFileNameLength)
  = map tolower (c_str (buf_slice pFileName 0 nFileNameLength))
  /\ length (GetFilePath strResult pFileName nFileNameLength) = length strResult
  /\ Forall (fun c => is_upper c = false)
       (c_str (GetFilePath strResult pFileName nFileNameLength)).
Proof.
  intros Hn. unfold GetFilePath. cbv zeta.
  set (name := buf_slice pFileName 0 nFileNameLength).
  assert (Hlen : Z.of_nat (length name) = nFileNameLength)
    by (subst name; rewrite buf_slice_length; lia).
  set (r2 := buf_write (buf_write strResult 0 name) nFileNameLength [x00]).
  assert (Hl2 : length r2 = length strResult)
    by (subst r2; rewrite !buf_write_length; reflexivity).
  assert (Hsl : buf_slice r2 0 nFileNameLength = name).
  { apply list_eq. intros i. unfold buf_slice at 1. rewrite list_lookup_fmap.
    destruct (decide (i < length name)%nat) as [Hlt | Hge].
    - rewrite lookup_seq_lt by lia.
      change (Some (buf_get r2 (0 + Z.of_nat i)) = name !! i).
      subst r2. rewrite buf_get_write_outside by (cbn; lia).
      unfold buf_get, buf_write.
      destruct (0 + Z.of_nat i <? 0) eqn:E; [bool_to_prop; lia|].
      rewrite list_lookup_inserts by lia.
      replace (Z.to_nat (0 + Z.of_nat i) - Z.to_nat 0)%nat with i by lia.
      destruct (lookup_lt_is_Some_2 name i Hlt) as [x Hx]. rewrite Hx. reflexivity.
    - rewrite lookup_seq_ge by lia. rewrite lookup_ge_None_2 by lia. reflexivity. }
  rewrite Hsl.
  assert (Hc : c_str (buf_write r2 0 (map tolower name)) = map tolower (c_str name)).
  { rewrite <- c_str_map_tolower. apply c_str_prefix.
    - intros k Hk. rewrite length_map in Hk. unfold buf_write.
      rewrite list_lookup_inserts by (rewrite ?length_map; lia).
      f_equal. lia.
    - unfold buf_write. rewrite length_map.
      rewrite list_lookup_inserts_ge by (rewrite length_map; lia).
      subst r2. unfold buf_write.
      rewrite list_lookup_inserts by (rewrite ?length_inserts; cbn; lia).
      replace (length name - Z.to_nat nFileNameLength)%nat with 0%nat by lia.
      reflexivity. }
  split; [exact Hc|]. split; [rewrite buf_write_length; exact Hl2|].
  rewrite Hc. apply Forall_forall. intros c Hin.
  apply list_elem_of_fmap in Hin. destruct Hin as (c0 & -> & _).
  apply tolower_not_upper.
Qed.

(** ** The driver in read-only mode, and the custom headers *)

Section HeadersMore.
Context {env : ZipDirEnv}.

(** X14. A successful read-only open is [Prepare] followed by the hand-over
    of ReadCache: when [Prepare] returns [true] on the file just opened, [New]
    returns a cache that holds the file, the CDR buffer as the walk left it,
    the CDR offset of the CDREnd record, the kinds and headers the factory
    decoded, and the entries of the factory's tree with their end-of-file
    offsets refreshed; the cache is marked read-only and CDR-dirty, the path
    is memorised unless FLAGS_DONT_MEMORIZE_ZIP_PATH is set, no further error
    is thrown, and the factory is left with the empty tree and buffer of the
    new cache and without the file. *)
Theorem New_read_only_success (szFileName : list byte) (fs : FileSystem) (f : File)
    (s s1 : CacheFactory) :
  FLAGS_READ_ONLY (m_nFlags s) = true ->
  fs_file fs = Some f ->
  Prepare (open_state f s) = Ret true s1 ->
  exists c s',
    New szFileName fs s = Ret (Some c) s'
    /\ Cache.m_fileHandle c = m_fileHandle s1
    /\ Cache.m_CDR_buffer c = m_CDR_buffer s1
    /\ Cache.m_lCDROffset c = CDREnd.lCDROffset (m_CDREnd s1)
    /\ Cache.m_encryptedHeaders c = m_encryptedHeaders s1
    /\ Cache.m_signedHeaders c = m_signedHeaders s1
    /\ Cache.m_headerExtended c = m_headerExtended s1
    /\ Cache.m_treeDir c
       = RefreshEOFOffsets (m_treeFileEntries s1) (CDREnd.lCDROffset (m_CDREnd s1))
    /\ (forall path,
          FileEntryBase.set_nEOFOffset 0 <$> (Cache.m_treeDir c !! path)
          = FileEntryBase.set_nEOFOffset 0 <$> (m_treeFileEntries s1 !! path))
    /\ Cache.m_nFlags c = Cache.mkFlags (FLAGS_DONT_COMPACT (m_nFlags s)) true true
    /\ Cache.m_strFilePath c
       = (if FLAGS_DONT_MEMORIZE_ZIP_PATH (m_nFlags s) then [] else szFileName)
    /\ m_errors s' = m_errors s1
    /\ m_fileHandle s' = None
    /\ m_treeFileEntries s' = ∅
    /\ m_CDR_buffer s' = [].
Proof.
  intros Hro Hfs HP.
  destruct s as [a1 a2 a3 a4 a5 hnd pos a8 a9 E enc sg ext hs he buf mp tr errs w io].
  unfold open_state in HP. cbn [m_nFlags] in *.
  unfold New, ReadCache. msimpl. rewrite Hro, Hfs. msimpl. rewrite HP. msimpl.
  destruct s1 as [b1 b2 b3 b4 b5 hnd1 pos1 b8 b9 E1 enc1 sg1 ext1 hs1 he1 buf1 mp1 tr1
                  errs1 w1 io1].
  msimpl. eexists _, _. split; [reflexivity|].
  cbn. repeat split; try reflexivity.
  intros path. apply RefreshEOFOffsets_lookup.
Qed.

(** X15. The decoder of the custom headers reads the signature header from
    the bytes that follow the extended header, also when the extended header
    declares the keytable encryption header; it never reads the encryption
    header ([m_headerEncryption] is left as it was).  Here: no legacy hint,
    an extended header in the file that declares keytable encryption and CDR
    signing, a comment of the three sizes together, and a file that reaches
    far enough. *)
Theorem Prepare_trailer_signature_offset (s : CacheFactory) (f : File) :
  m_fileHandle s = Some f ->
  m_encryptedHeaders s = HEADERS_NOT_ENCRYPTED ->
  trailer_of f (m_CDREnd s)
  = CryCustomExtendedHeader.mk CryCustomExtendedHeader.sizeof
      HEADERS_ENCRYPTED_STREAMCIPHER_KEYTABLE HEADERS_CDR_SIGNED ->
  CDREnd.nCommentLength (m_CDREnd s)
  = CryCustomExtendedHeader.sizeof + sizeof_CryCustomEncryptionHeader
    + sizeof_CrySignedCDRHeader ->
  trailer_pos (m_CDREnd s) + CryCustomExtendedHeader.sizeof + sizeof_CrySignedCDRHeader
  <= file_size f ->
  exists b s',
    Prepare_trailer s = Ret b s'
    /\ m_io s'
       = m_io s
         ++ [IoSeek (trailer_pos (m_CDREnd s));
             IoRead (trailer_pos (m_CDREnd s)) CryCustomExtendedHeader.sizeof true;
             IoRead (trailer_pos (m_CDREnd s) + CryCustomExtendedHeader.sizeof)
               sizeof_CrySignedCDRHeader true]
    /\ m_headerSignature s'
       = file_read f (trailer_pos (m_CDREnd s) + CryCustomExtendedHeader.sizeof)
           sizeof_CrySignedCDRHeader
    /\ m_headerEncryption s' = m_headerEncryption s
    /\ m_encryptedHeaders s' = HEADERS_ENCRYPTED_STREAMCIPHER_KEYTABLE
    /\ m_signedHeaders s' = HEADERS_CDR_SIGNED.
Proof.
  intros Hf Henc Hext Hcl Hin.
  pose proof encryption_kinds_distinct as (_ & _ & Hk).
  pose proof signing_kinds_distinct as Hsg.
  pose proof trailer_sizes_fit as (Hs1 & Hs2 & Hs3).
  unfold trailer_of, trailer_pos in *.
  unfold CryCustomExtendedHeader.sizeof in *.
  assert (E1 : u16 (6 + sizeof_CryCustomEncryptionHeader)
               = 6 + sizeof_CryCustomEncryptionHeader) by (apply u16_small; lia).
  assert (E3 : u16 (6 + sizeof_CryCustomEncryptionHeader + sizeof_CrySignedCDRHeader)
               = 6 + sizeof_CryCustomEncryptionHeader + sizeof_CrySignedCDRHeader)
    by (apply u16_small; lia).
  assert (E4 : u32 sizeof_CrySignedCDRHeader = sizeof_CrySignedCDRHeader)
    by (apply u32_small; lia).
  destruct s as [a1 a2 a3 a4 a5 hnd pos a8 a9 E enc sg ext hs he buf mp tr errs w io].
  cbn [m_fileHandle m_encryptedHeaders m_CDREnd m_io m_headerEncryption] in *.
  subst hnd enc.
  set (tp := u32 (CDREnd.lCDROffset E + CDREnd.lCDRSize E + CDREnd.sizeof)) in *.
  assert (Htp : 0 <= tp) by (subst tp; unfold u32; apply Z.mod_pos_bound; lia).
  unfold Prepare_trailer, Seek, Read, CryCustomExtendedHeader.sizeof. msimpl.
  fold tp. change (u32 6) with 6. rewrite Hcl.
  destruct (_ >=? 6) eqn:Hge; [|bool_to_prop; lia]. msimpl.
  destruct ((0 <? 6) && (tp + 6 <=? file_size f)) eqn:Hrd.
  2:{ apply andb_false_iff in Hrd. destruct Hrd; bool_to_prop; lia. }
  msimpl. rewrite Hext.
  cbn [CryCustomExtendedHeader.nHeaderSize CryCustomExtendedHeader.nEncryption
       CryCustomExtendedHeader.nSigning].
  change (6 =? 6) with true. cbn [negb]. msimpl.
  rewrite (Z.eqb_refl HEADERS_NOT_ENCRYPTED). cbn [negb]. rewrite andb_false_r. msimpl.
  destruct (HEADERS_ENCRYPTED_STREAMCIPHER_KEYTABLE =? HEADERS_NOT_ENCRYPTED) eqn:Hk1;
    [bool_to_prop; contradiction|].
  rewrite (Z.eqb_refl HEADERS_ENCRYPTED_STREAMCIPHER_KEYTABLE).
  destruct (HEADERS_CDR_SIGNED =? HEADERS_NOT_SIGNED) eqn:Hk2;
    [bool_to_prop; contradiction|].
  rewrite (Z.eqb_refl HEADERS_CDR_SIGNED). rewrite E1, E3.
  rewrite ?Hcl, Z.eqb_refl. msimpl. rewrite E4.
  destruct ((0 <? sizeof_CrySignedCDRHeader)
            && (tp + 6 + sizeof_CrySignedCDRHeader <=? file_size f)) eqn:Hrd2.
  2:{ apply andb_false_iff in Hrd2. destruct Hrd2; bool_to_prop; lia. }
  msimpl.
  match goal with |- context [if ?c then _ else _] => destruct c; msimpl end.
  all: eexists _, _; (split; [reflexivity|]); cbn.
  all: rewrite <- !app_assoc; auto 10.
Qed.

End HeadersMore.

(** ** The locator on archives without a clamped window *)

Lemma buf_get_write_inside b i l j :
  0 <= i -> i <= j < i + Z.of_nat (length l) -> j < Z.of_nat (length b) ->
  buf_get (buf_write b i l) j = buf_get l (j - i).
Proof.
  intros Hi Hj Hlen. unfold buf_get, buf_write.
  destruct (j <? 0) eqn:E1; [bool_to_prop; lia|].
  destruct (j - i <? 0) eqn:E2; [bool_to_prop; lia|].
  rewrite list_lookup_inserts by lia. f_equal. f_equal. lia.
Qed.

Lemma buf_get_file_read f pos n j :
  0 <= j < n -> buf_get (file_read f pos n) j = file_byte f (pos + j).
Proof.
  intros Hj. unfold buf_get, file_read.
  destruct (j <? 0) eqn:E; [bool_to_prop; lia|].
  rewrite list_lookup_fmap, lookup_seq_lt by lia. cbn. f_equal. lia.
Qed.

Lemma buf_get_slice b i n j :
  0 <= j < n -> buf_get (buf_slice b i n) j = buf_get b (i + j).
Proof.
  intros Hj. unfold buf_slice. unfold buf_get at 1.
  destruct (j <? 0) eqn:E; [bool_to_prop; lia|].
  rewrite list_lookup_fmap, lookup_seq_lt by lia. cbn. f_equal. lia.
Qed.

Lemma read_u16_shift b1 b2 p1 p2 k :
  (forall j, 0 <= j < 22 -> buf_get b1 (p1 + j) = buf_get b2 (p2 + j)) ->
  0 <= k <= 20 -> read_u16 b1 (p1 + k) = read_u16 b2 (p2 + k).
Proof.
  intros H Hk. unfold read_u16.
  rewrite (H k) by lia.
  replace (p1 + k + 1) with (p1 + (k + 1)) by lia.
  replace (p2 + k + 1) with (p2 + (k + 1)) by lia.
  rewrite (H (k + 1)) by lia. reflexivity.
Qed.

Lemma read_u32_shift b1 b2 p1 p2 k :
  (forall j, 0 <= j < 22 -> buf_get b1 (p1 + j) = buf_get b2 (p2 + j)) ->
  0 <= k <= 18 -> read_u32 b1 (p1 + k) = read_u32 b2 (p2 + k).
Proof.
  intros H Hk. unfold read_u32.
  rewrite (read_u16_shift b1 b2 p1 p2 k H) by lia.
  replace (p1 + k + 2) with (p1 + (k + 2)) by lia.
  replace (p2 + k + 2) with (p2 + (k + 2)) by lia.
  rewrite (read_u16_shift b1 b2 p1 p2 (k + 2) H) by lia. reflexivity.
Qed.

Lemma CDREnd_read_shift b1 b2 p1 p2 :
  (forall j, 0 <= j < 22 -> buf_get b1 (p1 + j) = buf_get b2 (p2 + j)) ->
  CDREnd.read b1 p1 = CDREnd.read b2 p2.
Proof.
  intros H. unfold CDREnd.read.
  replace (read_u32 b1 p1) with (read_u32 b1 (p1 + 0)) by (f_equal; lia).
  replace (read_u32 b2 p2) with (read_u32 b2 (p2 + 0)) by (f_equal; lia).
  rewrite (read_u32_shift b1 b2 p1 p2 0 H) by lia.
  rewrite (read_u16_shift b1 b2 p1 p2 4 H) by lia.
  rewrite (read_u16_shift b1 b2 p1 p2 6 H) by lia.
  rewrite (read_u16_shift b1 b2 p1 p2 8 H) by lia.
  rewrite (read_u16_shift b1 b2 p1 p2 10 H) by lia.
  rewrite (read_u32_shift b1 b2 p1 p2 12 H) by lia.
  rewrite (read_u32_shift b1 b2 p1 p2 16 H) by lia.
  rewrite (read_u16_shift b1 b2 p1 p2 20 H) by lia.
  reflexivity.
Qed.

(** A record read from a buffer that holds the bytes of the file at [q]. *)
Lemma CDREnd_read_file buf pEnd f q :
  (forall j, 0 <= j < 22 -> buf_get buf (pEnd + j) = file_byte f (q + j)) ->
  CDREnd.read buf pEnd = record_at f q.
Proof.
  intros H. unfold record_at. apply CDREnd_read_shift.
  intros j Hj. rewrite H by exact Hj.
  rewrite buf_get_file_read by (unfold CDREnd.sizeof; lia). reflexivity.
Qed.

Lemma last_signature_app n m f p :
  last_signature (n + m) f p
  = match last_signature n f p with
    | Some q => Some q
    | None => last_signature m f (p - Z.of_nat n)
    end.
Proof.
  revert p. induction n as [|n IH]; intros p.
  - cbn. f_equal. lia.
  - cbn [Nat.add last_signature]. destruct (signature_at f p); [reflexivity|].
    rewrite IH. destruct (last_signature n f (p - 1)); [reflexivity|].
    f_equal. lia.
Qed.

Lemma last_signature_found n f p q :
  last_signature n f p = Some q -> signature_at f q = true.
Proof.
  revert p. induction n as [|n IH]; intros p; cbn; [discriminate|].
  destruct (signature_at f p) eqn:E; [intros [= <-]; exact E | apply IH].
Qed.

(** The scan of one window whose buffer holds the bytes of the file. *)
Lemma FindCDREnd_scan_exact f buf pWindow nNewBufPos : forall n nScanPos s,
  0 <= nNewBufPos -> 0 <= nScanPos ->
  Z.of_nat n = nScanPos - nNewBufPos + 1 ->
  (forall q j, nNewBufPos <= q <= nScanPos -> 0 <= j < 22 ->
     buf_get buf (pWindow + q - nNewBufPos + j) = file_byte f (q + j)) ->
  FindCDREnd_scan n buf pWindow nNewBufPos (file_size f) nScanPos s
  = match last_signature n f nScanPos with
    | Some p =>
        if CDREnd.nCommentLength (record_at f p) =? file_size f - p - CDREnd.sizeof
        then Ret (None, p) (set_nCDREndPos p (set_CDREnd (record_at f p) s))
        else Ret (Some false, p)
               (set_errors (m_errors s ++ [ZD_ERROR_DATA_IS_CORRUPT]) s)
    | None => Ret (None, Z.max 0 (nNewBufPos - 1)) s
    end.
Proof.
  induction n as [|n IH]; intros nScanPos s Hnew Hscan Hn Hbuf.
  - cbn. unfold ret. f_equal. f_equal. lia.
  - cbn [FindCDREnd_scan last_signature].
    destruct (nScanPos <? nNewBufPos) eqn:E; [bool_to_prop; lia|]. cbv zeta.
    assert (Hrec : CDREnd.read buf (pWindow + nScanPos - nNewBufPos) = record_at f nScanPos).
    { apply CDREnd_read_file. intros j Hj. apply Hbuf; [lia | exact Hj]. }
    unfold CDREnd.lSignature_at, CDREnd.nCommentLength_at.
    change (read_u32 buf (pWindow + nScanPos - nNewBufPos))
      with (CDREnd.lSignature (CDREnd.read buf (pWindow + nScanPos - nNewBufPos))).
    change (read_u16 buf (pWindow + nScanPos - nNewBufPos + 20))
      with (CDREnd.nCommentLength (CDREnd.read buf (pWindow + nScanPos - nNewBufPos))).
    rewrite Hrec. unfold signature_at.
    destruct (CDREnd.lSignature (record_at f nScanPos) =? CDREnd.SIGNATURE).
    + destruct (_ =? file_size f - nScanPos - CDREnd.sizeof); reflexivity.
    + destruct (nScanPos =? 0) eqn:Hz.
      * bool_to_prop. assert (n = 0%nat) by lia. subst n. cbn.
        unfold ret. f_equal. f_equal. lia.
      * bool_to_prop. apply IH; try lia.
        intros q j Hq Hj. apply Hbuf; [lia | exact Hj].
Qed.

(** The window loop on an archive of at most 22 + 0xFFFF bytes: no window is
    clamped, every window ends at index 256 of the buffer, where the tail of
    the window before it starts, so every record the scan looks at is the
    record the file holds there.  [r] counts the offsets still to scan. *)
Lemma FindCDREnd_windows_exact f fuel : forall buf nOldBufPos nScanPos r s,
  m_fileHandle s = Some f ->
  CDREnd.sizeof <= file_size f <= CDREnd.sizeof + 0xFFFF ->
  length buf = 277%nat ->
  (nOldBufPos = file_size f /\ nScanPos = file_size f - CDREnd.sizeof
   /\ r = file_size f - CDREnd.sizeof + 1)
  \/ (0 <= nOldBufPos <= file_size f - CDREnd.sizeof + 1
      /\ nScanPos = Z.max 0 (nOldBufPos - 1) /\ r = nOldBufPos
      /\ (0 < nOldBufPos ->
          forall j, 0 <= j < 21 -> buf_get buf (256 + j) = file_byte f (nOldBufPos + j))) ->
  nOldBufPos <= CDRSearchWindowSize * (Z.of_nat fuel - 1) ->
  CDREnd.lSignature (m_CDREnd s) <> CDREnd.SIGNATURE ->
  returns (FindCDREnd_windows fuel buf (file_size f) nOldBufPos nScanPos) s
    (locator_decides f (last_signature (Z.to_nat r) f (r - 1)) s).
Proof.
  unfold CDREnd.sizeof, CDRSearchWindowSize.
  change 0xFFFF with 65535. change 0x100 with 256.
  set (F := file_size f).
  induction fuel as [|fuel IH]; intros buf nOld nScan r s Hf HF Hlen Hinv Hfuel Hsig.
  { exfalso. cbn in Hfuel. destruct Hinv as [(-> & _) | ((H0 & _) & _)]; lia. }
  cbn [FindCDREnd_windows]. cbv zeta.
  unfold CDREnd.sizeof, CDRSearchWindowSize. change 0xFFFF with 65535.
  change 0x100 with 256.
  destruct (F >? 22 + 65535) eqn:Hclamp; [bool_to_prop; lia|]. cbn [andb].
  set (new := if nOld <=? 256 then 0 else nOld - 256).
  set (pW := if nOld <=? 256 then 256 - (nOld - 0) else 0).
  assert (Hnew : new = Z.max 0 (nOld - 256) /\ pW + (nOld - new) = 256 /\ 0 <= pW).
  { subst new pW. destruct (nOld <=? 256) eqn:E1; bool_to_prop;
      destruct Hinv as [(-> & _) | ((H0 & _) & _)]; lia. }
  clearbody new pW. destruct Hnew as (Hnew & HpW & HpW0).
  assert (Hold : 0 <= nOld <= F /\ 0 <= nScan
                 /\ (0 < nOld -> nScan = r - 1 /\ nScan < nOld /\ nScan <= F - 22)
                 /\ (nOld = 0 -> r = 0) /\ 0 <= r).
  { destruct Hinv as [(-> & -> & ->) | ((H0 & H1) & -> & -> & _)]; lia. }
  destruct Hold as (Hold & Hscan0 & Hscan & Hr0 & Hrpos).
  destruct (new >=? nOld) eqn:Hge.
  { bool_to_prop. assert (nOld = 0) by lia. rewrite (Hr0 H). cbn.
    destruct_state s. unfold returns. msimpl. split; reflexivity. }
  bool_to_prop. destruct (Hscan ltac:(lia)) as (Hr & Hlt & Hle).
  assert (Hu1 : u32 new = new) by (apply u32_small; lia).
  assert (Hu2 : u32 (nOld - new) = nOld - new) by (apply u32_small; lia).
  apply returns_bind. unfold returns at 1. rewrite Seek_eq, Hf, Hu1.
  set (s1 := set_filePos new _).
  assert (H1 : m_fileHandle s1 = Some f /\ m_filePos s1 = new
               /\ m_errors s1 = m_errors s /\ m_CDREnd s1 = m_CDREnd s)
    by (subst s1; destruct_state s; cbn in *; auto).
  clearbody s1. destruct H1 as (Hf1 & Hp1 & He1 & HE1).
  apply returns_bind. unfold returns at 1.
  rewrite (Read_in_range _ _ f Hf1) by (rewrite ?Hu2, ?Hp1; fold F; lia).
  rewrite Hu2, Hp1.
  set (s2 := Read_ok_state _ s1).
  assert (H2 : m_fileHandle s2 = Some f
               /\ m_errors s2 = m_errors s /\ m_CDREnd s2 = m_CDREnd s)
    by (subst s2; unfold Read_ok_state; rewrite <- He1, <- HE1, <- Hf1;
        destruct_state s1; cbn; auto).
  clearbody s2. destruct H2 as (Hf2 & He2 & HE2).
  set (buf' := buf_write buf pW (file_read f new (nOld - new))).
  assert (Hlen' : length buf' = 277%nat)
    by (subst buf'; rewrite buf_write_length; exact Hlen).
  assert (Hwin : forall i, pW <= i < 256 -> buf_get buf' i = file_byte f (new + (i - pW))).
  { intros i Hi. subst buf'.
    rewrite buf_get_write_inside by (rewrite ?file_read_length; lia).
    apply buf_get_file_read. lia. }
  assert (Hbuf : forall q j, new <= q <= nScan -> 0 <= j < 22 ->
            buf_get buf' (pW + q - new + j) = file_byte f (q + j)).
  { intros q j Hq Hj.
    destruct (Z.lt_ge_cases (q + j) nOld) as [Hin | Hout].
    - rewrite Hwin by lia. f_equal. lia.
    - subst buf'.
      rewrite buf_get_write_outside by (rewrite ?file_read_length; lia).
      destruct Hinv as [(-> & -> & _) | (_ & _ & _ & Htail)]; [lia|].
      replace (pW + q - new + j) with (256 + (q + j - nOld)) by lia.
      rewrite Htail by lia. f_equal. lia. }
  apply returns_bind. unfold returns at 1.
  rewrite (FindCDREnd_scan_exact f buf' pW new _ nScan s2) by (try assumption; lia).
  set (n := Z.to_nat (nScan - new + 1)).
  assert (Hsplit : last_signature (Z.to_nat r) f (r - 1)
                   = match last_signature n f nScan with
                     | Some q => Some q
                     | None => last_signature (Z.to_nat new) f (new - 1)
                     end).
  { replace (Z.to_nat r) with (n + Z.to_nat new)%nat by lia.
    rewrite last_signature_app. replace (r - 1) with nScan by lia.
    destruct (last_signature n f nScan); [reflexivity|]. f_equal. lia. }
  rewrite Hsplit. unfold locator_decides. subst F.
  destruct (last_signature n f nScan) as [p|] eqn:Hlast.
  - pose proof (last_signature_found _ _ _ _ Hlast) as Hsigp.
    unfold signature_at in Hsigp. unfold CDREnd.sizeof.
    destruct (CDREnd.nCommentLength (record_at f p) =? file_size f - p - 22).
    + cbn [fst]. unfold bind at 1, get at 1. unfold returns at 1.
      cbn beta iota.
      replace (m_CDREnd (set_nCDREndPos p (set_CDREnd (record_at f p) s2)))
        with (record_at f p) by (destruct_state s2; reflexivity).
      rewrite Hsigp. apply returns_ret.
      rewrite <- He2. destruct_state s2. cbn. auto.
    + cbn [fst]. apply returns_ret. rewrite <- He2. destruct_state s2. cbn. auto.
  - cbn [fst snd]. unfold bind at 1, get at 1. unfold returns at 1. cbn beta iota.
    rewrite HE2. destruct (_ =? CDREnd.SIGNATURE) eqn:Hs; [bool_to_prop; contradiction|].
    eapply returns_mono.
    + apply (IH _ new (Z.max 0 (new - 1)) new s2); try assumption.
      * rewrite buf_write_length. exact Hlen'.
      * right. split; [lia|]. split; [reflexivity|]. split; [reflexivity|].
        intros Hpos j Hj.
        assert (HpW' : pW = 0) by lia.
        rewrite buf_get_write_inside
          by (rewrite ?buf_slice_length, ?Hlen'; unfold CDREnd.sizeof; lia).
        rewrite buf_get_slice by (unfold CDREnd.sizeof; lia).
        rewrite Hwin by lia. f_equal. lia.
      * lia.
      * rewrite HE2. exact Hsig.
    + intros b s4. cbv beta. unfold locator_decides. rewrite He2. auto.
Qed.

(** X16. On an open archive of at least sizeof(CDREnd) and at most
    sizeof(CDREnd) + 0xFFFF bytes the locator decides on the highest offset
    p <= file_size - sizeof(CDREnd) at which the file holds the CDREnd
    signature: with no such offset it throws ZD_ERROR_NO_CDR and returns
    [false]; when the comment length of the record at p is file_size - p -
    sizeof(CDREnd) it returns [true] with that record in [m_CDREnd], p in
    [m_nCDREndPos] and no error; otherwise it throws
    ZD_ERROR_DATA_IS_CORRUPT at once and returns [false], without looking at
    lower offsets. *)
Theorem FindCDREnd_exact (s : CacheFactory) (f : File) :
  m_fileHandle s = Some f ->
  CDREnd.sizeof <= file_size f <= CDREnd.sizeof + 0xFFFF ->
  exists b s',
    FindCDREnd s = Ret b s'
    /\ locator_decides f
         (last_signature (Z.to_nat (file_size f - CDREnd.sizeof + 1)) f
            (file_size f - CDREnd.sizeof)) s b s'.
Proof.
  intros Hf HF.
  unfold FindCDREnd, Seek_END, Tell. msimpl. rewrite Hf. msimpl. rewrite Hf. msimpl.
  change pakSizeLimit with 2147483648. unfold CDREnd.sizeof in HF |- *.
  change 0xFFFF with 65535 in HF.
  destruct (file_size f >? 2147483648) eqn:E1; [bool_to_prop; lia|].
  destruct (file_size f <? 22) eqn:E2; [bool_to_prop; lia|].
  match goal with |- context [FindCDREnd_windows ?n ?rb ?F ?o ?p ?st] =>
    destruct (returns_inv _ _ _
                (FindCDREnd_windows_exact f n rb o p (file_size f - 22 + 1) st
                   ltac:(destruct_state s; exact Hf)
                   ltac:(unfold CDREnd.sizeof; change 0xFFFF with 65535; lia)
                   ltac:(reflexivity)
                   ltac:(left; unfold CDREnd.sizeof; auto)
                   ltac:(unfold FindCDREnd_fuel, CDREnd.sizeof, CDRSearchWindowSize in *;
                         change 0xFFFF with 65535; change 0x100 with 256;
                         pose proof (Z.div_mod (Z.min (file_size f) (22 + 65535)) 256
                                       ltac:(lia));
                         pose proof (Z.mod_pos_bound
                                       (Z.min (file_size f) (22 + 65535)) 256 ltac:(lia));
                         assert (0 <= Z.min (file_size f) (22 + 65535) / 256)
                           by (apply Z.div_pos; lia);
                         lia)
                   ltac:(destruct_state s; cbn; discriminate)))
      as (b & s' & HR & Hdec)
  end.
  exists b, s'. split; [exact HR|].
  replace (file_size f - 22 + 1 - 1) with (file_size f - 22) in Hdec by lia.
  revert Hdec. unfold locator_decides.
  destruct (last_signature _ f (file_size f - 22)) as [p|];
    [destruct (_ =? _)|]; destruct_state s; cbn; auto.
Qed.

(** ** The failed open, an unsupported signature and entries without error *)

Section FailureFacts.
Context {env : ZipDirEnv}.

(** X17. A read-only open that fails: when there is no file, [New] throws
    ZD_ERROR_IO_FAILED and returns nothing, without any I/O call; when
    [Prepare] returns [false] on the file just opened, [New] adds
    ZD_ERROR_IO_FAILED to the errors [Prepare] threw and returns nothing, and
    the factory is left as [Prepare] left it, still holding the open file
    (it is the destructor that closes it). *)
Theorem New_read_only_failure (szFileName : list byte) (fs : FileSystem)
    (s : CacheFactory) :
  FLAGS_READ_ONLY (m_nFlags s) = true ->
  (fs_file fs = None ->
   New szFileName fs s
   = Ret None (set_errors (m_errors s ++ [ZD_ERROR_IO_FAILED])
                 (set_filePos 0 (set_fileHandle None s))))
  /\ (forall f s1,
        fs_file fs = Some f ->
        Prepare (open_state f s) = Ret false s1 ->
        New szFileName fs s
        = Ret None (set_errors (m_errors s1 ++ [ZD_ERROR_IO_FAILED]) s1)
        /\ m_fileHandle s1 = Some f).
Proof.
  intros Hro. split.
  - intros Hfs. unfold New. unfold bind at 1, get at 1. cbv zeta.
    rewrite Hro, Hfs. destruct_state s. msimpl. reflexivity.
  - intros f s1 Hfs HP. split.
    + unfold New. unfold bind at 1, get at 1. cbv zeta. rewrite Hro, Hfs.
      unfold bind at 1, modify at 1. unfold bind at 1, modify at 1.
      unfold bind at 1. unfold ReadCache. unfold bind at 1, modify at 1.
      unfold open_state in HP. unfold bind at 1. rewrite HP.
      cbn [negb fst]. unfold ret at 1. cbn [negb fst].
      destruct_state s1. msimpl. reflexivity.
    + rewrite (Prepare_keeps_fileHandle _ _ _ HP).
      destruct_state s. reflexivity.
Qed.

(** X18. A signing kind the reader does not know: on an unencrypted archive
    whose directory is not empty and lies inside the open file, with a
    signing kind that is neither HEADERS_NOT_SIGNED nor HEADERS_CDR_SIGNED,
    [BuildFileEntryMap] reads the directory, logs the warning about the
    unsupported signature, throws ZD_ERROR_CORRUPTED_DATA and returns [false];
    no entry is filed. *)
Theorem BuildFileEntryMap_unsupported_signature (s : CacheFactory) (f : File) :
  m_fileHandle s = Some f ->
  m_encryptedHeaders s = HEADERS_NOT_ENCRYPTED ->
  m_signedHeaders s <> HEADERS_NOT_SIGNED ->
  m_signedHeaders s <> HEADERS_CDR_SIGNED ->
  0 < CDREnd.lCDRSize (m_CDREnd s) < 4294967296 - 16 ->
  u32 (CDREnd.lCDROffset (m_CDREnd s)) + CDREnd.lCDRSize (m_CDREnd s) <= file_size f ->
  exists s',
    BuildFileEntryMap s = Ret false s'
    /\ m_io s'
       = m_io s
         ++ [IoSeek (u32 (CDREnd.lCDROffset (m_CDREnd s)));
             IoRead (u32 (CDREnd.lCDROffset (m_CDREnd s)))
               (CDREnd.lCDRSize (m_CDREnd s)) true]
    /\ m_warnings s' = m_warnings s ++ [WarnUnsupportedSignature]
    /\ m_errors s' = m_errors s ++ [ZD_ERROR_CORRUPTED_DATA]
    /\ m_treeFileEntries s' = m_treeFileEntries s
    /\ m_mapFileEntries s' = m_mapFileEntries s.
Proof.
  intros Hf Henc Hns Hcs Hsize Hin.
  destruct s as [a1 a2 a3 a4 a5 hnd pos a8 a9 E enc sg ext hs he cdr mp tr errs w io].
  cbn [m_fileHandle m_encryptedHeaders m_signedHeaders m_CDREnd m_io m_warnings
       m_errors m_treeFileEntries m_mapFileEntries] in *.
  subst hnd enc.
  assert (Hu2 : u32 (CDREnd.lCDRSize E) = CDREnd.lCDRSize E) by (apply u32_small; lia).
  assert (Hu3 : u32 (CDREnd.lCDRSize E + 16) = CDREnd.lCDRSize E + 16)
    by (apply u32_small; lia).
  assert (Hne : bool_decide
                  (resize (Z.to_nat (CDREnd.lCDRSize E + 16)) x00 cdr = []) = false).
  { apply bool_decide_eq_false. intros Hnil.
    apply (f_equal length) in Hnil. rewrite length_resize in Hnil. cbn in Hnil. lia. }
  unfold BuildFileEntryMap, ReadHeaderData, Seek, Read. msimpl.
  rewrite Hu2, Hu3.
  destruct (CDREnd.lCDRSize E =? 0) eqn:Hz; [bool_to_prop; lia|].
  msimpl. rewrite ?Hne. msimpl.
  destruct ((0 <? CDREnd.lCDRSize E)
            && (u32 (CDREnd.lCDROffset E) + CDREnd.lCDRSize E <=? file_size f)) eqn:Hrd.
  2:{ apply andb_false_iff in Hrd. destruct Hrd; bool_to_prop; lia. }
  msimpl. rewrite Z.eqb_refl. msimpl.
  destruct (sg =? HEADERS_CDR_SIGNED) eqn:H1; [bool_to_prop; contradiction|].
  destruct (sg =? HEADERS_NOT_SIGNED) eqn:H2; [bool_to_prop; contradiction|].
  msimpl. eexists. split; [reflexivity|]. msimpl.
  rewrite <- app_assoc. repeat (split; [reflexivity|]). reflexivity.
Qed.

(** The errors [Validate] throws are added to the log. *)
Lemma Validate_errors fileEntry s :
  ensures (Validate fileEntry) s (fun _ s' =>
    validator_frame s' = validator_frame s
    /\ exists l, m_errors s' = m_errors s ++ l).
Proof.
  destruct s as [a1 a2 a3 a4 a5 hnd pos a8 a9 E enc sg ext hs he buf mp tr errs w io].
  unfold ensures, Validate, Seek, Read. msimpl.
  destruct hnd as [f|]; msimpl.
  all: repeat match goal with
       | |- context [if ?c then _ else _] => destruct c eqn:?; msimpl
       | |- context [let '(_, _) := ?c in _] => destruct c eqn:?; msimpl
       end.
  all: try exact I.
  all: split; [reflexivity|].
  all: repeat rewrite <- app_assoc.
  all: first [eexists; reflexivity | exists []; rewrite app_nil_r; reflexivity].
Qed.

Lemma InitDataOffset_finish_errors fileEntry s :
  ensures (InitDataOffset_finish fileEntry) s (fun fe' s' =>
    exists l, m_errors s' = m_errors s ++ l
      /\ (l = [] ->
          FileEntryBase.nFileDataOffset fe' < m_nCDREndPos s
          /\ FileEntryBase.nEOFOffset fe'
             = u32 (FileEntryBase.nFileDataOffset fe'
                    + DataDescriptor.lSizeCompressed (FileEntryBase.desc fe')))).
Proof.
  unfold InitDataOffset_finish. apply ensures_bind. unfold ensures at 1, get.
  cbv zeta.
  destruct (_ >=? m_nCDREndPos s) eqn:Hge.
  { destruct_state s. unfold ensures. msimpl. eexists. split; [reflexivity|].
    intros Hnil. discriminate Hnil. }
  assert (Hlt : FileEntryBase.nFileDataOffset fileEntry < m_nCDREndPos s).
  { destruct fileEntry. cbn in Hge |- *. bool_to_prop. lia. }
  destruct (InitMethod_geb (m_nInitMethod s) ZD_INIT_VALIDATE).
  - apply ensures_bind. eapply ensures_mono; [apply Validate_errors|].
    intros u s' (_ & l & Hl). apply ensures_ret. exists l. split; [exact Hl|].
    intros _. destruct fileEntry. cbn in *. auto.
  - apply ensures_ret. exists []. rewrite app_nil_r. split; [reflexivity|].
    intros _. destruct fileEntry. cbn in *. auto.
Qed.

(** X20. An entry that [InitDataOffset] passes without throwing lies inside
    the archive: when the call adds no error to the log, the data offset it
    computed is below the position of the CDREnd record, and the end-of-file
    offset of the entry is the data offset plus the compressed size (as a
    32-bit sum).  This holds in every init method and with or without
    encryption. *)
Theorem InitDataOffset_no_error_inside (fileEntry : FileEntryBase.t) (pFileHeader : Z)
    (s : CacheFactory) (fe' : FileEntryBase.t) (s' : CacheFactory) :
  InitDataOffset fileEntry pFileHeader s = Ret fe' s' ->
  m_errors s' = m_errors s ->
  FileEntryBase.nFileDataOffset fe' < m_nCDREndPos s
  /\ FileEntryBase.nEOFOffset fe'
     = u32 (FileEntryBase.nFileDataOffset fe'
            + DataDescriptor.lSizeCompressed (FileEntryBase.desc fe')).
Proof.
  intros HR Herr.
  assert (H : ensures (InitDataOffset fileEntry pFileHeader) s (fun fe' s' =>
    exists l, m_errors s' = m_errors s ++ l
      /\ (l = [] ->
          FileEntryBase.nFileDataOffset fe' < m_nCDREndPos s
          /\ FileEntryBase.nEOFOffset fe'
             = u32 (FileEntryBase.nFileDataOffset fe'
                    + DataDescriptor.lSizeCompressed (FileEntryBase.desc fe'))))).
  { clear. unfold InitDataOffset. apply ensures_bind. unfold ensures at 1, get. cbv zeta.
    destruct (negb (m_encryptedHeaders s =? HEADERS_NOT_ENCRYPTED)).
    { apply InitDataOffset_finish_errors. }
    apply ensures_bind. unfold ensures at 1. rewrite Seek_eq.
    set (s1 := match m_fileHandle s with Some _ => _ | None => _ end).
    assert (H1 : m_nCDREndPos s1 = m_nCDREndPos s
                 /\ exists l1, m_errors s1 = m_errors s ++ l1).
    { subst s1. destruct s as [? ? ? ? ? hnd ? ? ? ? ? ? ? ? ? ? ? ? errs ? ?].
      cbn. destruct hnd; (split; [reflexivity|]);
        [exists []; rewrite app_nil_r; reflexivity | eexists; reflexivity]. }
    clearbody s1. destruct H1 as (Hp1 & l1 & He1).
    apply ensures_bind.
    match goal with |- ensures (Read ?n) _ _ =>
      destruct (Read_cases n s1) as [(f & _ & _ & _ & HRd) | HRd]
    end; unfold ensures at 1; rewrite HRd.
    all: match goal with |- ensures _ ?st _ =>
           assert (H2 : m_nCDREndPos st = m_nCDREndPos s1
                        /\ exists l2, m_errors st = m_errors s1 ++ l2)
         end.
    1,3: unfold Read_ok_state, Read_failed_state;
      destruct s1; cbn; (split; [reflexivity|]);
      first [exists []; rewrite app_nil_r; reflexivity
            | eexists; reflexivity].
    all: match goal with |- ensures _ ?st _ => set (s2 := st) in * end.
    all: clearbody s2; destruct H2 as (Hp2 & l2 & He2).
    all: repeat match goal with
         | |- ensures (if ?c then _ else _) _ _ => destruct c
         end.
    all: try (apply ensures_THROW; exists (l1 ++ l2 ++ [ZD_ERROR_VALIDATION_FAILED]);
              split; [destruct s2; cbn in *; rewrite He2, He1, <- !app_assoc; reflexivity|];
              intros Hnil; apply app_eq_nil in Hnil; destruct Hnil as [_ Hnil];
              apply app_eq_nil in Hnil; destruct Hnil as [_ Hnil]; discriminate Hnil).
    all: eapply ensures_mono; [apply InitDataOffset_finish_errors|].
    all: intros fe3 s3 (l3 & He3 & Hin); exists (l1 ++ l2 ++ l3).
    all: split; [rewrite He3, He2, He1, <- !app_assoc; reflexivity|].
    all: intros Hnil; apply app_eq_nil in Hnil; destruct Hnil as [_ Hnil];
      apply app_eq_nil in Hnil; destruct Hnil as [_ Hnil];
      rewrite <- Hp1, <- Hp2; exact (Hin Hnil). }
  destruct (ensures_eq _ _ _ _ _ HR H) as (l & Hl & Hin).
  apply Hin. rewrite Herr in Hl.
  apply (app_inv_head (m_errors s)). rewrite app_nil_r. symmetry. exact Hl.
Qed.

(** X21. [Validate] sizes its buffer with the 32-bit sum of the two sizes of
    the entry.  For sizes in the range of [uint32_t] and data inside the open
    file: when the sum stays below 2^32 the call returns; when it does not,
    the call seeks to the data and reads the compressed bytes into a buffer
    that is shorter than they are, and the run ends in [Overrun], the seek and
    the read being its only I/O calls and no error having been thrown. *)
Theorem Validate_buffer_overrun (fileEntry : FileEntryBase.t) (s : CacheFactory)
    (f : File) :
  m_fileHandle s = Some f ->
  0 <= FileEntryBase.nFileDataOffset fileEntry < 4294967296 ->
  0 < DataDescriptor.lSizeCompressed (FileEntryBase.desc fileEntry) < 4294967296 ->
  0 <= DataDescriptor.lSizeUncompressed (FileEntryBase.desc fileEntry) < 4294967296 ->
  FileEntryBase.nFileDataOffset fileEntry
  + DataDescriptor.lSizeCompressed (FileEntryBase.desc fileEntry) <= file_size f ->
  (DataDescriptor.lSizeCompressed (FileEntryBase.desc fileEntry)
   + DataDescriptor.lSizeUncompressed (FileEntryBase.desc fileEntry) < 4294967296 ->
   exists s', Validate fileEntry s = Ret tt s')
  /\ (4294967296
      <= DataDescriptor.lSizeCompressed (FileEntryBase.desc fileEntry)
         + DataDescriptor.lSizeUncompressed (FileEntryBase.desc fileEntry) ->
      exists s',
        Validate fileEntry s = Overrun s'
        /\ m_io s'
           = m_io s
             ++ [IoSeek (FileEntryBase.nFileDataOffset fileEntry);
                 IoRead (FileEntryBase.nFileDataOffset fileEntry)
                   (DataDescriptor.lSizeCompressed (FileEntryBase.desc fileEntry)) true]
        /\ m_errors s' = m_errors s).
Proof.
  intros Hf Hoff Hc Hu Hin. split.
  - intros Hfit.
    destruct (returns_inv _ _ _ (Validate_total fileEntry s Hfit)) as ([] & s' & HR & _).
    exists s'. exact HR.
  - intros Hwrap.
    destruct fileEntry as [[crc comp uncomp] m ho off eo nt].
    cbn [FileEntryBase.nMethod FileEntryBase.desc FileEntryBase.nFileDataOffset
         DataDescriptor.lSizeUncompressed DataDescriptor.lSizeCompressed
         DataDescriptor.lCRC32] in *.
    assert (Hu1 : u32 off = off) by (apply u32_small; lia).
    assert (Hu2 : u32 comp = comp) by (apply u32_small; lia).
    assert (Hu3 : (u32 (comp + uncomp) <? comp + uncomp) = true).
    { apply Z.ltb_lt. unfold u32.
      pose proof (Z.mod_pos_bound (comp + uncomp) 4294967296 ltac:(lia)). lia. }
    destruct s as [a1 a2 a3 a4 a5 hnd pos a8 a9 E enc sg ext hs he cdr mp tr errs w io].
    cbn [m_fileHandle] in Hf. subst hnd.
    unfold Validate, Seek, Read.
    cbn [FileEntryBase.nMethod FileEntryBase.desc FileEntryBase.nFileDataOffset
         DataDescriptor.lSizeUncompressed DataDescriptor.lSizeCompressed
         DataDescriptor.lCRC32].
    msimpl. rewrite Hu1, Hu2, Hu3.
    destruct ((0 <? comp) && (off + comp <=? file_size f)) eqn:Hrd.
    2:{ apply andb_false_iff in Hrd. destruct Hrd; bool_to_prop; lia. }
    msimpl. eexists. split; [reflexivity|]. cbn. rewrite <- app_assoc. auto.
Qed.

End FailureFacts.

(** ** The further theorems at concrete archives *)

Lemma FindCDREnd_true_located_witness :
  CDREnd_located (file_size (file_of_list sample_archive))
    (located ZD_INIT_DEFAULT sample_archive)
  /\ m_nZipFileSize (located ZD_INIT_DEFAULT sample_archive)
     = file_size (file_of_list sample_archive)
  /\ locator_frame (located ZD_INIT_DEFAULT sample_archive)
     = locator_frame (factory_on ZD_INIT_DEFAULT (file_of_list sample_archive)).
Proof.
  apply (FindCDREnd_true_located
           (factory_on ZD_INIT_DEFAULT (file_of_list sample_archive))
           (file_of_list sample_archive)
           (located ZD_INIT_DEFAULT sample_archive)).
  - reflexivity.
  - by_compute.
Defined.

Lemma FindCDREnd_outcomes_witness :
  exists b s',
    FindCDREnd (factory_on ZD_INIT_DEFAULT (file_of_list multivolume_archive)) = Ret b s'
    /\ ((b = true
         /\ m_errors s'
            = m_errors (factory_on ZD_INIT_DEFAULT (file_of_list multivolume_archive))
         /\ m_warnings s'
            = m_warnings (factory_on ZD_INIT_DEFAULT (file_of_list multivolume_archive)))
        \/ (b = false
            /\ m_warnings s'
               = m_warnings (factory_on ZD_INIT_DEFAULT (file_of_list multivolume_archive))
            /\ (m_errors s'
                = m_errors (factory_on ZD_INIT_DEFAULT (file_of_list multivolume_archive))
                  ++ [ZD_ERROR_NO_CDR]
                \/ m_errors s'
                   = m_errors (factory_on ZD_INIT_DEFAULT
                                 (file_of_list multivolume_archive))
                     ++ [ZD_ERROR_DATA_IS_CORRUPT]))
        \/ (b = false
            /\ file_size (file_of_list multivolume_archive) < CDREnd.sizeof
            /\ m_errors s'
               = m_errors (factory_on ZD_INIT_DEFAULT (file_of_list multivolume_archive))
            /\ m_warnings s'
               = m_warnings (factory_on ZD_INIT_DEFAULT
                               (file_of_list multivolume_archive))
                 ++ [WarnFileTooSmall])).
Proof.
  apply (FindCDREnd_outcomes
           (factory_on ZD_INIT_DEFAULT (file_of_list multivolume_archive))
           (file_of_list multivolume_archive)).
  - reflexivity.
  - by_compute.
Defined.

Lemma BuildFileEntryMap_encrypted_witness :
  exists s',
    BuildFileEntryMap (set_encryptedHeaders HEADERS_ENCRYPTED_TEA sample_prepared)
    = Ret false s'
    /\ m_treeFileEntries s'
       = m_treeFileEntries (set_encryptedHeaders HEADERS_ENCRYPTED_TEA sample_prepared).
Proof.
  destruct (BuildFileEntryMap_encrypted
              (set_encryptedHeaders HEADERS_ENCRYPTED_TEA sample_prepared))
    as (s' & HR & Htree & _).
  - by_compute.
  - split; by_compute.
  - exists s'. split; [exact HR | exact Htree].
Defined.

Lemma Prepare_true_directory_range_witness :
  CDREnd.lCDROffset
    (m_CDREnd (result_state
                 (Prepare (factory_on ZD_INIT_DEFAULT (file_of_list sample_archive)))))
  + CDREnd.lCDRSize
      (m_CDREnd (result_state
                   (Prepare (factory_on ZD_INIT_DEFAULT (file_of_list sample_archive)))))
  <= m_nCDREndPos
       (result_state (Prepare (factory_on ZD_INIT_DEFAULT (file_of_list sample_archive)))).
Proof.
  destruct (Prepare_true_directory_range
              (factory_on ZD_INIT_DEFAULT (file_of_list sample_archive))
              (file_of_list sample_archive)
              (result_state
                 (Prepare (factory_on ZD_INIT_DEFAULT (file_of_list sample_archive)))))
    as (_ & _ & _ & _ & _ & Hle & _).
  - reflexivity.
  - by_compute.
  - exact Hle.
Defined.

Lemma New_hands_over_fileHandle_witness :
  New_succeeded
    (New name_a_txt (fs_of (file_of_list sample_archive))
       (CacheFactory_ctor ZD_INIT_DEFAULT read_only_flags)) = true
  /\ match New name_a_txt (fs_of (file_of_list sample_archive))
             (CacheFactory_ctor ZD_INIT_DEFAULT read_only_flags) with
     | Ret (Some c) s' =>
         m_fileHandle s' = None /\ exists f, Cache.m_fileHandle c = Some f
     | _ => True
     end.
Proof.
  split; [by_compute|].
  destruct (New name_a_txt (fs_of (file_of_list sample_archive))
              (CacheFactory_ctor ZD_INIT_DEFAULT read_only_flags))
    as [[c|] s'|s'|s'] eqn:HN; [|exact I..].
  exact (New_hands_over_fileHandle _ _ _ c s' HN).
Defined.

Lemma New_create_new_witness :
  exists c s',
    New name_a_txt writable_place (CacheFactory_ctor ZD_INIT_DEFAULT create_flags)
    = Ret (Some c) s'
    /\ Cache.m_fileHandle c = Some empty_file
    /\ Cache.m_lCDROffset c = 0
    /\ m_io s' = m_io (CacheFactory_ctor ZD_INIT_DEFAULT create_flags).
Proof.
  destruct (New_create_new name_a_txt writable_place
              (CacheFactory_ctor ZD_INIT_DEFAULT create_flags) eq_refl eq_refl)
    as (Hw & _).
  destruct (Hw eq_refl) as (c & s' & HN & Hio & _ & _ & Hfile & _ & Hoff & _).
  exists c, s'. split; [exact HN|]. split; [exact Hfile|].
  split; [exact Hoff | exact Hio].
Defined.

Lemma BuildFileEntryMap_records_rounds_witness :
  BuildFileEntryMap_records 4 0 152 (loaded ZD_INIT_DEFAULT sample_archive sample_cdr)
  = BuildFileEntryMap_records 10 0 152 (loaded ZD_INIT_DEFAULT sample_archive sample_cdr).
Proof.
  refine (proj1 (BuildFileEntryMap_records_rounds 4 10 0 152
                   (loaded ZD_INIT_DEFAULT sample_archive sample_cdr) _ _)).
  - by_compute.
  - by_compute.
Defined.

Lemma AddFileEntry_store_size_mismatch_witness :
  AddFileEntry 46 0 0 (loaded ZD_INIT_DEFAULT sample_archive store_mismatch_cdr)
  = Ret tt
      (set_errors
         (m_errors (loaded ZD_INIT_DEFAULT sample_archive store_mismatch_cdr)
          ++ [ZD_ERROR_VALIDATION_FAILED])
         (loaded ZD_INIT_DEFAULT sample_archive store_mismatch_cdr)).
Proof.
  apply (AddFileEntry_store_size_mismatch
           (loaded ZD_INIT_DEFAULT sample_archive store_mismatch_cdr) 46 0 0).
  - by_compute.
  - left. by_compute.
  - by_compute.
Defined.

Lemma Validate_stored_witness :
  exists s',
    Validate entry_A_TXT (factory_on ZD_INIT_VALIDATE (file_of_list sample_archive))
    = Ret tt s'
    /\ m_io s'
       = m_io (factory_on ZD_INIT_VALIDATE (file_of_list sample_archive))
         ++ [IoSeek 35; IoRead 35 5 true].
Proof.
  destruct (Validate_stored entry_A_TXT
              (factory_on ZD_INIT_VALIDATE (file_of_list sample_archive))
              (file_of_list sample_archive))
    as (s' & HV & Hio & _).
  - reflexivity.
  - reflexivity.
  - reflexivity.
  - split; by_compute.
  - split; by_compute.
  - by_compute.
  - exists s'. split; [exact HV | exact Hio].
Defined.

Lemma BuildFileEntryMap_empty_directory_witness :
  exists s',
    BuildFileEntryMap (located ZD_INIT_DEFAULT trailer_archive) = Ret true s'
    /\ m_CDR_buffer s' = m_CDR_buffer (located ZD_INIT_DEFAULT trailer_archive)
    /\ m_treeFileEntries s' = m_treeFileEntries (located ZD_INIT_DEFAULT trailer_archive).
Proof.
  destruct (BuildFileEntryMap_empty_directory (located ZD_INIT_DEFAULT trailer_archive))
    as (s' & HR & _ & Hbuf & Htree & _).
  - by_compute.
  - exists s'. split; [exact HR|]. split; [exact Hbuf | exact Htree].
Defined.

Lemma Prepare_paths_normalized_witness :
  paths_normalized
    (m_treeFileEntries
       (result_state (Prepare (factory_on ZD_INIT_DEFAULT (file_of_list sample_archive))))).
Proof.
  apply (Prepare_paths_normalized
           (factory_on ZD_INIT_DEFAULT (file_of_list sample_archive))
           (file_of_list sample_archive) true
           (result_state
              (Prepare (factory_on ZD_INIT_DEFAULT (file_of_list sample_archive))))).
  - reflexivity.
  - intros path fe H. exfalso. revert H.
    change (m_treeFileEntries (factory_on ZD_INIT_DEFAULT (file_of_list sample_archive)))
      with (∅ : FileEntryTree).
    rewrite lookup_empty. discriminate.
  - by_compute.
Defined.

Lemma GetFilePath_lower_case_witness :
  c_str (GetFilePath (repeat xff 8) name_A_TXT 5) = name_a_txt
  /\ length (GetFilePath (repeat xff 8) name_A_TXT 5) = 8%nat.
Proof.
  destruct (GetFilePath_lower_case (repeat xff 8) name_A_TXT 5) as (Hstr & Hlen & _).
  - split; by_compute.
  - split; [|exact Hlen]. rewrite Hstr. by_compute.
Defined.

Lemma New_read_only_success_witness :
  exists c s',
    New name_a_txt (fs_of (file_of_list sample_archive))
      (CacheFactory_ctor ZD_INIT_DEFAULT read_only_flags)
    = Ret (Some c) s'
    /\ Cache.m_lCDROffset c = 82
    /\ Cache.m_strFilePath c = name_a_txt
    /\ m_fileHandle s' = None.
Proof.
  destruct (New_read_only_success name_a_txt (fs_of (file_of_list sample_archive))
              (file_of_list sample_archive)
              (CacheFactory_ctor ZD_INIT_DEFAULT read_only_flags)
              (result_state
                 (Prepare (factory_on ZD_INIT_DEFAULT (file_of_list sample_archive)))))
    as (c & s' & HN & _ & _ & Hoff & _ & _ & _ & _ & _ & _ & Hpath & _ & Hfile & _).
  - reflexivity.
  - reflexivity.
  - by_compute.
  - exists c, s'. split; [exact HN|]. split; [|split; [exact Hpath | exact Hfile]].
    rewrite Hoff. clear. by_compute.
Defined.

Lemma Prepare_trailer_signature_offset_witness :
  exists b s',
    Prepare_trailer (located ZD_INIT_DEFAULT signed_keytable_archive) = Ret b s'
    /\ m_headerEncryption s'
       = m_headerEncryption (located ZD_INIT_DEFAULT signed_keytable_archive)
    /\ m_signedHeaders s' = HEADERS_CDR_SIGNED.
Proof.
  destruct (Prepare_trailer_signature_offset
              (located ZD_INIT_DEFAULT signed_keytable_archive)
              (file_of_list signed_keytable_archive))
    as (b & s' & HP & _ & _ & Henc & _ & Hsig).
  - by_compute.
  - by_compute.
  - by_compute.
  - by_compute.
  - by_compute.
  - exists b, s'. split; [exact HP|]. split; [exact Henc | exact Hsig].
Defined.

Lemma FindCDREnd_exact_witness :
  exists b s',
    FindCDREnd (factory_on ZD_INIT_DEFAULT (file_of_list sample_archive)) = Ret b s'
    /\ locator_decides (file_of_list sample_archive)
         (last_signature
            (Z.to_nat (file_size (file_of_list sample_archive) - CDREnd.sizeof + 1))
            (file_of_list sample_archive)
            (file_size (file_of_list sample_archive) - CDREnd.sizeof))
         (factory_on ZD_INIT_DEFAULT (file_of_list sample_archive)) b s'.
Proof.
  apply (FindCDREnd_exact (factory_on ZD_INIT_DEFAULT (file_of_list sample_archive))
           (file_of_list sample_archive)).
  - reflexivity.
  - split; by_compute.
Defined.

Lemma New_read_only_failure_witness :
  New name_a_txt (fs_of (file_of_list multivolume_archive))
    (CacheFactory_ctor ZD_INIT_DEFAULT read_only_flags)
  = Ret None
      (set_errors
         (m_errors (result_state
                      (Prepare (factory_on ZD_INIT_DEFAULT
                                  (file_of_list multivolume_archive))))
          ++ [ZD_ERROR_IO_FAILED])
         (result_state
            (Prepare (factory_on ZD_INIT_DEFAULT (file_of_list multivolume_archive)))))
  /\ m_fileHandle
       (result_state
          (Prepare (factory_on ZD_INIT_DEFAULT (file_of_list multivolume_archive))))
     = Some (file_of_list multivolume_archive).
Proof.
  apply (proj2 (New_read_only_failure name_a_txt
                  (fs_of (file_of_list multivolume_archive))
                  (CacheFactory_ctor ZD_INIT_DEFAULT read_only_flags) eq_refl)
           (file_of_list multivolume_archive)
           (result_state
              (Prepare (factory_on ZD_INIT_DEFAULT (file_of_list multivolume_archive))))).
  - reflexivity.
  - by_compute.
Defined.

Lemma BuildFileEntryMap_unsupported_signature_witness :
  exists s',
    BuildFileEntryMap (set_signedHeaders 7 sample_prepared) = Ret false s'
    /\ m_warnings s'
       = m_warnings (set_signedHeaders 7 sample_prepared) ++ [WarnUnsupportedSignature]
    /\ m_errors s'
       = m_errors (set_signedHeaders 7 sample_prepared) ++ [ZD_ERROR_CORRUPTED_DATA].
Proof.
  destruct (BuildFileEntryMap_unsupported_signature
              (set_signedHeaders 7 sample_prepared) (file_of_list sample_archive))
    as (s' & HR & _ & Hw & He & _).
  - reflexivity.
  - by_compute.
  - by_compute.
  - by_compute.
  - split; by_compute.
  - by_compute.
  - exists s'. split; [exact HR|]. split; [exact Hw | exact He].
Defined.

Lemma InitDataOffset_no_error_inside_witness :
  79 < m_nCDREndPos (loaded ZD_INIT_FULL sample_archive sample_cdr)
  /\ FileEntryBase.nEOFOffset
       (FileEntryBase.mk (DataDescriptor.mk 0 3 3) 0 40 79 82 0)
     = u32 (79 + 3).
Proof.
  apply (InitDataOffset_no_error_inside
           (FileEntryBase_ctor
              (header_at (loaded ZD_INIT_FULL sample_archive sample_cdr) 101) 0)
           101 (loaded ZD_INIT_FULL sample_archive sample_cdr)
           (FileEntryBase.mk (DataDescriptor.mk 0 3 3) 0 40 79 82 0)
           (result_state
              (InitDataOffset
                 (FileEntryBase_ctor
                    (header_at (loaded ZD_INIT_FULL sample_archive sample_cdr) 101) 0)
                 101 (loaded ZD_INIT_FULL sample_archive sample_cdr)))).
  - by_compute.
  - by_compute.
Defined.

Lemma Validate_buffer_overrun_witness :
  exists s',
    Validate entry_wrapping (factory_on ZD_INIT_VALIDATE (file_of_list sample_archive))
    = Overrun s'
    /\ m_io s'
       = m_io (factory_on ZD_INIT_VALIDATE (file_of_list sample_archive))
         ++ [IoSeek 35; IoRead 35 3 true].
Proof.
  destruct (proj2 (Validate_buffer_overrun entry_wrapping
              (factory_on ZD_INIT_VALIDATE (file_of_list sample_archive))
              (file_of_list sample_archive) eq_refl
              ltac:(split; by_compute) ltac:(split; by_compute)
              ltac:(split; by_compute) ltac:(by_compute))
              ltac:(by_compute))
    as (s' & HV & Hio & _).
  exists s'. split; [exact HV | exact Hio].
Defined.
